(** * Map component: classification, styling, reprojection, loading, legend

    A shallow embedding of [src/components/map/Map.jsx] (the reference
    version of the component) and of the earlier single-layer version of
    the same component.

    JavaScript values are modelled as the trees that [JSON.parse] builds;
    numbers are IEEE binary64 values ([spec_float]); functions that can
    raise an exception return a [result].  The one function that mutates
    objects, [transformGeoJSON], is modelled over an explicit store of
    arrays and objects further down, and so is the handler of the fetch
    that calls it. *)

From Stdlib Require Import ZArith Lia Ascii String.
From Stdlib Require Import SpecFloat DecimalString DecimalPos.
From stdpp Require Import base list strings.

Local Open Scope string_scope.

(** ** Numbers *)

(** A JavaScript number is a binary64 floating-point value. *)
Definition number : Type := spec_float.

Definition num_of_Z (z : Z) : number := binary_normalize 53 1024 z 0 false.

Definition NaN : number := S754_nan.

(** The double nearest to the literal [0.7]. *)
Definition num_0_7 : number := S754_finite false 6305039478318694 (-53).

Global Instance number_eq_dec : EqDecision number.
Proof. solve_decision. Defined.

(** [+0], [-0] and [NaN] are the falsy numbers. *)
Definition number_falsy (n : number) : bool :=
  match n with
  | S754_zero _ | S754_nan => true
  | _ => false
  end.

(** The integer denoted by mantissa [m] and exponent [e], when [m * 2^e] is
    an integer no larger than [2^53]: up to there the decimal expansion of
    the integer is what [Number::toString] prints. *)
Definition safe_integer (m : positive) (e : Z) : option Z :=
  let z :=
    if (0 <=? e)%Z then Some (Z.pos m * 2 ^ e)%Z
    else if (Z.pos m mod 2 ^ (- e) =? 0)%Z then Some (Z.pos m / 2 ^ (- e))%Z
    else None in
  match z with
  | Some z => if (z <=? 2 ^ 53)%Z then Some z else None
  | None => None
  end.

Definition decimal_digits (z : Z) : string :=
  NilEmpty.string_of_uint (Pos.to_uint (Z.to_pos z)).

(** ** Exceptions *)

Inductive error := TypeError | SyntaxError | RangeError.

Inductive result (A : Type) : Type :=
| Ok (a : A)
| Throw (e : error).
Arguments Ok {A} a.
Arguments Throw {A} e.

Global Instance result_ret : MRet result := fun _ a => Ok a.
Global Instance result_bind : MBind result := fun _ _ f m =>
  match m with
  | Ok a => f a
  | Throw e => Throw e
  end.
Global Instance result_fmap : FMap result := fun _ _ f m =>
  match m with
  | Ok a => Ok (f a)
  | Throw e => Throw e
  end.

Definition returns {A} (m : result A) : Prop := exists a, m = Ok a.

(** ** Values *)

Local Unset Elimination Schemes.
Inductive value :=
| VUndef
| VNull
| VBool (b : bool)
| VNum (n : number)
| VStr (s : string)
| VArr (elts : list value)
| VObj (props : list (string * value)).
Local Set Elimination Schemes.

(** Induction over values, with the hypothesis available for every element
    of an array and every property of an object. *)
Section value_induction.
Variable P : value -> Prop.
Hypothesis Hundef : P VUndef.
Hypothesis Hnull : P VNull.
Hypothesis Hbool : forall b, P (VBool b).
Hypothesis Hnum : forall n, P (VNum n).
Hypothesis Hstr : forall s, P (VStr s).
Hypothesis Harr : forall elts, Forall P elts -> P (VArr elts).
Hypothesis Hobj : forall props, Forall (fun kv => P kv.2) props -> P (VObj props).

Fixpoint value_nested_ind (v : value) : P v :=
  match v with
  | VUndef => Hundef
  | VNull => Hnull
  | VBool b => Hbool b
  | VNum n => Hnum n
  | VStr s => Hstr s
  | VArr elts =>
      Harr elts ((fix go (l : list value) : Forall P l :=
                    match l with
                    | [] => @List.Forall_nil _ P
                    | x :: r => @List.Forall_cons _ P x r (value_nested_ind x) (go r)
                    end) elts)
  | VObj props =>
      Hobj props ((fix go (l : list (string * value)) : Forall (fun kv => P kv.2) l :=
                     match l with
                     | [] => @List.Forall_nil _ _
                     | kv :: r => @List.Forall_cons _ (fun kv => P kv.2) kv r (value_nested_ind kv.2) (go r)
                     end) props)
  end.
End value_induction.

(** Own-property lookup in a property list. *)
Fixpoint assoc {V} (k : string) (ps : list (string * V)) : option V :=
  match ps with
  | [] => None
  | (k', v) :: rest => if String.eqb k k' then Some v else assoc k rest
  end.

Fixpoint remove_key {V} (k : string) (ps : list (string * V)) : list (string * V) :=
  match ps with
  | [] => []
  | (k', v) :: rest =>
      if String.eqb k k' then remove_key k rest else (k', v) :: remove_key k rest
  end.

Definition truthy (v : value) : bool :=
  match v with
  | VUndef | VNull => false
  | VBool b => b
  | VNum n => negb (number_falsy n)
  | VStr s => negb (String.eqb s "")
  | VArr _ | VObj _ => true
  end.

(** [a || b]; the right operand is evaluated only when needed. *)
Definition js_or (a : value) (b : result value) : result value :=
  if truthy a then Ok a else b.

(** [a ?? b] *)
Definition nullish (a b : value) : value :=
  match a with
  | VUndef | VNull => b
  | _ => a
  end.

(** [v.k] for a key [k] that no built-in prototype defines, which is the
    case of every literal key of the component ([properties], [Cluster],
    [" cl name"], [Milestone], [LITHCODE], [UNIT]): the own property of an
    object, [undefined] on any other value, a [TypeError] on [null] and
    [undefined]. *)
Definition get (v : value) (k : string) : result value :=
  match v with
  | VUndef | VNull => Throw TypeError
  | VObj props => Ok (default VUndef (assoc k props))
  | _ => Ok VUndef
  end.

(** [v?.k] *)
Definition get_opt (v : value) (k : string) : result value :=
  match v with
  | VUndef | VNull => Ok VUndef
  | _ => get v k
  end.

(** ** Built-in conversions *)

(** The two directions of the number/string conversion are the language's
    own algorithms; they are taken as given.  [Number_toString_general]
    prints the numbers that are not integers of magnitude at most [2^53]. *)
Class NumberConversions := {
  StringToNumber : string -> number;
  Number_toString_general : number -> string
}.

Section Conversions.
Context `{NumberConversions}.

(** [Number::toString] *)
Definition Number_toString (x : number) : string :=
  match x with
  | S754_nan => "NaN"
  | S754_zero _ => "0"
  | S754_infinity false => "Infinity"
  | S754_infinity true => "-Infinity"
  | S754_finite s m e =>
      match safe_integer m e with
      | Some z => (if s then "-" else "") +:+ decimal_digits z
      | None => Number_toString_general x
      end
  end.

(** [ToString].  An array is joined with commas, [null] and [undefined]
    elements printing as the empty string.  An object parsed from JSON
    prints as ["[object Object]"] unless it has an own [toString]
    property, which is then not callable and makes the conversion raise
    a [TypeError]. *)
Fixpoint ToString (v : value) : result string :=
  match v with
  | VUndef => Ok "undefined"
  | VNull => Ok "null"
  | VBool true => Ok "true"
  | VBool false => Ok "false"
  | VNum n => Ok (Number_toString n)
  | VStr s => Ok s
  | VArr elts =>
      (fix join (l : list value) : result string :=
         match l with
         | [] => Ok ""
         | x :: rest =>
             s ← match x with
                 | VUndef | VNull => Ok ""
                 | _ => ToString x
                 end;
             match rest with
             | [] => Ok s
             | _ => r ← join rest; Ok (s +:+ "," +:+ r)
             end
         end) elts
  | VObj props =>
      match assoc "toString" props with
      | Some _ => Throw TypeError
      | None => Ok "[object Object]"
      end
  end.

(** [Number(v)] *)
Definition ToNumber (v : value) : result number :=
  match v with
  | VUndef => Ok NaN
  | VNull => Ok (num_of_Z 0)
  | VBool true => Ok (num_of_Z 1)
  | VBool false => Ok (num_of_Z 0)
  | VNum n => Ok n
  | VStr s => Ok (StringToNumber s)
  | VArr _ | VObj _ => s ← ToString v; Ok (StringToNumber s)
  end.

(** The key under which [obj[v]] looks. *)
Definition ToPropertyKey (v : value) : result string := ToString v.
End Conversions.

(** ** Lookup tables *)

Record StyleRule := { label : string; color : string }.

Definition milestoneColors : list (string * StyleRule) :=
  [ ("0", {| label := "Unopened"; color := "#BCCFB4" |});
    ("1", {| label := "Milestone 1"; color := "#69A761" |});
    ("2", {| label := "Milestone 2"; color := "#27823B" |});
    ("3", {| label := "Milestone 3"; color := "#09622A" |}) ].

Definition geologicalColors : list (string * StyleRule) :=
  [ ("MC", {| label := "Metamorphic complex"; color := "#E63946" |});
    ("GR", {| label := "Granite"; color := "#F77F00" |});
    ("SED", {| label := "Sedimentary"; color := "#FCBF49" |});
    ("VOL", {| label := "Volcanic"; color := "#06A77D" |});
    ("default", {| label := "Other"; color := "#118AB2" |}) ].

(** The tables are object literals, so a lookup under a computed key also
    sees what they inherit from [Object.prototype]. *)
Definition Object_prototype_names : list string :=
  [ "constructor"; "hasOwnProperty"; "isPrototypeOf"; "propertyIsEnumerable";
    "toLocaleString"; "toString"; "valueOf"; "__proto__";
    "__defineGetter__"; "__defineSetter__"; "__lookupGetter__";
    "__lookupSetter__" ].

Inductive slot :=
| Own (r : StyleRule)
| Inherited
| Absent.

(** [table[key]] *)
Definition table_get (table : list (string * StyleRule)) (key : string) : slot :=
  match assoc key table with
  | Some r => Own r
  | None =>
      if bool_decide (key ∈ Object_prototype_names) then Inherited else Absent
  end.

(** [slot?.color] and [slot?.label]: the inherited members are functions
    (or, for [__proto__], the prototype object), which have neither
    property. *)
Definition color_opt (s : slot) : value :=
  match s with
  | Own r => VStr (color r)
  | Inherited | Absent => VUndef
  end.

Definition label_opt (s : slot) : value :=
  match s with
  | Own r => VStr (label r)
  | Inherited | Absent => VUndef
  end.

(** [slot.color] *)
Definition color_of (s : slot) : result value :=
  match s with
  | Own r => Ok (VStr (color r))
  | Inherited => Ok VUndef
  | Absent => Throw TypeError
  end.

(** ** Feature classifier *)

(** The feature whose property bag is [props]. *)
Definition feature_of (props : list (string * value)) : value :=
  VObj [("properties", VObj props)].

Definition getProps (feature : value) : result value :=
  p ← get_opt feature "properties";
  js_or p (Ok (VObj [])).

Definition getClusterName (feature : value) : result value :=
  props ← getProps feature;
  c ← get props "Cluster";
  js_or c (a ← get props " cl name"; js_or a (Ok (VStr "Unknown"))).

Definition getLithCode (feature : value) : result value :=
  props ← getProps feature;
  c ← get props "LITHCODE";
  js_or c (Ok (VStr "default")).

Definition getGeologicalUnit (feature : value) : result value :=
  props ← getProps feature;
  u ← get props "UNIT";
  js_or u (Ok (VStr "Unknown")).

(** The object a style function returns. *)
Record Style := {
  style_color : value;
  style_fillColor : value;
  style_weight : value;
  style_fillOpacity : value
}.

Section Classifier.
Context `{NumberConversions}.

Definition getMilestone (feature : value) : result number :=
  props ← getProps feature;
  m ← get props "Milestone";
  ToNumber (nullish m (VNum (num_of_Z 0))).

(** ** Style resolver *)

Definition geojsonColors (feature : value) : result Style :=
  milestone ← getMilestone feature;
  fill ← js_or (color_opt (table_get milestoneColors (Number_toString milestone)))
               (Ok (VStr "#374151"));
  Ok {| style_color := VStr "#000";
        style_fillColor := fill;
        style_weight := VNum (num_of_Z 2);
        style_fillOpacity := VNum num_0_7 |}.

Definition geologicalLayerColors (feature : value) : result Style :=
  lithCode ← getLithCode feature;
  key ← ToPropertyKey lithCode;
  fill ← js_or (color_opt (table_get geologicalColors key))
               (color_of (table_get geologicalColors "default"));
  Ok {| style_color := VStr "#000";
        style_fillColor := fill;
        style_weight := VNum (num_of_Z 2);
        style_fillOpacity := VNum num_0_7 |}.

(** The label shown in a cluster's tooltip ([milestoneLabel] in
    [onEachFeature]). *)
Definition milestoneLabel (feature : value) : result value :=
  milestone ← getMilestone feature;
  js_or (label_opt (table_get milestoneColors (Number_toString milestone)))
        (Ok (VStr "Unknown")).
End Classifier.

(** ** An instance for integer data

    A stand-in for the two conversions, to run the component on data whose
    numbers are integers.  It agrees with the language on the empty string,
    on optionally signed runs of decimal digits and on strings that denote
    no number; it takes every other string for [NaN] and prints a number
    outside the integers up to [2^53] by its mantissa and exponent. *)

Definition integer_literal (s : string) : option Z :=
  match s with
  | String "-"%char digits =>
      match digits with
      | "" => None
      | _ => (fun u => (- Z.of_uint u)%Z) <$> NilEmpty.uint_of_string digits
      end
  | String "+"%char digits =>
      match digits with
      | "" => None
      | _ => Z.of_uint <$> NilEmpty.uint_of_string digits
      end
  | _ => Z.of_uint <$> NilEmpty.uint_of_string s
  end.

Definition mantissa_exponent (x : number) : string :=
  match x with
  | S754_finite s m e =>
      (if s then "-" else "") +:+ decimal_digits (Z.pos m) +:+ "p"
      +:+ (if (e <? 0)%Z then "-" else "+") +:+
      (if (e =? 0)%Z then "0" else decimal_digits (Z.abs e))
  | _ => "NaN"
  end.

Definition integer_conversions : NumberConversions :=
  {| StringToNumber s :=
       match integer_literal s with
       | Some z => num_of_Z z
       | None => NaN
       end;
     Number_toString_general := mantissa_exponent |}.

(** ** Coordinate reprojector *)

(** [proj4("EPSG:32733", "EPSG:4326", coords)] for an array [coords]: the
    projection library is not part of the component.  It receives the
    elements of the array and either raises or returns a new array. *)
Class Projection := {
  proj4 : list value -> result (list value)
}.

Section Reprojector.
Context `{Projection}.

(** [coords.map(f)] *)
Definition array_map (f : value -> result value) : list value -> result (list value) :=
  fix go (l : list value) : result (list value) :=
    match l with
    | [] => Ok []
    | x :: rest => y ← f x; ys ← go rest; Ok (y :: ys)
    end.

(** On an array whose first element is a number the result of [proj4] is
    destructured into its first two elements; any other array is mapped.
    A value that is not an array ends in a [TypeError]: [null] and
    [undefined] have no element [0], a string, a number and a boolean have
    no [map] method, and neither has an object, unless its property [0] is
    a number, and then what [proj4] makes of an object does not
    destructure. *)
Fixpoint transformCoordinates (coords : value) : result value :=
  match coords with
  | VArr elts =>
      match elts with
      | VNum _ :: _ =>
          r ← proj4 elts;
          let lon := default VUndef (r !! 0%nat) in
          let lat := default VUndef (r !! 1%nat) in
          Ok (VArr [lon; lat])
      | _ => VArr <$> array_map transformCoordinates elts
      end
  | _ => Throw TypeError
  end.
End Reprojector.

(** *** Valid coordinate structures

    The coordinates of a GeoJSON geometry: a position, which is a pair of
    two numbers, or an array of coordinate structures (a ring, a polygon,
    a multi-polygon). *)

Local Unset Elimination Schemes.
Inductive geometry_coords :=
| Position (x y : number)
| Nested (children : list geometry_coords).
Local Set Elimination Schemes.

Section geometry_coords_induction.
Variable P : geometry_coords -> Prop.
Hypothesis Hposition : forall x y, P (Position x y).
Hypothesis Hnested : forall children, Forall P children -> P (Nested children).

Fixpoint geometry_coords_nested_ind (c : geometry_coords) : P c :=
  match c with
  | Position x y => Hposition x y
  | Nested children =>
      Hnested children
        ((fix go (l : list geometry_coords) : Forall P l :=
            match l with
            | [] => @List.Forall_nil _ P
            | x :: r => @List.Forall_cons _ P x r (geometry_coords_nested_ind x) (go r)
            end) children)
  end.
End geometry_coords_induction.

Fixpoint coords_value (c : geometry_coords) : value :=
  match c with
  | Position x y => VArr [VNum x; VNum y]
  | Nested children => VArr (map coords_value children)
  end.

(** The positions of a structure, left to right. *)
Fixpoint positions (c : geometry_coords) : list (number * number) :=
  match c with
  | Position x y => [(x, y)]
  | Nested children => concat (map positions children)
  end.

(** [projected c v]: the value [v] has the nesting of [c], array for array
    with the children in the same order, and in place of each position the
    pair that the projection makes of that position. *)
Local Unset Elimination Schemes.
Inductive projected `{Projection} : geometry_coords -> value -> Prop :=
| projected_position x y r :
    proj4 [VNum x; VNum y] = Ok r ->
    projected (Position x y)
              (VArr [default VUndef (r !! 0%nat); default VUndef (r !! 1%nat)])
| projected_nested children values :
    Forall2 projected children values ->
    projected (Nested children) (VArr values).
Local Set Elimination Schemes.

(** [same_nesting v r]: [r] has the nesting of [v], for any [v] at all: an
    array headed by a number, of whatever length, against an array of two
    elements, and any other array against an array of as many elements,
    element by element. *)
Local Unset Elimination Schemes.
Inductive same_nesting : value -> value -> Prop :=
| same_nesting_position n rest lon lat :
    same_nesting (VArr (VNum n :: rest)) (VArr [lon; lat])
| same_nesting_array elts values :
    (forall n rest, elts <> VNum n :: rest) ->
    Forall2 same_nesting elts values ->
    same_nesting (VArr elts) (VArr values).
Local Set Elimination Schemes.

Section FirstFailure.
Context `{Projection}.

(** The error of the first position, left to right, on which the
    projection raises. *)
Fixpoint first_failure (ps : list (number * number)) : option error :=
  match ps with
  | [] => None
  | (x, y) :: rest =>
      match proj4 [VNum x; VNum y] with
      | Throw e => Some e
      | Ok _ => first_failure rest
      end
  end.
End FirstFailure.

(** ** The store

    [transformGeoJSON] assigns to a property of an object, so it is modelled
    over a store in which arrays and objects live at locations and values
    refer to them.  A location is an index in the store and allocation
    appends. *)

Abbreviation loc := nat.

Inductive ref_value :=
| RUndef
| RNull
| RBool (b : bool)
| RNum (n : number)
| RStr (s : string)
| RRef (l : loc).

Inductive cell :=
| CArr (elts : list ref_value)
| CObj (props : list (string * ref_value)).

Abbreviation store := (list cell).

(** A computation reads and writes the store and returns or raises. *)
Definition Run (A : Type) : Type := store -> store * result A.

Definition run_ret {A} (a : A) : Run A := fun σ => (σ, Ok a).

Definition run_throw {A} (e : error) : Run A := fun σ => (σ, Throw e).

Definition run_bind {A B} (m : Run A) (k : A -> Run B) : Run B := fun σ =>
  match m σ with
  | (σ', Ok a) => k a σ'
  | (σ', Throw e) => (σ', Throw e)
  end.

Notation "'do' x <- m ; k" := (run_bind m (fun x => k))
  (at level 10, x name, m at level 100, k at level 200).

Definition ref_truthy (v : ref_value) : bool :=
  match v with
  | RUndef | RNull => false
  | RBool b => b
  | RNum n => negb (number_falsy n)
  | RStr s => negb (String.eqb s "")
  | RRef _ => true
  end.

(** A reference of a real run always points into the store; the model
    answers a dangling one with a [TypeError]. *)
Definition load (l : loc) : Run cell := fun σ =>
  match σ !! l with
  | Some c => (σ, Ok c)
  | None => (σ, Throw TypeError)
  end.

(** [v.k], for the keys [features], [geometry] and [coordinates], which no
    prototype defines. *)
Definition ref_get (v : ref_value) (k : string) : Run ref_value :=
  match v with
  | RUndef | RNull => run_throw TypeError
  | RRef l =>
      do c <- load l;
      match c with
      | CObj props => run_ret (default RUndef (assoc k props))
      | CArr _ => run_ret RUndef
      end
  | _ => run_ret RUndef
  end.

(** The property list after [obj.k = x]: an existing property keeps its
    place, a new one comes last. *)
Fixpoint set_prop {V} (k : string) (x : V) (ps : list (string * V)) : list (string * V) :=
  match ps with
  | [] => [(k, x)]
  | (k', v) :: rest =>
      if String.eqb k k' then (k', x) :: rest else (k', v) :: set_prop k x rest
  end.

(** [v.k = x].  The component only assigns to a property it has just read
    as truthy, which makes [v] an object; the other cases do not arise,
    and the model raises a [TypeError] there. *)
Definition ref_set (v : ref_value) (k : string) (x : ref_value) : Run unit :=
  match v with
  | RRef l =>
      do c <- load l;
      match c with
      | CObj props => fun σ => (<[l := CObj (set_prop k x props)]> σ, Ok tt)
      | CArr _ => run_throw TypeError
      end
  | _ => run_throw TypeError
  end.

(** The tree that a value denotes in a store, followed to depth [fuel]. *)
Fixpoint read (fuel : nat) (σ : store) (v : ref_value) : option value :=
  match v with
  | RUndef => Some VUndef
  | RNull => Some VNull
  | RBool b => Some (VBool b)
  | RNum n => Some (VNum n)
  | RStr s => Some (VStr s)
  | RRef l =>
      match fuel with
      | O => None
      | S fuel' =>
          match σ !! l with
          | None => None
          | Some (CArr elts) => VArr <$> mapM (read fuel' σ) elts
          | Some (CObj props) =>
              VObj <$> mapM (fun kv => pair kv.1 <$> read fuel' σ kv.2) props
          end
      end
  end.

(** A chain of nested references without a cycle visits each cell at most
    once, so reading with as much fuel as the store has cells fails only
    on a dangling reference or a cycle. *)
Definition read_tree (σ : store) (v : ref_value) : option value :=
  read (length σ) σ v.

(** Allocate a tree: one new cell for each array and object, the cells of
    the children first. *)
Definition build_elts (build : value -> store -> store * ref_value)
  : list value -> store -> store * list ref_value :=
  fix go (l : list value) (σ : store) : store * list ref_value :=
    match l with
    | [] => (σ, [])
    | x :: rest =>
        let '(σ1, v) := build x σ in
        let '(σ2, vs) := go rest σ1 in
        (σ2, v :: vs)
    end.

Definition build_props (build : value -> store -> store * ref_value)
  : list (string * value) -> store -> store * list (string * ref_value) :=
  fix go (l : list (string * value)) (σ : store)
    : store * list (string * ref_value) :=
    match l with
    | [] => (σ, [])
    | (k, x) :: rest =>
        let '(σ1, v) := build x σ in
        let '(σ2, ps) := go rest σ1 in
        (σ2, (k, v) :: ps)
    end.

Fixpoint build (t : value) (σ : store) : store * ref_value :=
  match t with
  | VUndef => (σ, RUndef)
  | VNull => (σ, RNull)
  | VBool b => (σ, RBool b)
  | VNum n => (σ, RNum n)
  | VStr s => (σ, RStr s)
  | VArr elts =>
      let '(σ', vs) := build_elts build elts σ in
      (app σ' [CArr vs], RRef (length σ'))
  | VObj props =>
      let '(σ', ps) := build_props build props σ in
      (app σ' [CObj ps], RRef (length σ'))
  end.

(** What [JSON.stringify] writes for a value inside a document: a number
    that is not finite becomes [null], [-0] becomes [0], an [undefined]
    array element becomes [null] and an [undefined] property is left out. *)
Fixpoint json_value (v : value) : value :=
  match v with
  | VUndef => VNull
  | VNum (S754_zero _) => VNum (S754_zero false)
  | VNum (S754_finite s m e) => VNum (S754_finite s m e)
  | VNum _ => VNull
  | VArr elts => VArr (map json_value elts)
  | VObj props =>
      VObj ((fix go (l : list (string * value)) : list (string * value) :=
               match l with
               | [] => []
               | (k, VUndef) :: rest => go rest
               | (k, x) :: rest => (k, json_value x) :: go rest
               end) props)
  | _ => v
  end.

(** [JSON.parse(JSON.stringify(v))]: a [TypeError] on a circular
    structure; [JSON.stringify(undefined)] is [undefined], which does not
    parse. *)
Definition JSON_clone (v : ref_value) : Run ref_value := fun σ =>
  match read_tree σ v with
  | None => (σ, Throw TypeError)
  | Some VUndef => (σ, Throw SyntaxError)
  | Some t => let '(σ', r) := build (json_value t) σ in (σ', Ok r)
  end.

(** The calls of the callback, one element after the other, stopping at
    the first that raises. *)
Definition for_each (f : ref_value -> Run unit) : list ref_value -> Run unit :=
  fix go (l : list ref_value) : Run unit :=
    match l with
    | [] => run_ret tt
    | x :: rest => do _ <- f x; go rest
    end.

(** [arr.forEach(f)].  No operation of the model writes to an array after
    its allocation, so the elements read at the start are the elements the
    iteration sees.  Only an array has a [forEach] method. *)
Definition forEach (arr : ref_value) (f : ref_value -> Run unit) : Run unit :=
  match arr with
  | RRef l =>
      do c <- load l;
      match c with
      | CArr elts => for_each f elts
      | CObj _ => run_throw TypeError
      end
  | _ => run_throw TypeError
  end.

Section TransformGeoJSON.
Context `{Projection}.

(** A call of [transformCoordinates] in the store.  The function only
    reads its argument and returns arrays it has made itself, so the
    call reads the argument's tree and allocates the result's; on an
    argument that contains itself the recursion does not end and the
    call raises a [RangeError]. *)
Definition transformCoordinates_call (coords : ref_value) : Run ref_value := fun σ =>
  match read_tree σ coords with
  | None => (σ, Throw RangeError)
  | Some t =>
      match transformCoordinates t with
      | Ok t' => let '(σ', r) := build t' σ in (σ', Ok r)
      | Throw e => (σ, Throw e)
      end
  end.

(** The callback of [forEach].  [a && b] is [a] when [a] is falsy and
    [b] otherwise; each occurrence of [feature.geometry] is a read of its
    own, and the target of the assignment is evaluated before its right
    side. *)
Definition transformFeature (feature : ref_value) : Run unit :=
  do geometry <- ref_get feature "geometry";
  do guard <- (if ref_truthy geometry then
                 do geometry' <- ref_get feature "geometry";
                 ref_get geometry' "coordinates"
               else run_ret geometry);
  if ref_truthy guard then
    do target <- ref_get feature "geometry";
    do geometry' <- ref_get feature "geometry";
    do argument <- ref_get geometry' "coordinates";
    do transformed <- transformCoordinates_call argument;
    ref_set target "coordinates" transformed
  else run_ret tt.

Definition transformGeoJSON (geojson : ref_value) : Run ref_value :=
  do transformed <- JSON_clone geojson;
  do features <- ref_get transformed "features";
  do _ <- (if ref_truthy features then
             do features' <- ref_get transformed "features";
             forEach features' transformFeature
           else run_ret tt);
  run_ret transformed.
End TransformGeoJSON.

(** A stand-in for the projection, to run the model on data: it divides
    both coordinates by 100000, keeps any further elements, and raises on
    a pair that is not made of two numbers as the library's sanity check
    does. *)
Definition scaling_projection : Projection :=
  {| proj4 elts :=
       match elts with
       | VNum x :: VNum y :: rest =>
           Ok (VNum (SFdiv 53 1024 x (num_of_Z 100000))
                 :: VNum (SFdiv 53 1024 y (num_of_Z 100000)) :: rest)
       | _ => Throw TypeError
       end |}.

(** A stand-in that, like the library's sanity check, also raises on a
    coordinate that is not finite. *)
Definition finite_number (x : number) : bool :=
  match x with
  | S754_zero _ | S754_finite _ _ _ => true
  | _ => false
  end.

Definition checked_projection : Projection :=
  {| proj4 elts :=
       match elts with
       | VNum x :: VNum y :: rest =>
           if finite_number x && finite_number y
           then Ok (VNum (SFdiv 53 1024 x (num_of_Z 100000))
                      :: VNum (SFdiv 53 1024 y (num_of_Z 100000)) :: rest)
           else Throw TypeError
       | _ => Throw TypeError
       end |}.

(** *** Frames

    What it takes for a computation to leave the first [n] cells of the
    store alone: it runs in a store whose cells from [n] on refer only to
    cells from [n] on, keeps that, leaves every cell below [n] as it is,
    and returns a value satisfying [P]. *)

Definition cell_refs (c : cell) : list ref_value :=
  match c with
  | CArr elts => elts
  | CObj props => map snd props
  end.

(** The locations a value leads to in a store. *)
Inductive reachable (σ : store) : ref_value -> loc -> Prop :=
| reachable_here l : reachable σ (RRef l) l
| reachable_step l c v l' :
    σ !! l = Some c -> v ∈ cell_refs c -> reachable σ v l' ->
    reachable σ (RRef l) l'.

Definition fresh_value (n : nat) (v : ref_value) : Prop :=
  match v with
  | RRef l => n <= l
  | _ => True
  end.

Definition closed_above (n : nat) (σ : store) : Prop :=
  forall l c, n <= l -> σ !! l = Some c -> Forall (fresh_value n) (cell_refs c).

Definition frame {A} (n : nat) (P : A -> Prop) (m : Run A) : Prop :=
  forall σ, n <= length σ -> closed_above n σ ->
    n <= length (m σ).1
    /\ (forall l, l < n -> (m σ).1 !! l = σ !! l)
    /\ closed_above n (m σ).1
    /\ (forall a, (m σ).2 = Ok a -> P a).

(** [σ'] is [σ] with cells appended that refer only to cells from [n] on:
    what the allocation of a tree does to the store. *)
Definition appends (n : nat) (σ σ' : store) : Prop :=
  exists ext,
    σ' = (σ ++ ext)%list
    /\ Forall (fun c => Forall (fresh_value n) (cell_refs c)) ext.

(** *** Trees in the store *)

(** [v] denotes the tree [t] in [σ]. *)
Definition denotes (σ : store) (v : ref_value) (t : value) : Prop :=
  exists fuel, read fuel σ v = Some t.

Definition read_prop (fuel : nat) (σ : store) (kv : string * ref_value)
  : option (string * value) :=
  pair kv.1 <$> read fuel σ kv.2.

(** [laid σ t v a b]: the tree [t] lies in the cells [a], ..., [b - 1] of
    [σ] the way [build] lays a tree out, the cells of the children one
    after the other and then the cell of the node, and [v] is its value. *)
Definition laid_elts (laid : value -> ref_value -> nat -> nat -> Prop)
  : list value -> list ref_value -> nat -> nat -> Prop :=
  fix go (ts : list value) (vs : list ref_value) (a c : nat) : Prop :=
    match ts, vs with
    | [], [] => a = c
    | t :: ts', v :: vs' => exists b, laid t v a b /\ go ts' vs' b c
    | _, _ => False
    end.

Definition laid_props (laid : value -> ref_value -> nat -> nat -> Prop)
  : list (string * value) -> list (string * ref_value) -> nat -> nat -> Prop :=
  fix go (ts : list (string * value)) (vs : list (string * ref_value))
         (a c : nat) : Prop :=
    match ts, vs with
    | [], [] => a = c
    | (k, t) :: ts', (k', v) :: vs' =>
        k = k' /\ exists b, laid t v a b /\ go ts' vs' b c
    | _, _ => False
    end.

Fixpoint laid (σ : store) (t : value) (v : ref_value) (a b : nat) : Prop :=
  match t with
  | VUndef => v = RUndef /\ a = b
  | VNull => v = RNull /\ a = b
  | VBool x => v = RBool x /\ a = b
  | VNum x => v = RNum x /\ a = b
  | VStr x => v = RStr x /\ a = b
  | VArr ts =>
      exists l vs,
        v = RRef l /\ b = S l /\ σ !! l = Some (CArr vs)
        /\ laid_elts (laid σ) ts vs a l
  | VObj ts =>
      exists l vs,
        v = RRef l /\ b = S l /\ σ !! l = Some (CObj vs)
        /\ laid_props (laid σ) ts vs a l
  end.

Definition in_range (a b : nat) (v : ref_value) : Prop :=
  match v with
  | RRef l => a <= l < b
  | _ => True
  end.

Definition in_set (S : nat -> Prop) (v : ref_value) : Prop :=
  match v with
  | RRef l => S l
  | _ => True
  end.

(** The cells of [S] refer to cells of [S] only. *)
Definition closed_set (σ : store) (S : nat -> Prop) : Prop :=
  forall l c, S l -> σ !! l = Some c -> Forall (in_set S) (cell_refs c).

(** *** What [transformGeoJSON] makes of a document, as a tree *)

(** The object [v] with its property [k] set to [x]. *)
Definition set_key (k : string) (x : value) (v : value) : value :=
  match v with
  | VObj props => VObj (set_prop k x props)
  | _ => v
  end.

Section TransformedTree.
Context `{Projection}.

(** The feature after the callback of [forEach]: with the coordinates of
    its geometry transformed when the guard of the callback holds, and as
    it was otherwise. *)
Definition transformFeature_tree (feature : value) : result value :=
  geometry ← get feature "geometry";
  guard ← (if truthy geometry then get geometry "coordinates" else Ok geometry);
  if truthy guard then
    transformed ← transformCoordinates guard;
    Ok (set_key "geometry" (set_key "coordinates" transformed geometry) feature)
  else Ok feature.

(** The document that [transformGeoJSON] returns for the document [doc]:
    the JSON round trip of [doc] with every feature replaced by what the
    callback makes of it, or the error of the first feature on which the
    callback raises. *)
Definition transformGeoJSON_tree (doc : value) : result value :=
  match doc with
  | VUndef => Throw SyntaxError
  | _ =>
      let transformed := json_value doc in
      features ← get transformed "features";
      if truthy features then
        match features with
        | VArr fs =>
            fs' ← array_map transformFeature_tree fs;
            Ok (set_key "features" (VArr fs') transformed)
        | _ => Throw TypeError
        end
      else Ok transformed
  end.
End TransformedTree.

(** What a call of the callback on the feature [v], laid in the cells
    [a], ..., [b - 1] of [σ], leaves behind when it returns: [v] denotes
    the tree [f'], the store has only grown, the cells outside the feature
    are as they were, and the cells of the feature and those from [n] on
    refer to each other only. *)
Definition feature_post (n : nat) (σ : store) (a b : nat) (v : ref_value)
    (f' : value) (σ' : store) : Prop :=
  denotes σ' v f'
  /\ length σ <= length σ'
  /\ (forall l, l < length σ -> ~ (a <= l < b) -> σ' !! l = σ !! l)
  /\ closed_above n σ'
  /\ closed_set σ' (fun l => a <= l < b \/ n <= l).

(** ** Loading the geological data

    The handler of the fetch of the geological data logs the first two
    numbers of [data.features[0].geometry.coordinates[0][0][0]], transforms
    the document, logs the same of the result and stores the result in the
    state [geologicalData]. *)

(** [v[0]]: the first element of an array, the property [0] of an object
    and the first character of a string; a number and a boolean have no
    such property.  Of the character only its being a string matters
    below. *)
Definition elem0 (v : value) : result value :=
  match v with
  | VUndef | VNull => Throw TypeError
  | VStr s =>
      Ok match s with
         | String c _ => VStr (String c EmptyString)
         | EmptyString => VUndef
         end
  | VArr elts => Ok (default VUndef (elts !! 0%nat))
  | VObj props => Ok (default VUndef (assoc "0" props))
  | _ => Ok VUndef
  end.

Definition ref_elem0 (v : ref_value) : Run ref_value :=
  match v with
  | RUndef | RNull => run_throw TypeError
  | RStr s =>
      run_ret match s with
              | String c _ => RStr (String c EmptyString)
              | EmptyString => RUndef
              end
  | RRef l =>
      do c <- load l;
      match c with
      | CArr elts => run_ret (default RUndef (elts !! 0%nat))
      | CObj props => run_ret (default RUndef (assoc "0" props))
      end
  | _ => run_ret RUndef
  end.

(** [v.slice(0, 2)]: arrays and strings have the method; on an array it
    makes a new array of the first two elements.  A number, a boolean and
    an object of a document have no [slice] that can be called. *)
Definition slice2 (v : value) : result value :=
  match v with
  | VStr s => Ok (VStr (substring 0 2 s))
  | VArr elts => Ok (VArr (take 2 elts))
  | _ => Throw TypeError
  end.

Definition ref_slice2 (v : ref_value) : Run ref_value :=
  match v with
  | RStr s => run_ret (RStr (substring 0 2 s))
  | RRef l =>
      do c <- load l;
      match c with
      | CArr elts => fun σ => (app σ [CArr (take 2 elts)], Ok (RRef (length σ)))
      | CObj _ => run_throw TypeError
      end
  | _ => run_throw TypeError
  end.

(** [data.features[0].geometry.coordinates[0][0][0].slice(0, 2)] *)
Definition sample_position_tree (data : value) : result value :=
  features ← get data "features";
  feature ← elem0 features;
  geometry ← get feature "geometry";
  coordinates ← get geometry "coordinates";
  polygon ← elem0 coordinates;
  ring ← elem0 polygon;
  position ← elem0 ring;
  slice2 position.

Definition sample_position (data : ref_value) : Run ref_value :=
  do features <- ref_get data "features";
  do feature <- ref_elem0 features;
  do geometry <- ref_get feature "geometry";
  do coordinates <- ref_get geometry "coordinates";
  do polygon <- ref_elem0 coordinates;
  do ring <- ref_elem0 polygon;
  do position <- ref_elem0 ring;
  ref_slice2 position.

Section GeologicalLoader.
Context `{Projection}.

(** The handler up to the call of [setGeologicalData], returning the
    argument of that call; [console.log] has no effect on the store. *)
Definition load_geological (data : ref_value) : Run ref_value :=
  do _ <- sample_position data;
  do transformedData <- transformGeoJSON data;
  do _ <- sample_position transformedData;
  run_ret transformedData.

(** The state [geologicalData], which starts as [null], after the
    handler: an error of the handler goes to [catch], which logs it and
    leaves the state as it is. *)
Definition geologicalData_after (data : ref_value) (σ : store)
  : store * option ref_value :=
  match load_geological data σ with
  | (σ', Ok transformedData) => (σ', Some transformedData)
  | (σ', Throw _) => (σ', None)
  end.

(** The handler on the document as a tree. *)
Definition load_geological_tree (doc : value) : result value :=
  _ ← sample_position_tree doc;
  transformedData ← transformGeoJSON_tree doc;
  _ ← sample_position_tree transformedData;
  Ok transformedData.
End GeologicalLoader.

(** How deep the first position of a coordinate structure lies: 1 for a
    position, 2 for a line, 3 for a polygon, 4 for a multi-polygon. *)
Fixpoint first_depth (c : geometry_coords) : nat :=
  match c with
  | Position _ _ => 1
  | Nested [] => 1
  | Nested (child :: _) => S (first_depth child)
  end.

(** A small document to run the model on: one polygon feature and one
    feature without geometry. *)
Definition sample_document : value :=
  VObj [("type", VStr "FeatureCollection");
        ("features",
         VArr [VObj [("properties", VObj [("LITHCODE", VStr "MC")]);
                     ("geometry",
                      VObj [("type", VStr "Polygon");
                            ("coordinates",
                             VArr [VArr [VArr [VNum (num_of_Z 500000);
                                               VNum (num_of_Z 7000000)];
                                         VArr [VNum (num_of_Z 600000);
                                               VNum (num_of_Z 7100000)]]])])];
               VObj [("properties", VNull); ("geometry", VNull)]])].

(** A document whose only feature is a multi-polygon. *)
Definition sample_multipolygon : value :=
  VObj [("type", VStr "FeatureCollection");
        ("features",
         VArr [VObj [("properties", VObj [("LITHCODE", VStr "GR")]);
                     ("geometry",
                      VObj [("type", VStr "MultiPolygon");
                            ("coordinates",
                             VArr [VArr [VArr [VArr [VNum (num_of_Z 500000);
                                                     VNum (num_of_Z 7000000)];
                                               VArr [VNum (num_of_Z 600000);
                                                     VNum (num_of_Z 7100000)]]]])])]])].

(** ** Legend

    The legend effect of the component, over the part of React and Leaflet
    it relies on: the state [activeLayer], the ref to the map, the legend
    controls attached to the map, and the cleanup function the last run of
    the effect returned. *)

Inductive Layer := clusters | geological.

Global Instance Layer_eq_dec : EqDecision Layer.
Proof. solve_decision. Defined.

(** [Object.values(table)]: both tables list their keys in property order
    (the integer keys of [milestoneColors] ascending), so the values come
    in the order of the literal. *)
Definition Object_values (table : list (string * StyleRule)) : list StyleRule :=
  map snd table.

(** What a legend shows: its heading and one row, a colour swatch and a
    label, for each value of the table. *)
Record Legend := { heading : string; rows : list StyleRule }.

(** [legend.onAdd], which tests [activeLayer === "clusters"]. *)
Definition onAdd (activeLayer : Layer) : Legend :=
  match activeLayer with
  | clusters =>
      {| heading := "Milestones"; rows := Object_values milestoneColors |}
  | geological =>
      {| heading := "Geology"; rows := Object_values geologicalColors |}
  end.

(** [mapRef] is [None] while [mapRef.current] is not set, and otherwise
    holds the legend controls attached to the map, each with the identity
    of its control object. *)
Record Component := {
  activeLayer : Layer;
  mapRef : option (list (nat * Legend));
  cleanup : option nat;
  next_control : nat
}.

(** [legend.remove()] *)
Definition remove_control (id : nat) (controls : list (nat * Legend)) : list (nat * Legend) :=
  filter (fun c => c.1 <> id) controls.

(** The cleanup function of the previous run of the effect, if it returned
    one. *)
Definition run_cleanup (s : Component) : Component :=
  match cleanup s with
  | None => s
  | Some id =>
      {| activeLayer := activeLayer s;
         mapRef := remove_control id <$> mapRef s;
         cleanup := None;
         next_control := next_control s |}
  end.

(** The body of the effect: nothing without a map; otherwise a new control
    is created, added to the map, and its removal returned as cleanup. *)
Definition legend_effect (s : Component) : Component :=
  match mapRef s with
  | None =>
      {| activeLayer := activeLayer s; mapRef := None; cleanup := None;
         next_control := next_control s |}
  | Some controls =>
      let id := next_control s in
      {| activeLayer := activeLayer s;
         mapRef := Some (app controls [(id, onAdd (activeLayer s))]);
         cleanup := Some id;
         next_control := S id |}
  end.

(** A render of the component.  [milestoneColors], a dependency of the
    effect, is a new object at every render, so every render runs the
    cleanup of the previous effect and then the effect. *)
Definition render (s : Component) : Component := legend_effect (run_cleanup s).

(** [setActiveLayer(l)]: React does not render when the state is set to
    the value it has. *)
Definition with_layer (l : Layer) (s : Component) : Component :=
  {| activeLayer := l; mapRef := mapRef s; cleanup := cleanup s;
     next_control := next_control s |}.

Definition setActiveLayer (l : Layer) (s : Component) : Component :=
  if decide (l = activeLayer s) then s else render (with_layer l s).

Inductive event :=
| Click (l : Layer)
| Rerender
| MapCreated.

Definition step (e : event) (s : Component) : Component :=
  match e with
  | Click l => setActiveLayer l s
  | Rerender => render s
  | MapCreated =>
      match mapRef s with
      | None =>
          {| activeLayer := activeLayer s; mapRef := Some []; cleanup := cleanup s;
             next_control := next_control s |}
      | Some _ => s
      end
  end.

Definition run_events (es : list event) (s : Component) : Component :=
  foldl (fun s e => step e s) s es.

(** The component after its first render: the state starts as
    ["clusters"] and the map does not exist yet. *)
Definition mounted : Component :=
  render {| activeLayer := clusters; mapRef := None; cleanup := None;
            next_control := 0 |}.

Definition other_layer (l : Layer) : Layer :=
  match l with
  | clusters => geological
  | geological => clusters
  end.

(** Exactly one legend is attached, it shows the table of the active
    layer, and it is the one the pending cleanup removes. *)
Definition legend_attached (s : Component) : Prop :=
  exists id,
    mapRef s = Some [(id, onAdd (activeLayer s))] /\ cleanup s = Some id.

(** From the first render on, the map carries no legend until it exists
    and a render has run, and one legend from then on: never two. *)
Definition legend_invariant (s : Component) : Prop :=
  (mapRef s = None /\ cleanup s = None)
  \/ (mapRef s = Some [] /\ cleanup s = None)
  \/ legend_attached s.

(** The table of a layer. *)
Definition layer_table (l : Layer) : list (string * StyleRule) :=
  match l with
  | clusters => milestoneColors
  | geological => geologicalColors
  end.

(** ** Interaction

    The handlers that [onEachFeature] and [onEachGeologicalFeature] register
    on the layer of a feature, over the part of Leaflet they rely on: a
    path holds its style options, [setStyle] writes the given options over
    them, and an event runs the handler registered under its name, if there
    is one.  The layer starts with the options its style function gives. *)

Definition style_options (s : Style) : list (string * value) :=
  [ ("color", style_color s); ("fillColor", style_fillColor s);
    ("weight", style_weight s); ("fillOpacity", style_fillOpacity s) ].

(** [layer.setStyle(options)] *)
Definition setStyle (options : list (string * value)) (current : Style) : Style :=
  {| style_color := default (style_color current) (assoc "color" options);
     style_fillColor := default (style_fillColor current) (assoc "fillColor" options);
     style_weight := default (style_weight current) (assoc "weight" options);
     style_fillOpacity := default (style_fillOpacity current) (assoc "fillOpacity" options) |}.

Definition handler : Type := Style -> result Style.

(** The three handlers of a layer, given its style function.  The click
    handler fits the view of the map to the layer and leaves the style
    alone. *)
Definition hover_handlers (over : string) (style : value -> result Style)
    (feature : value) : list (string * handler) :=
  [ (over, fun current => Ok (setStyle [("weight", VNum (num_of_Z 3))] current));
    ("mouseout", fun current =>
                   s ← style feature; Ok (setStyle (style_options s) current));
    ("click", fun current => Ok current) ].

Section Interaction.
Context `{NumberConversions}.

(** [layer.on({...})] in [onEachFeature] *)
Definition cluster_handlers : value -> list (string * handler) :=
  hover_handlers "mouseover" geojsonColors.

(** [layer.on({...})] in [onEachGeologicalFeature] *)
Definition geological_handlers : value -> list (string * handler) :=
  hover_handlers "mouseover" geologicalLayerColors.
End Interaction.

(** An event on the layer. *)
Definition fire (handlers : list (string * handler)) (name : string)
    (current : Style) : result Style :=
  match assoc name handlers with
  | Some h => h current
  | None => Ok current
  end.

Fixpoint fire_all (handlers : list (string * handler)) (names : list string)
    (current : Style) : result Style :=
  match names with
  | [] => Ok current
  | name :: rest => next ← fire handlers name current; fire_all handlers rest next
  end.

(** A value that is neither an array nor an object. *)
Definition primitive (v : value) : bool :=
  match v with
  | VArr _ | VObj _ => false
  | _ => true
  end.

(** The fill colour that the table gives a non-zero integer milestone, by
    its sign and magnitude. *)
Definition integer_fill (negative : bool) (z : Z) : string :=
  if negative then "#374151"
  else if (z =? 1)%Z then "#69A761"
  else if (z =? 2)%Z then "#27823B"
  else if (z =? 3)%Z then "#09622A"
  else "#374151".

(** ** The earlier, single-layer version of the component *)

Module Legacy.
Section Classifier.
Context `{NumberConversions}.

Definition geojsonColors (feature : value) : result Style :=
  milestone ← getMilestone feature;
  fill ← js_or (color_opt (table_get milestoneColors (Number_toString milestone)))
               (Ok (VStr "374151"));
  Ok {| style_color := VStr "#000";
        style_fillColor := fill;
        style_weight := VNum (num_of_Z 2);
        style_fillOpacity := VNum (num_of_Z 1) |}.

(** [layer.on({...})] of this version, which registers its first handler
    under the name [mouserover]. *)
Definition cluster_handlers : value -> list (string * handler) :=
  hover_handlers "mouserover" geojsonColors.
End Classifier.
End Legacy.

(** * Properties *)

(** ** Classifier and style resolver *)

Lemma getProps_feature_of props : getProps (feature_of props) = Ok (VObj props).
Proof. reflexivity. Qed.

(** [getProps] never raises, and what it returns can be read from. *)
Lemma getProps_total feature :
  exists p, getProps feature = Ok p /\ forall k, returns (get p k).
Proof.
  unfold getProps.
  assert (Hopt : exists q, get_opt feature "properties" = Ok q)
    by (destruct feature; simpl; eauto).
  destruct Hopt as [q ->]. simpl. unfold js_or.
  destruct (truthy q) eqn:Hq.
  - exists q. split; [done|]. intros k.
    destruct q; simpl in *; try discriminate; by eexists.
  - exists (VObj []). split; [done|]. intros k. by eexists.
Qed.

Lemma getProps_missing feature bag :
  get_opt feature "properties" = Ok bag -> truthy bag = false ->
  getProps feature = Ok (VObj []).
Proof. intros Hb Ht. unfold getProps. rewrite Hb. simpl. unfold js_or. by rewrite Ht. Qed.

Lemma js_or_truthy a b : truthy a = true -> js_or a b = Ok a.
Proof. intros Ht. unfold js_or. by rewrite Ht. Qed.

Lemma js_or_falsy a b : truthy a = false -> js_or a b = b.
Proof. intros Ht. unfold js_or. by rewrite Ht. Qed.

Lemma js_or_returns a b : returns b -> returns (js_or a b).
Proof. intros Hb. unfold js_or. destruct (truthy a); [by eexists | done]. Qed.

Lemma assoc_remove_key {V} k (ps : list (string * V)) : assoc k (remove_key k ps) = None.
Proof.
  induction ps as [|[k' v] ps IH]; simpl; [done|].
  destruct (String.eqb k k') eqn:E; simpl; [done|]. by rewrite E.
Qed.

Lemma assoc_remove_key_ne {V} k k' (ps : list (string * V)) :
  k <> k' -> assoc k' (remove_key k ps) = assoc k' ps.
Proof.
  intros Hne. induction ps as [|[k0 v] ps IH]; simpl; [done|].
  destruct (String.eqb_spec k k0) as [->|Hk].
  - destruct (String.eqb_spec k' k0) as [->|_]; [done | apply IH].
  - simpl. destruct (String.eqb k' k0); [done | apply IH].
Qed.

(** Case analysis on a comparison of [key] with a literal. *)
Ltac string_case key :=
  match goal with
  | |- context [String.eqb key ?k] => destruct (String.eqb_spec key k); try done
  end.

(** Every colour and label of the two tables is a non-empty string, so a
    table hit is never overridden by the default after [||]. *)
Lemma milestone_fill key d :
  js_or (color_opt (table_get milestoneColors key)) (Ok (VStr d))
  = Ok (VStr (from_option color d (assoc key milestoneColors))).
Proof.
  unfold table_get. destruct (assoc key milestoneColors) as [r|] eqn:E; simpl.
  - simpl in E.
    repeat (destruct (String.eqb key _); [injection E as <-; reflexivity|]).
    discriminate.
  - by destruct (bool_decide _).
Qed.

Lemma milestone_label key d :
  js_or (label_opt (table_get milestoneColors key)) (Ok (VStr d))
  = Ok (VStr (from_option label d (assoc key milestoneColors))).
Proof.
  unfold table_get. destruct (assoc key milestoneColors) as [r|] eqn:E; simpl.
  - simpl in E.
    repeat (destruct (String.eqb key _); [injection E as <-; reflexivity|]).
    discriminate.
  - by destruct (bool_decide _).
Qed.

Lemma geological_fill key :
  js_or (color_opt (table_get geologicalColors key))
        (color_of (table_get geologicalColors "default"))
  = Ok (VStr (from_option color "#118AB2" (assoc key geologicalColors))).
Proof.
  unfold table_get at 1. destruct (assoc key geologicalColors) as [r|] eqn:E; simpl.
  - simpl in E.
    repeat (destruct (String.eqb key _); [injection E as <-; reflexivity|]).
    discriminate.
  - by destruct (bool_decide _).
Qed.

Lemma milestone_color_nonempty key d :
  d <> "" -> from_option color d (assoc key milestoneColors) <> "".
Proof. intros Hd. simpl. by repeat string_case key. Qed.

Lemma geological_color_nonempty key d :
  d <> "" -> from_option color d (assoc key geologicalColors) <> "".
Proof. intros Hd. simpl. by repeat string_case key. Qed.

Lemma milestone_key_absent key :
  key ∉ ["0"; "1"; "2"; "3"] -> assoc key milestoneColors = None.
Proof.
  rewrite !not_elem_of_cons. intros (H0 & H1 & H2 & H3 & _). simpl.
  by repeat string_case key.
Qed.

Lemma geological_key_other key :
  key ∉ ["MC"; "GR"; "SED"; "VOL"] ->
  from_option color "#118AB2" (assoc key geologicalColors) = "#118AB2".
Proof.
  rewrite !not_elem_of_cons. intros (H0 & H1 & H2 & H3 & _). simpl.
  by repeat string_case key.
Qed.

Section ClassifierProperties.
Context `{NumberConversions}.

Lemma getMilestone_feature_of props :
  getMilestone (feature_of props)
  = ToNumber (nullish (default VUndef (assoc "Milestone" props)) (VNum (num_of_Z 0))).
Proof. reflexivity. Qed.

Lemma getClusterName_total feature : returns (getClusterName feature).
Proof.
  unfold getClusterName.
  destruct (getProps_total feature) as (p & -> & Hget). simpl.
  destruct (Hget "Cluster") as [c ->]. simpl.
  apply js_or_returns.
  destruct (Hget " cl name") as [a ->]. simpl.
  apply js_or_returns. by eexists.
Qed.

Lemma getLithCode_total feature : returns (getLithCode feature).
Proof.
  unfold getLithCode.
  destruct (getProps_total feature) as (p & -> & Hget). simpl.
  destruct (Hget "LITHCODE") as [c ->]. simpl.
  apply js_or_returns. by eexists.
Qed.

(** C4.  Whatever the classification, each style function returns a
    style all of whose four fields are defined, with a string as fill
    colour; when the milestone's key is none of 0, 1, 2, 3 the fill
    colour is the gray "#374151", and when the lithology code's key is
    none of MC, GR, SED, VOL it is the colour "#118AB2" of the table's
    "default" entry. *)
Theorem C4_default_style (cluster geo lithCode : value) (milestone : number) (key : string) :
  getMilestone cluster = Ok milestone ->
  getLithCode geo = Ok lithCode ->
  ToPropertyKey lithCode = Ok key ->
  (exists fill,
      geojsonColors cluster
      = Ok {| style_color := VStr "#000"; style_fillColor := VStr fill;
              style_weight := VNum (num_of_Z 2);
              style_fillOpacity := VNum num_0_7 |}
      /\ fill <> ""
      /\ (Number_toString milestone ∉ ["0"; "1"; "2"; "3"] -> fill = "#374151"))
  /\ (exists fill,
      geologicalLayerColors geo
      = Ok {| style_color := VStr "#000"; style_fillColor := VStr fill;
              style_weight := VNum (num_of_Z 2);
              style_fillOpacity := VNum num_0_7 |}
      /\ fill <> ""
      /\ (key ∉ ["MC"; "GR"; "SED"; "VOL"] -> fill = "#118AB2")
      /\ color <$> assoc "default" geologicalColors = Some "#118AB2").
Proof.
  intros Hm Hl Hk. split.
  - unfold geojsonColors. rewrite Hm. simpl. rewrite milestone_fill.
    eexists. split; [reflexivity|]. split.
    + by apply milestone_color_nonempty.
    + intros Hout. by rewrite milestone_key_absent.
  - unfold geologicalLayerColors. rewrite Hl. simpl. rewrite Hk. simpl.
    rewrite geological_fill.
    eexists. split; [reflexivity|]. split; [|split; [|done]].
    + by apply geological_color_nonempty.
    + apply geological_key_other.
Qed.

(** A classification exists for every feature but those whose "Milestone"
    or "LITHCODE" is an object with a property "toString" of its own (or an
    array that contains one): such a value converts neither to a number
    nor to a property key, and the classifier or the style function
    raises. *)
Lemma unprintable_code_raises :
  geologicalLayerColors
    (feature_of [("LITHCODE", VObj [("toString", VNum (num_of_Z 1))])])
  = Throw TypeError
  /\ getMilestone (feature_of [("Milestone", VObj [("toString", VNum (num_of_Z 1))])])
     = Throw TypeError.
Proof. done. Qed.

(** C5, as the code has it.  A bag without "Cluster" whose " cl name" is
    bound to a truthy value classifies as that value; a " cl name" bound
    to a falsy value counts as absent, and the bag classifies as
    "Unknown"; a bag with neither key of a classifier gets its sentinel
    ("Unknown", 0, "default"); so does a feature without a usable
    property bag; and the two string classifiers return on every
    feature. *)
Theorem C5_fallback_chain :
  (forall props alt,
      assoc "Cluster" props = None -> assoc " cl name" props = Some alt ->
      truthy alt = true ->
      getClusterName (feature_of props) = Ok alt)
  /\ (forall props alt,
      assoc "Cluster" props = None -> assoc " cl name" props = Some alt ->
      truthy alt = false ->
      getClusterName (feature_of props) = Ok (VStr "Unknown"))
  /\ (forall props,
      assoc "Cluster" props = None -> assoc " cl name" props = None ->
      getClusterName (feature_of props) = Ok (VStr "Unknown"))
  /\ (forall props,
      assoc "Milestone" props = None ->
      getMilestone (feature_of props) = Ok (num_of_Z 0))
  /\ (forall props,
      assoc "LITHCODE" props = None ->
      getLithCode (feature_of props) = Ok (VStr "default"))
  /\ (forall feature bag,
      get_opt feature "properties" = Ok bag -> truthy bag = false ->
      getClusterName feature = Ok (VStr "Unknown")
      /\ getMilestone feature = Ok (num_of_Z 0)
      /\ getLithCode feature = Ok (VStr "default"))
  /\ (forall feature,
      returns (getClusterName feature) /\ returns (getLithCode feature)).
Proof.
  repeat apply conj.
  - intros props alt Hc Ha Ht. unfold getClusterName.
    rewrite getProps_feature_of. simpl. rewrite Hc, Ha. simpl.
    rewrite (js_or_falsy VUndef) by done. by rewrite js_or_truthy.
  - intros props alt Hc Ha Ht. unfold getClusterName.
    rewrite getProps_feature_of. simpl. rewrite Hc, Ha. simpl.
    rewrite (js_or_falsy VUndef) by done. by rewrite js_or_falsy.
  - intros props Hc Ha. unfold getClusterName.
    rewrite getProps_feature_of. simpl. by rewrite Hc, Ha.
  - intros props Hm. rewrite getMilestone_feature_of. by rewrite Hm.
  - intros props Hl. unfold getLithCode.
    rewrite getProps_feature_of. simpl. by rewrite Hl.
  - intros feature bag Hb Ht.
    unfold getClusterName, getMilestone, getLithCode.
    by rewrite (getProps_missing _ _ Hb Ht).
  - intros feature. split; [apply getClusterName_total | apply getLithCode_total].
Qed.

(** C6.  The bag {Milestone: 2} classifies as 2 and resolves to the
    table entry with fill colour "#27823B" and label "Milestone 2"; the
    bag {LITHCODE: "XYZ"} resolves to the colour "#118AB2" of the
    "default" entry. *)
Theorem C6_examples :
  let cluster := feature_of [("Milestone", VNum (num_of_Z 2))] in
  let geo := feature_of [("LITHCODE", VStr "XYZ")] in
  getMilestone cluster = Ok (num_of_Z 2)
  /\ table_get milestoneColors (Number_toString (num_of_Z 2))
     = Own {| label := "Milestone 2"; color := "#27823B" |}
  /\ style_fillColor <$> geojsonColors cluster = Ok (VStr "#27823B")
  /\ milestoneLabel cluster = Ok (VStr "Milestone 2")
  /\ getLithCode geo = Ok (VStr "XYZ")
  /\ table_get geologicalColors "XYZ" = Absent
  /\ table_get geologicalColors "default"
     = Own {| label := "Other"; color := "#118AB2" |}
  /\ style_fillColor <$> geologicalLayerColors geo = Ok (VStr "#118AB2").
Proof. repeat split. Qed.

(** C7, as the code has it.  Both style functions return the stroke
    colour "#000", the stroke weight 2 and the fill opacity 0.7: the
    opacity is the same for the two layers.  (It is the earlier version
    of the component that has another opacity, 1.) *)
Theorem C7_fixed_stroke_and_opacity (cluster geo : value) (s g : Style) :
  geojsonColors cluster = Ok s ->
  geologicalLayerColors geo = Ok g ->
  style_color s = VStr "#000" /\ style_color g = VStr "#000"
  /\ style_weight s = VNum (num_of_Z 2) /\ style_weight g = VNum (num_of_Z 2)
  /\ style_fillOpacity s = VNum num_0_7 /\ style_fillOpacity g = VNum num_0_7
  /\ style_fillOpacity s = style_fillOpacity g.
Proof.
  unfold geojsonColors, geologicalLayerColors. intros Hs Hg.
  destruct (getMilestone cluster) as [m|]; [|discriminate]. simpl in Hs.
  rewrite milestone_fill in Hs. simpl in Hs. injection Hs as <-.
  destruct (getLithCode geo) as [l|]; [|discriminate]. simpl in Hg.
  destruct (ToPropertyKey l) as [k|]; [|discriminate]. simpl in Hg.
  rewrite geological_fill in Hg. simpl in Hg. injection Hg as <-.
  done.
Qed.

Lemma Legacy_geojsonColors_opacity cluster s :
  Legacy.geojsonColors cluster = Ok s ->
  style_fillOpacity s = VNum (num_of_Z 1) /\ num_of_Z 1 <> num_0_7.
Proof.
  unfold Legacy.geojsonColors. intros Hs.
  destruct (getMilestone cluster) as [m|]; [|discriminate]. simpl in Hs.
  rewrite milestone_fill in Hs. simpl in Hs. by injection Hs as <-.
Qed.

(** C10, as the code has it.  A "Cluster" or "LITHCODE" bound to a falsy
    value counts as absent: the cluster name is what the bag without
    "Cluster" gives, the lithology code is "default".  A "Milestone"
    bound to null or undefined classifies as 0; bound to anything else
    it is converted by [Number] as it is, with no fallback: 0 stays 0,
    [true] gives 1 and [false] gives 0, neither of them NaN, the empty
    array gives what the empty string gives, and a string gives what
    [Number] makes of it, which is NaN only for the strings that
    [Number] takes to NaN. *)
Theorem C10_falsy_and_nullish :
  (forall props v,
      assoc "Cluster" props = Some v -> truthy v = false ->
      getClusterName (feature_of props)
      = getClusterName (feature_of (remove_key "Cluster" props)))
  /\ (forall props v,
      assoc "LITHCODE" props = Some v -> truthy v = false ->
      getLithCode (feature_of props) = Ok (VStr "default"))
  /\ (forall props v,
      assoc "Milestone" props = Some v -> v <> VNull -> v <> VUndef ->
      getMilestone (feature_of props) = ToNumber v)
  /\ (forall props v,
      assoc "Milestone" props = Some v -> v = VNull \/ v = VUndef ->
      getMilestone (feature_of props) = Ok (num_of_Z 0))
  /\ (forall props s,
      assoc "Milestone" props = Some (VStr s) ->
      getMilestone (feature_of props) = Ok (StringToNumber s)
      /\ (getMilestone (feature_of props) = Ok NaN <-> StringToNumber s = NaN))
  /\ (forall props b,
      assoc "Milestone" props = Some (VBool b) ->
      getMilestone (feature_of props) = Ok (num_of_Z (if b then 1 else 0))
      /\ getMilestone (feature_of props) <> Ok NaN)
  /\ (forall props,
      assoc "Milestone" props = Some (VArr []) ->
      getMilestone (feature_of props) = Ok (StringToNumber ""))
  /\ getClusterName (feature_of [("Cluster", VStr "")]) = Ok (VStr "Unknown")
  /\ getClusterName (feature_of [("Cluster", VNull); (" cl name", VStr "West")])
     = Ok (VStr "West")
  /\ getLithCode (feature_of [("LITHCODE", VStr "")]) = Ok (VStr "default")
  /\ getLithCode (feature_of [("LITHCODE", VNum (num_of_Z 0))]) = Ok (VStr "default")
  /\ getMilestone (feature_of [("Milestone", VNum (num_of_Z 0))]) = Ok (num_of_Z 0).
Proof.
  repeat apply conj; try reflexivity.
  - intros props v Hc Hv. unfold getClusterName.
    rewrite !getProps_feature_of. simpl.
    rewrite Hc, assoc_remove_key. simpl.
    rewrite (js_or_falsy v) by done.
    by rewrite assoc_remove_key_ne.
  - intros props v Hl Hv. unfold getLithCode.
    rewrite getProps_feature_of. simpl. rewrite Hl. simpl.
    by rewrite js_or_falsy.
  - intros props v Hm Hn Hu. rewrite getMilestone_feature_of, Hm. simpl.
    by destruct v.
  - intros props v Hm [-> | ->]; by rewrite getMilestone_feature_of, Hm.
  - intros props s Hm. rewrite getMilestone_feature_of, Hm. simpl.
    split; [done|]. split; [by intros [= ->] | by intros ->].
  - intros props b Hm. rewrite getMilestone_feature_of, Hm.
    by destruct b.
  - intros props Hm. by rewrite getMilestone_feature_of, Hm.
Qed.
End ClassifierProperties.

Lemma C4_default_style_witness :
  style_fillColor <$> @geojsonColors integer_conversions
                        (feature_of [("Milestone", VNum (num_of_Z 7))])
  = Ok (VStr "#374151")
  /\ style_fillColor <$> @geologicalLayerColors integer_conversions
                           (feature_of [("LITHCODE", VStr "XYZ")])
     = Ok (VStr "#118AB2").
Proof.
  destruct (@C4_default_style integer_conversions
              (feature_of [("Milestone", VNum (num_of_Z 7))])
              (feature_of [("LITHCODE", VStr "XYZ")])
              (VStr "XYZ") (num_of_Z 7) "XYZ" eq_refl eq_refl eq_refl)
    as [(fill & -> & _ & Hgray) (fill' & -> & _ & Hdefault & _)].
  rewrite Hgray, Hdefault; [done | |]; rewrite !not_elem_of_cons;
    repeat apply conj; try discriminate; apply not_elem_of_nil.
Defined.

(** The claim of C5 for every bag with the alternate key fails on a bag
    whose " cl name" is the empty string. *)
Lemma C5_counterexample :
  ~ (forall props alt,
        assoc "Cluster" props = None -> assoc " cl name" props = Some alt ->
        getClusterName (feature_of props) = Ok alt).
Proof.
  intros Hclaim.
  specialize (Hclaim [(" cl name", VStr "")] (VStr "") eq_refl eq_refl).
  discriminate Hclaim.
Qed.

Lemma C5_fallback_chain_witness :
  getClusterName (feature_of [(" cl name", VStr "West")]) = Ok (VStr "West")
  /\ getClusterName (feature_of [(" cl name", VStr "")]) = Ok (VStr "Unknown")
  /\ getClusterName (feature_of [(" cl name", VNum (num_of_Z 0))]) = Ok (VStr "Unknown")
  /\ getClusterName (feature_of [("Milestone", VNum (num_of_Z 1))]) = Ok (VStr "Unknown")
  /\ @getMilestone integer_conversions (feature_of [("Cluster", VStr "West")])
     = Ok (num_of_Z 0)
  /\ getLithCode (feature_of []) = Ok (VStr "default")
  /\ getClusterName (VObj [("properties", VNull)]) = Ok (VStr "Unknown")
  /\ @getMilestone integer_conversions VUndef = Ok (num_of_Z 0).
Proof.
  destruct (@C5_fallback_chain integer_conversions)
    as (Halt & Hfalsy & Hname & Hmilestone & Hlith & Hbag & _).
  repeat apply conj.
  - by apply Halt.
  - by apply (Hfalsy _ (VStr "")).
  - by apply (Hfalsy _ (VNum (num_of_Z 0))).
  - by apply Hname.
  - by apply Hmilestone.
  - by apply Hlith.
  - by apply (Hbag _ VNull).
  - by apply (Hbag VUndef VUndef).
Defined.

(** The claim of C7 that the two layers differ in fill opacity fails on
    every feature, for instance on the feature without properties. *)
Lemma C7_counterexample :
  ~ (forall feature s g,
        @geojsonColors integer_conversions feature = Ok s ->
        @geologicalLayerColors integer_conversions feature = Ok g ->
        style_fillOpacity s <> style_fillOpacity g).
Proof.
  intros Hclaim.
  by apply (Hclaim (VObj []) _ _ eq_refl eq_refl).
Qed.

(** The claim of C10 that a present "Milestone" that is not a number
    yields NaN fails, whatever [Number] does with strings, on the bag
    whose "Milestone" is [true], which classifies as 1. *)
Lemma C10_counterexample :
  ~ (exists conversions : NumberConversions,
        forall props v,
          assoc "Milestone" props = Some v -> v <> VNull -> v <> VUndef ->
          (forall n, v <> VNum n) ->
          @getMilestone conversions (feature_of props) = Ok NaN).
Proof.
  intros [conversions Hclaim].
  specialize (Hclaim [("Milestone", VBool true)] (VBool true) eq_refl).
  discriminate Hclaim; done.
Qed.

Lemma C7_fixed_stroke_and_opacity_witness :
  exists s g,
    @geojsonColors integer_conversions (feature_of [("Milestone", VNum (num_of_Z 1))]) = Ok s
    /\ @geologicalLayerColors integer_conversions (feature_of [("LITHCODE", VStr "GR")]) = Ok g
    /\ style_fillOpacity s = style_fillOpacity g.
Proof.
  eexists _, _. split; [reflexivity|]. split; [reflexivity|].
  by apply (@C7_fixed_stroke_and_opacity integer_conversions
              (feature_of [("Milestone", VNum (num_of_Z 1))])
              (feature_of [("LITHCODE", VStr "GR")])).
Defined.

Lemma C10_falsy_and_nullish_witness :
  getClusterName (feature_of [("Cluster", VNum (num_of_Z 0)); (" cl name", VStr "West")])
  = getClusterName (feature_of [(" cl name", VStr "West")])
  /\ getLithCode (feature_of [("LITHCODE", VNull)]) = Ok (VStr "default")
  /\ @getMilestone integer_conversions (feature_of [("Milestone", VBool true)])
     = Ok (num_of_Z 1)
  /\ @getMilestone integer_conversions (feature_of [("Milestone", VNull)])
     = Ok (num_of_Z 0)
  /\ @getMilestone integer_conversions (feature_of [("Milestone", VStr "abc")])
     = Ok NaN
  /\ @getMilestone integer_conversions (feature_of [("Milestone", VStr "")])
     = Ok (num_of_Z 0)
  /\ @getMilestone integer_conversions (feature_of [("Milestone", VBool false)])
     <> Ok NaN
  /\ @getMilestone integer_conversions (feature_of [("Milestone", VArr [])])
     = Ok (num_of_Z 0).
Proof.
  destruct (@C10_falsy_and_nullish integer_conversions)
    as (Hcluster & Hlith & Hconv & Hnull & Hstr & Hbool & Harr & _).
  repeat apply conj.
  - exact (Hcluster [("Cluster", VNum (num_of_Z 0)); (" cl name", VStr "West")]
             (VNum (num_of_Z 0)) eq_refl eq_refl).
  - by apply (Hlith _ VNull).
  - by apply (Hconv _ (VBool true)).
  - apply (Hnull _ VNull); [done | by left].
  - by apply (Hstr _ "abc").
  - exact (proj1 (Hstr [("Milestone", VStr "")] "" eq_refl)).
  - exact (proj2 (Hbool [("Milestone", VBool false)] false eq_refl)).
  - exact (Harr [("Milestone", VArr [])] eq_refl).
Defined.

(** ** Coordinate reprojector *)

Section ReprojectorProperties.
Context `{Projection}.

Lemma transformCoordinates_nested children :
  transformCoordinates (coords_value (Nested children))
  = VArr <$> array_map transformCoordinates (map coords_value children).
Proof. destruct children as [|[x y|cs] rest]; reflexivity. Qed.

Lemma array_map_projected children :
  Forall (fun c =>
            Forall (fun p => returns (proj4 [VNum p.1; VNum p.2])) (positions c) ->
            exists v, transformCoordinates (coords_value c) = Ok v /\ projected c v)
         children ->
  Forall (fun p => returns (proj4 [VNum p.1; VNum p.2]))
         (concat (map positions children)) ->
  exists values,
    array_map transformCoordinates (map coords_value children) = Ok values
    /\ Forall2 projected children values.
Proof.
  induction 1 as [|c rest Hc _ IH]; intros Hleaves.
  - exists []. split; [reflexivity | constructor].
  - simpl in Hleaves. apply Forall_app in Hleaves as [Hhere Hrest].
    destruct (Hc Hhere) as (v & Hv & Hpv).
    destruct (IH Hrest) as (vs & Hvs & Hpvs).
    exists (v :: vs). split; [|by constructor].
    cbn [map array_map]. rewrite Hv. cbn [mbind result_bind].
    fold (array_map transformCoordinates). by rewrite Hvs.
Qed.

(** C1.  On a valid coordinate structure all of whose positions the
    projection accepts, [transformCoordinates] returns a value of the same
    nesting, array for array with the children in the same order, in which
    each position is replaced by the projection of that position alone. *)
Theorem C1_shape_preserved (c : geometry_coords) :
  Forall (fun p => returns (proj4 [VNum p.1; VNum p.2])) (positions c) ->
  exists v, transformCoordinates (coords_value c) = Ok v /\ projected c v.
Proof.
  induction c as [x y | children IH] using geometry_coords_nested_ind;
    intros Hleaves.
  - apply Forall_inv in Hleaves as [r Hr]. simpl in Hr.
    exists (VArr [default VUndef (r !! 0%nat); default VUndef (r !! 1%nat)]).
    split; [|by constructor].
    simpl. by rewrite Hr.
  - destruct (array_map_projected children IH Hleaves) as (values & Hvalues & Hp).
    exists (VArr values). split; [|by constructor].
    rewrite transformCoordinates_nested. by rewrite Hvalues.
Qed.

(** The projected value has as many children as the structure. *)
Lemma projected_length children values :
  projected (Nested children) (VArr values) -> length values = length children.
Proof. inversion 1; subst. symmetry. by eapply Forall2_length. Qed.
End ReprojectorProperties.

Lemma C1_shape_preserved_witness :
  let c := Nested [Nested [Position (num_of_Z 500000) (num_of_Z 7000000);
                           Position (num_of_Z 600000) (num_of_Z 7100000)];
                   Nested []] in
  exists v,
    @transformCoordinates scaling_projection (coords_value c) = Ok v
    /\ @projected scaling_projection c v.
Proof.
  apply (@C1_shape_preserved scaling_projection).
  repeat constructor; by eexists.
Defined.

(** ** Legend *)

Lemma remove_control_last id lg : remove_control id [(id, lg)] = [].
Proof.
  unfold remove_control. rewrite filter_cons. simpl.
  destruct (decide (id <> id)) as [Hne|_]; [by destruct Hne | done].
Qed.

(** A render replaces the one attached legend by the legend of the layer
    being rendered. *)
Lemma render_attached (s : Component) id lg :
  mapRef s = Some [(id, lg)] -> cleanup s = Some id ->
  legend_attached (render s).
Proof.
  intros Hmap Hclean. unfold render, run_cleanup. rewrite Hclean.
  unfold legend_effect. simpl. rewrite Hmap. simpl.
  rewrite remove_control_last. by eexists.
Qed.

Lemma step_attached (e : event) (s : Component) :
  legend_attached s -> legend_attached (step e s).
Proof.
  intros Hs. pose proof Hs as (id & Hmap & Hclean).
  destruct e as [l| |]; simpl.
  - unfold setActiveLayer. destruct (decide (l = activeLayer s)); [done|].
    by eapply render_attached.
  - by eapply render_attached.
  - by rewrite Hmap.
Qed.

Lemma run_events_attached (es : list event) (s : Component) :
  legend_attached s -> legend_attached (run_events es s).
Proof.
  revert s. induction es as [|e es IH]; intros s Hs; [done|].
  simpl. apply IH. by apply step_attached.
Qed.

Lemma onAdd_rows l : rows (onAdd l) = Object_values (layer_table l).
Proof. by destruct l. Qed.

Lemma with_layer_same (s : Component) : with_layer (activeLayer s) s = s.
Proof. by destruct s. Qed.

Lemma render_with_layer_invariant (l : Layer) (s : Component) :
  legend_invariant s -> legend_invariant (render (with_layer l s)).
Proof.
  intros [[Hmap Hclean] | [[Hmap Hclean] | (id & Hmap & Hclean)]].
  - left. unfold render, run_cleanup. simpl. rewrite Hclean.
    unfold legend_effect. simpl. by rewrite Hmap.
  - right. right. unfold render, run_cleanup. simpl. rewrite Hclean.
    unfold legend_effect. simpl. rewrite Hmap. by eexists.
  - right. right. by eapply render_attached.
Qed.

Lemma step_invariant (e : event) (s : Component) :
  legend_invariant s -> legend_invariant (step e s).
Proof.
  intros Hs. destruct e as [l| |]; simpl.
  - unfold setActiveLayer. destruct (decide (l = activeLayer s)); [done|].
    by apply render_with_layer_invariant.
  - rewrite <- (with_layer_same s). by apply render_with_layer_invariant.
  - destruct Hs as [[Hmap Hclean] | [[Hmap Hclean] | (id & Hmap & Hclean)]];
      rewrite Hmap; [right; left | right; left | right; right]; try done.
    by exists id.
Qed.

(** Every state the component reaches from its first render has at most
    one legend, and a click that changes the layer while the map exists
    leaves exactly one. *)
Lemma mounted_invariant (es : list event) :
  legend_invariant (run_events es mounted).
Proof.
  assert (Hgen : forall s, legend_invariant s -> legend_invariant (run_events es s)).
  { induction es as [|e es IH]; intros s Hs; [done|].
    simpl. apply IH. by apply step_invariant. }
  apply Hgen. by left.
Qed.

Lemma toggle_attaches (s : Component) :
  legend_invariant s -> mapRef s <> None ->
  legend_attached (step (Click (other_layer (activeLayer s))) s).
Proof.
  intros Hs Hmap. simpl. unfold setActiveLayer.
  destruct (decide _) as [Heq|_]; [by destruct (activeLayer s)|].
  destruct (render_with_layer_invariant (other_layer (activeLayer s)) s Hs)
    as [[Hnone _] | [[Hempty _] | Hatt]]; [| |done].
  - destruct Hs as [[Hm _] | [[Hm Hc] | (id & Hm & Hc)]]; [done| |].
    + unfold render, run_cleanup, legend_effect in Hnone. simpl in Hnone.
      rewrite Hc in Hnone. simpl in Hnone. by rewrite Hm in Hnone.
    + unfold render, run_cleanup, legend_effect in Hnone. simpl in Hnone.
      rewrite Hc in Hnone. simpl in Hnone. by rewrite Hm in Hnone.
  - destruct Hs as [[Hm _] | [[Hm Hc] | (id & Hm & Hc)]]; [done| |].
    + unfold render, run_cleanup, legend_effect in Hempty. simpl in Hempty.
      rewrite Hc in Hempty. simpl in Hempty. by rewrite Hm in Hempty.
    + unfold render, run_cleanup, legend_effect in Hempty. simpl in Hempty.
      rewrite Hc in Hempty. simpl in Hempty. rewrite Hm in Hempty.
      simpl in Hempty. by rewrite remove_control_last in Hempty.
Qed.

(** C8.  From a state with one legend attached, which any render reaches
    once the map exists, every sequence of clicks on the two buttons and of
    other renders leaves exactly one legend attached, and its rows are all
    the entries of the table of the layer that ends up active: the four of
    [milestoneColors] or the five of [geologicalColors]. *)
Theorem C8_one_legend (s : Component) (es : list event) :
  legend_attached s ->
  let s' := run_events es s in
  exists id legend,
    mapRef s' = Some [(id, legend)]
    /\ cleanup s' = Some id
    /\ legend = onAdd (activeLayer s')
    /\ rows legend = map snd (layer_table (activeLayer s'))
    /\ length (rows legend) = match activeLayer s' with
                              | clusters => 4
                              | geological => 5
                              end.
Proof.
  intros Hs s'.
  destruct (run_events_attached es s Hs) as (id & Hmap & Hclean).
  exists id, (onAdd (activeLayer s')).
  repeat apply conj; try done.
  - apply onAdd_rows.
  - by destruct (activeLayer s').
Qed.

(** Before the map exists no legend is attached; once it exists, the first
    render attaches one. *)
Lemma mounted_no_legend : mapRef mounted = None /\ cleanup mounted = None.
Proof. done. Qed.

Lemma first_render_attaches (s : Component) :
  mapRef s = Some [] -> cleanup s = None -> legend_attached (render s).
Proof.
  intros Hmap Hclean. unfold render, run_cleanup. rewrite Hclean.
  unfold legend_effect. rewrite Hmap. by eexists.
Qed.

Lemma C8_one_legend_witness :
  let s := run_events [MapCreated; Rerender] mounted in
  let s' := run_events [Click geological; Click clusters;
                        Click geological; Click clusters] s in
  exists id legend,
    mapRef s' = Some [(id, legend)]
    /\ cleanup s' = Some id
    /\ legend = onAdd (activeLayer s')
    /\ rows legend = map snd (layer_table (activeLayer s'))
    /\ length (rows legend) = match activeLayer s' with
                              | clusters => 4
                              | geological => 5
                              end.
Proof.
  apply (C8_one_legend (run_events [MapCreated; Rerender] mounted)).
  by exists 0.
Defined.

(** ** The store and [transformGeoJSON] *)

Lemma fresh_value_le n n' v : n <= n' -> fresh_value n' v -> fresh_value n v.
Proof. destruct v; simpl; lia. Qed.

Lemma assoc_elem_of {V} k (ps : list (string * V)) x :
  assoc k ps = Some x -> x ∈ map snd ps.
Proof.
  induction ps as [|[k' v] ps IH]; simpl; [done|].
  destruct (String.eqb k k').
  - intros [= ->]. by left.
  - intros Hx. right. by apply IH.
Qed.

Lemma set_prop_refs {V} (P : V -> Prop) k x (ps : list (string * V)) :
  P x -> Forall P (map snd ps) -> Forall P (map snd (set_prop k x ps)).
Proof.
  intros Hx. induction ps as [|[k' v] ps IH]; simpl; intros Hps.
  - by constructor.
  - apply Forall_cons in Hps as [Hv Hps].
    destruct (String.eqb k k'); simpl; constructor; auto.
Qed.

(** Reading a tree does not depend on cells added later nor on more fuel. *)
Lemma read_stable k k' σ σ' v t :
  k <= k' ->
  (forall l c, σ !! l = Some c -> σ' !! l = Some c) ->
  read k σ v = Some t -> read k' σ' v = Some t.
Proof.
  intros Hk Hagree. revert k' Hk v t.
  induction k as [|k IH]; intros k' Hk v t;
    destruct v; try (by destruct k'); simpl; try done.
  destruct k' as [|k']; [exfalso; lia|]. simpl.
  destruct (σ !! l) as [c|] eqn:Hl; [|done].
  rewrite (Hagree _ _ Hl).
  destruct c as [elts|props]; intros Ht.
  - apply fmap_Some in Ht as (ts & Hts & ->).
    apply mapM_Some in Hts.
    erewrite (proj2 (mapM_Some _ _ _)); [done|].
    eapply Forall2_impl; [exact Hts|].
    intros x y Hxy. apply (IH k'); [lia | done].
  - apply fmap_Some in Ht as (ts & Hts & ->).
    apply mapM_Some in Hts.
    erewrite (proj2 (mapM_Some _ _ _)); [done|].
    eapply Forall2_impl; [exact Hts|].
    intros x y Hxy. simpl in *. apply fmap_Some in Hxy as (z & Hz & ->).
    by rewrite (IH k' ltac:(lia) _ _ Hz).
Qed.

Lemma reachable_fresh n σ v l :
  closed_above n σ -> fresh_value n v -> reachable σ v l -> n <= l.
Proof.
  intros Hclosed Hv Hreach. induction Hreach as [l | l c v l' Hl Hin _ IH].
  - done.
  - apply IH. simpl in Hv.
    pose proof (Hclosed l c Hv Hl) as Hrefs.
    rewrite Forall_forall in Hrefs. by apply Hrefs.
Qed.

Lemma closed_above_app n σ ext :
  n <= length σ -> closed_above n σ ->
  Forall (fun c => Forall (fresh_value n) (cell_refs c)) ext ->
  closed_above n (σ ++ ext)%list.
Proof.
  intros Hn Hclosed Hext l c Hl Hc.
  destruct (decide (l < length σ)) as [Hlt|Hge].
  - rewrite lookup_app_l in Hc by done. exact (Hclosed l c Hl Hc).
  - rewrite lookup_app_r in Hc by lia.
    apply list_elem_of_lookup_2 in Hc.
    rewrite Forall_forall in Hext. by apply Hext.
Qed.

(** *** The frame rules *)

Lemma frame_ret {A} n (P : A -> Prop) a : P a -> frame n P (run_ret a).
Proof. intros Ha σ Hn Hc. simpl. repeat split; try done. by intros ? [= <-]. Qed.

Lemma frame_throw {A} n (P : A -> Prop) e : frame n P (run_throw e).
Proof. intros σ Hn Hc. simpl. repeat split; done. Qed.

Lemma frame_bind {A B} n (Q : A -> Prop) (P : B -> Prop) m k :
  frame n Q m -> (forall a, Q a -> frame n P (k a)) -> frame n P (run_bind m k).
Proof.
  intros Hm Hk σ Hn Hc. unfold run_bind.
  specialize (Hm σ Hn Hc).
  destruct (m σ) as [σ1 [a|e]]; simpl in Hm; destruct Hm as (Hn1 & Hpre1 & Hc1 & Ha).
  - destruct (Hk a (Ha a eq_refl) σ1 Hn1 Hc1) as (Hn2 & Hpre2 & Hc2 & Hb).
    repeat split; try done.
    intros l Hl. rewrite Hpre2 by done. by apply Hpre1.
  - simpl. repeat split; done.
Qed.

Lemma frame_load n l :
  n <= l -> frame n (fun c => Forall (fresh_value n) (cell_refs c)) (load l).
Proof.
  intros Hl σ Hn Hc. unfold load.
  destruct (σ !! l) as [c|] eqn:Hc'; simpl; repeat split; try done.
  intros ? [= <-]. exact (Hc l c Hl Hc').
Qed.

Lemma frame_ref_get n v k :
  fresh_value n v -> frame n (fresh_value n) (ref_get v k).
Proof.
  intros Hv. destruct v; simpl; try (by apply frame_throw); try (by apply frame_ret).
  eapply frame_bind; [by apply frame_load|].
  intros [elts|props] Hrefs; apply frame_ret; [done|].
  destruct (assoc k props) as [x|] eqn:Hx; simpl; [|done].
  simpl in Hrefs. rewrite Forall_forall in Hrefs.
  by eapply Hrefs, assoc_elem_of.
Qed.

Lemma frame_ref_set n v k x :
  fresh_value n v -> fresh_value n x -> frame n (fun _ => True) (ref_set v k x).
Proof.
  intros Hv Hx. destruct v; simpl; try (by apply frame_throw).
  eapply frame_bind; [by apply frame_load|].
  intros [elts|props] Hrefs; [by apply frame_throw|].
  intros σ Hn Hc. simpl. rewrite length_insert. repeat split; try done.
  - intros l' Hl'. apply list_lookup_insert_ne. simpl in Hv. lia.
  - intros l' c Hl' Hc'.
    destruct (decide (l = l')) as [<-|Hne].
    + destruct (decide (l < length σ)) as [Hlt|Hge].
      * rewrite list_lookup_insert_eq in Hc' by done. injection Hc' as <-.
        simpl. by apply set_prop_refs.
      * rewrite list_insert_ge in Hc' by lia. exact (Hc l c Hl' Hc').
    + rewrite list_lookup_insert_ne in Hc' by done. exact (Hc l' c Hl' Hc').
Qed.

Lemma appends_refl n σ : appends n σ σ.
Proof. exists []. split; [by rewrite app_nil_r | constructor]. Qed.

Lemma appends_length n σ σ' : appends n σ σ' -> length σ <= length σ'.
Proof. intros (ext & -> & _). rewrite length_app. lia. Qed.

Lemma appends_trans n σ1 σ2 σ3 :
  appends n σ1 σ2 -> appends n σ2 σ3 -> appends n σ1 σ3.
Proof.
  intros (e1 & -> & H1) (e2 & -> & H2). exists (e1 ++ e2)%list.
  split; [by rewrite app_assoc|]. apply Forall_app. by split.
Qed.

Lemma appends_cell n σ c :
  Forall (fresh_value n) (cell_refs c) -> appends n σ (σ ++ [c])%list.
Proof. intros Hc. exists [c]. split; [done | by constructor]. Qed.

Lemma build_appends t :
  forall n σ, n <= length σ ->
    appends n σ (build t σ).1 /\ fresh_value n (build t σ).2.
Proof.
  induction t as [| | b | m | s | elts IH | props IH] using value_nested_ind;
    intros n σ Hn; simpl; try (split; [apply appends_refl | done]).
  - assert (Helts : forall σ, n <= length σ ->
               appends n σ (build_elts build elts σ).1
               /\ Forall (fresh_value n) (build_elts build elts σ).2).
    { clear σ Hn. induction IH as [|x rest Hx _ IHrest]; intros σ Hn; simpl.
      - split; [apply appends_refl | constructor].
      - destruct (Hx n σ Hn) as [Ha Hv]. destruct (build x σ) as [σ1 v].
        simpl in *. pose proof (appends_length _ _ _ Ha) as Hlen.
        destruct (IHrest σ1 ltac:(lia)) as [Ha' Hvs].
        destruct (build_elts build rest σ1) as [σ2 vs]. simpl in *.
        split; [by eapply appends_trans | by constructor]. }
    destruct (Helts σ Hn) as [Ha Hvs].
    destruct (build_elts build elts σ) as [σ' vs]. simpl in *.
    pose proof (appends_length _ _ _ Ha) as Hlen. split; [|lia].
    eapply appends_trans; [exact Ha|]. by apply appends_cell.
  - assert (Hprops : forall σ, n <= length σ ->
               appends n σ (build_props build props σ).1
               /\ Forall (fresh_value n) (map snd (build_props build props σ).2)).
    { clear σ Hn. induction IH as [|[k x] rest Hx _ IHrest]; intros σ Hn; simpl.
      - split; [apply appends_refl | constructor].
      - simpl in Hx. destruct (Hx n σ Hn) as [Ha Hv]. destruct (build x σ) as [σ1 v].
        simpl in *. pose proof (appends_length _ _ _ Ha) as Hlen.
        destruct (IHrest σ1 ltac:(lia)) as [Ha' Hvs].
        destruct (build_props build rest σ1) as [σ2 ps]. simpl in *.
        split; [by eapply appends_trans | by constructor]. }
    destruct (Hprops σ Hn) as [Ha Hps].
    destruct (build_props build props σ) as [σ' ps]. simpl in *.
    pose proof (appends_length _ _ _ Ha) as Hlen. split; [|lia].
    eapply appends_trans; [exact Ha|]. by apply appends_cell.
Qed.

Lemma frame_build n t :
  frame n (fresh_value n) (fun σ => let '(σ', r) := build t σ in (σ', Ok r)).
Proof.
  intros σ Hn Hc. destruct (build_appends t n σ Hn) as [Ha Hv].
  destruct (build t σ) as [σ' r]. simpl in *.
  pose proof (appends_length _ _ _ Ha) as Hlen.
  destruct Ha as (ext & -> & Hext).
  repeat split.
  - lia.
  - intros l Hl. apply lookup_app_l. lia.
  - by apply closed_above_app.
  - by intros ? [= <-].
Qed.

Lemma frame_JSON_clone n v : frame n (fresh_value n) (JSON_clone v).
Proof.
  unfold JSON_clone. intros σ Hn Hc.
  destruct (read_tree σ v) as [t|]; [|by apply (frame_throw n _ TypeError)].
  destruct t; try (by apply (frame_build n _ σ));
    by apply (frame_throw n _ SyntaxError).
Qed.

Lemma frame_for_each n f elts :
  (forall x, fresh_value n x -> frame n (fun _ => True) (f x)) ->
  Forall (fresh_value n) elts -> frame n (fun _ => True) (for_each f elts).
Proof.
  intros Hf. induction 1 as [|x rest Hx _ IH]; simpl.
  - by apply frame_ret.
  - eapply frame_bind; [by apply Hf|]. intros _ _. apply IH.
Qed.

Lemma frame_forEach n arr f :
  fresh_value n arr ->
  (forall x, fresh_value n x -> frame n (fun _ => True) (f x)) ->
  frame n (fun _ => True) (forEach arr f).
Proof.
  intros Harr Hf. destruct arr; simpl; try (by apply frame_throw).
  eapply frame_bind; [by apply frame_load|].
  intros [elts|props] Hrefs; [|by apply frame_throw].
  by apply frame_for_each.
Qed.

Section TransformGeoJSONProperties.
Context `{Projection}.

Lemma frame_transformCoordinates_call n v :
  frame n (fresh_value n) (transformCoordinates_call v).
Proof.
  unfold transformCoordinates_call. intros σ Hn Hc.
  destruct (read_tree σ v) as [t|]; [|by apply (frame_throw n _ RangeError)].
  destruct (transformCoordinates t) as [t'|e];
    [by apply (frame_build n _ σ) | by apply (frame_throw n _ e)].
Qed.

Lemma frame_transformFeature n feature :
  fresh_value n feature -> frame n (fun _ => True) (transformFeature feature).
Proof.
  intros Hf. unfold transformFeature.
  eapply frame_bind; [by apply frame_ref_get|]. intros geometry Hg.
  eapply (frame_bind _ (fresh_value n)).
  { destruct (ref_truthy geometry); [|by apply frame_ret].
    eapply frame_bind; [by apply frame_ref_get|]. intros g' Hg'.
    by apply frame_ref_get. }
  intros guard Hguard. destruct (ref_truthy guard); [|by apply frame_ret].
  eapply frame_bind; [by apply frame_ref_get|]. intros target Ht.
  eapply frame_bind; [by apply frame_ref_get|]. intros g' Hg'.
  eapply frame_bind; [by apply frame_ref_get|]. intros argument Ha.
  eapply frame_bind; [by apply frame_transformCoordinates_call|].
  intros transformed Htr. by apply frame_ref_set.
Qed.

Lemma frame_transformGeoJSON n geojson :
  frame n (fresh_value n) (transformGeoJSON geojson).
Proof.
  unfold transformGeoJSON.
  eapply frame_bind; [by apply frame_JSON_clone|]. intros transformed Ht.
  eapply frame_bind; [by apply frame_ref_get|]. intros features Hfs.
  eapply (frame_bind _ (fun _ => True)); [|intros _ _; by apply frame_ret].
  destruct (ref_truthy features); [|by apply frame_ret].
  eapply frame_bind; [by apply frame_ref_get|]. intros features' Hfs'.
  apply frame_forEach; [done|]. intros x Hx. by apply frame_transformFeature.
Qed.

(** C3.  Whatever [transformGeoJSON] does to the store, raising or not:
    every cell that existed before the call is the same after it, so the
    input document reads as the same tree; and when the call returns, what
    it returns leads only to cells that did not exist before the call. *)
Theorem C3_input_not_mutated (σ σ' : store) (geojson : ref_value)
    (doc : value) (outcome : result ref_value) :
  read_tree σ geojson = Some doc ->
  transformGeoJSON geojson σ = (σ', outcome) ->
  (forall l c, σ !! l = Some c -> σ' !! l = Some c)
  /\ read_tree σ' geojson = Some doc
  /\ (forall transformed l,
        outcome = Ok transformed -> reachable σ' transformed l ->
        length σ <= l /\ σ !! l = None).
Proof.
  intros Hdoc Hrun.
  assert (Hclosed : closed_above (length σ) σ).
  { intros l c Hl Hc. apply lookup_lt_Some in Hc. lia. }
  destruct (frame_transformGeoJSON (length σ) geojson σ (le_n _) Hclosed)
    as (Hlen & Hprefix & Hclosed' & Hfresh).
  rewrite Hrun in Hlen, Hprefix, Hclosed', Hfresh. simpl in *.
  assert (Hagree : forall l c, σ !! l = Some c -> σ' !! l = Some c).
  { intros l c Hc. rewrite Hprefix; [done|]. by eapply lookup_lt_Some. }
  repeat apply conj.
  - exact Hagree.
  - unfold read_tree in *. by eapply read_stable.
  - intros transformed l -> Hreach.
    assert (length σ <= l) as Hl
      by (eapply reachable_fresh; [exact Hclosed' | by apply Hfresh | done]).
    split; [done|]. by apply lookup_ge_None.
Qed.
End TransformGeoJSONProperties.

Lemma C3_input_not_mutated_witness :
  let σ := (build sample_document []).1 in
  let geojson := (build sample_document []).2 in
  let after := @transformGeoJSON scaling_projection geojson σ in
  read_tree σ geojson = Some sample_document
  /\ (forall l c, σ !! l = Some c -> after.1 !! l = Some c)
  /\ read_tree after.1 geojson = Some sample_document
  /\ exists transformed,
       after.2 = Ok transformed
       /\ forall l, reachable after.1 transformed l -> length σ <= l.
Proof.
  intros σ geojson after.
  assert (Hdoc : read_tree σ geojson = Some sample_document) by reflexivity.
  destruct (@C3_input_not_mutated scaling_projection σ after.1 geojson
              sample_document after.2 Hdoc (surjective_pairing after))
    as (Hcells & Hread & Hfresh).
  repeat apply conj; try done.
  exists (RRef 19). split; [reflexivity|].
  intros l Hl. by apply (Hfresh (RRef 19) l).
Defined.

(** The sample document after the transformation: the positions are
    projected, everything else is as in the input. *)
Lemma transformGeoJSON_sample :
  let σ := (build sample_document []).1 in
  let geojson := (build sample_document []).2 in
  let after := @transformGeoJSON scaling_projection geojson σ in
  exists transformed,
    after.2 = Ok transformed
    /\ read_tree after.1 transformed
       = Some (VObj [("type", VStr "FeatureCollection");
                     ("features",
                      VArr [VObj [("properties", VObj [("LITHCODE", VStr "MC")]);
                                  ("geometry",
                                   VObj [("type", VStr "Polygon");
                                         ("coordinates",
                                          VArr [VArr [VArr [VNum (num_of_Z 5);
                                                            VNum (num_of_Z 70)];
                                                      VArr [VNum (num_of_Z 6);
                                                            VNum (num_of_Z 71)]]])])];
                            VObj [("properties", VNull); ("geometry", VNull)]])]).
Proof. exists (RRef 19). split; reflexivity. Qed.

(** * Further properties *)

(** ** Classifier *)

Lemma getProps_object feature props :
  get_opt feature "properties" = Ok (VObj props) ->
  getProps feature = Ok (VObj props).
Proof. intros Hp. unfold getProps. by rewrite Hp. Qed.

(** What a key of the bag that [getProps] returns holds: [undefined], or
    the property of that name of the feature's [properties] object. *)
Lemma getProps_bag feature k :
  exists p x,
    getProps feature = Ok p /\ get p k = Ok x
    /\ (x = VUndef
        \/ exists props,
            get_opt feature "properties" = Ok (VObj props) /\ assoc k props = Some x).
Proof.
  unfold getProps.
  assert (Hopt : exists q, get_opt feature "properties" = Ok q)
    by (destruct feature; simpl; eauto).
  destruct Hopt as [q Hq]. rewrite Hq. simpl. unfold js_or.
  destruct (truthy q) eqn:Ht.
  - destruct q as [| | b | n | s | elts | props]; simpl in Ht; try discriminate;
      try (by eexists _, VUndef; repeat split; try done; left).
    destruct (assoc k props) as [x|] eqn:Hx.
    + exists (VObj props), x. simpl. rewrite Hx. repeat split; try done.
      right. by exists props.
    + exists (VObj props), VUndef. simpl. rewrite Hx. repeat split; try done. by left.
  - exists (VObj []), VUndef. repeat split; try done. by left.
Qed.

(** A classifier that reads one key and falls back to a truthy default. *)
Lemma one_key_classifier feature k d :
  truthy d = true ->
  exists u,
    (props ← getProps feature; c ← get props k; js_or c (Ok d)) = Ok u
    /\ truthy u = true
    /\ (u = d
        \/ exists props,
            get_opt feature "properties" = Ok (VObj props) /\ assoc k props = Some u).
Proof.
  intros Hd. destruct (getProps_bag feature k) as (p & x & -> & Hx & Hfrom). simpl.
  rewrite Hx. simpl. unfold js_or. destruct (truthy x) eqn:Ht.
  - exists x. repeat split; try done. destruct Hfrom as [-> | Hfrom]; [done | by right].
  - exists d. repeat split; try done. by left.
Qed.

Lemma one_key_truthy feature k d props v :
  get_opt feature "properties" = Ok (VObj props) ->
  assoc k props = Some v -> truthy v = true ->
  (props ← getProps feature; c ← get props k; js_or c (Ok d)) = Ok v.
Proof.
  intros Hp Hk Hv. rewrite (getProps_object _ _ Hp). simpl. rewrite Hk. simpl.
  by apply js_or_truthy.
Qed.

(** X1.  [getGeologicalUnit] returns on every feature; what it returns is
    truthy, and is either "Unknown" or the UNIT property of the feature's
    property bag; a truthy UNIT is returned as it is. *)
Theorem X1_geological_unit (feature : value) :
  (exists u,
      getGeologicalUnit feature = Ok u
      /\ truthy u = true
      /\ (u = VStr "Unknown"
          \/ exists props,
              get_opt feature "properties" = Ok (VObj props)
              /\ assoc "UNIT" props = Some u))
  /\ (forall props v,
        get_opt feature "properties" = Ok (VObj props) ->
        assoc "UNIT" props = Some v -> truthy v = true ->
        getGeologicalUnit feature = Ok v).
Proof.
  split.
  - by apply (one_key_classifier feature "UNIT" (VStr "Unknown")).
  - intros props v. apply one_key_truthy.
Qed.

Lemma X1_geological_unit_witness :
  getGeologicalUnit
    (VObj [("type", VStr "Feature");
           ("properties", VObj [("UNIT", VStr "Damara"); ("LITHCODE", VStr "MC")])])
  = Ok (VStr "Damara").
Proof.
  by apply (proj2 (X1_geological_unit _)
              [("UNIT", VStr "Damara"); ("LITHCODE", VStr "MC")]).
Defined.

(** X2.  [getClusterName] and [getLithCode] return truthy values only, and
    never a value of their own making other than the sentinel: the name is
    "Unknown" or the "Cluster" or " cl name" property of the bag, the code
    is "default" or the "LITHCODE" property.  A truthy "Cluster" wins over
    " cl name", and a truthy "LITHCODE" is returned as it is. *)
Theorem X2_classifier_values (feature : value) :
  (exists n,
      getClusterName feature = Ok n
      /\ truthy n = true
      /\ (n = VStr "Unknown"
          \/ exists props,
              get_opt feature "properties" = Ok (VObj props)
              /\ (assoc "Cluster" props = Some n \/ assoc " cl name" props = Some n)))
  /\ (exists c,
      getLithCode feature = Ok c
      /\ truthy c = true
      /\ (c = VStr "default"
          \/ exists props,
              get_opt feature "properties" = Ok (VObj props)
              /\ assoc "LITHCODE" props = Some c))
  /\ (forall props c,
        get_opt feature "properties" = Ok (VObj props) ->
        assoc "Cluster" props = Some c -> truthy c = true ->
        getClusterName feature = Ok c)
  /\ (forall props c,
        get_opt feature "properties" = Ok (VObj props) ->
        assoc "LITHCODE" props = Some c -> truthy c = true ->
        getLithCode feature = Ok c).
Proof.
  repeat apply conj.
  - unfold getClusterName.
    destruct (getProps_bag feature "Cluster") as (p & x & Hp & Hx & Hfrom).
    destruct (getProps_bag feature " cl name") as (p' & y & Hp' & Hy & Hfrom').
    rewrite Hp in Hp'. injection Hp' as <-. rewrite Hp. simpl. rewrite Hx. simpl.
    unfold js_or at 1. destruct (truthy x) eqn:Htx.
    + exists x. repeat split; try done.
      destruct Hfrom as [-> | (props & Hprops & Hk)]; [done|].
      right. exists props. split; [done | by left].
    + rewrite Hy. simpl. unfold js_or. destruct (truthy y) eqn:Hty.
      * exists y. repeat split; try done.
        destruct Hfrom' as [-> | (props & Hprops & Hk)]; [done|].
        right. exists props. split; [done | by right].
      * exists (VStr "Unknown"). repeat split; try done. by left.
  - by apply (one_key_classifier feature "LITHCODE" (VStr "default")).
  - intros props c Hp Hc Ht. unfold getClusterName.
    rewrite (getProps_object _ _ Hp). simpl. rewrite Hc. simpl.
    by apply js_or_truthy.
  - intros props c. apply one_key_truthy.
Qed.

Lemma X2_classifier_values_witness :
  getClusterName
    (feature_of [("Cluster", VStr "North"); (" cl name", VStr "West")])
  = Ok (VStr "North")
  /\ getLithCode (feature_of [("LITHCODE", VNum (num_of_Z 12))])
     = Ok (VNum (num_of_Z 12)).
Proof.
  split.
  - by apply (proj1 (proj2 (proj2 (X2_classifier_values _)))
                [("Cluster", VStr "North"); (" cl name", VStr "West")]).
  - by apply (proj2 (proj2 (proj2 (X2_classifier_values _)))
                [("LITHCODE", VNum (num_of_Z 12))]).
Defined.

(** ** Style resolver *)

Lemma Ok_inj {A} (a b : A) : Ok a = Ok b -> a = b.
Proof. congruence. Qed.

Lemma assoc_elem_of_pair {V} k (ps : list (string * V)) x :
  assoc k ps = Some x -> (k, x) ∈ ps.
Proof.
  induction ps as [|[k' v] ps IH]; simpl; [done|].
  destruct (String.eqb_spec k k') as [->|_].
  - intros [= ->]. by left.
  - intros Hx. right. by apply IH.
Qed.

Section StyleProperties.
Context `{NumberConversions}.

(** A conversion to a string raises nothing but a [TypeError], and does
    not raise on a primitive. *)
Lemma ToString_array x rest :
  ToString (VArr (x :: rest))
  = s ← match x with
        | VUndef | VNull => Ok ""
        | _ => ToString x
        end;
    match rest with
    | [] => Ok s
    | _ => r ← ToString (VArr rest); Ok (s +:+ "," +:+ r)
    end.
Proof. reflexivity. Qed.

Lemma ToString_error v e : ToString v = Throw e -> e = TypeError.
Proof.
  revert e.
  induction v as [| | b | n | s | elts IH | props _] using value_nested_ind;
    intros e; try done.
  - by destruct b.
  - induction IH as [|x rest Hx _ IHrest]; [done|].
    rewrite ToString_array.
    destruct (match x with VUndef | VNull => Ok "" | _ => ToString x end)
      as [sx|ex] eqn:Ex; cbn [mbind result_bind].
    + destruct rest as [|y rest']; [done|].
      destruct (ToString (VArr (y :: rest'))) as [r|er]; cbn [mbind result_bind].
      * done.
      * intros [= <-]. by apply IHrest.
    + intros [= <-]. destruct x; try done; by apply Hx.
  - simpl. destruct (assoc "toString" props); [by intros [= <-] | done].
Qed.

Lemma ToString_primitive v : primitive v = true -> returns (ToString v).
Proof. destruct v as [| | [|] | | | |]; simpl; try done; by eexists. Qed.

Lemma ToNumber_error v e : ToNumber v = Throw e -> e = TypeError.
Proof.
  destruct v as [| | [|] | | | elts | props]; try done;
    unfold ToNumber; destruct (ToString _) as [s|e'] eqn:Es; simpl; try done;
    intros [= <-]; by eapply ToString_error.
Qed.

Lemma ToNumber_primitive v : primitive v = true -> returns (ToNumber v).
Proof. destruct v as [| | [|] | | | |]; simpl; try done; by eexists. Qed.

Lemma geojsonColors_of_milestone feature m :
  getMilestone feature = Ok m ->
  geojsonColors feature
  = Ok {| style_color := VStr "#000";
          style_fillColor :=
            VStr (from_option color "#374151"
                    (assoc (Number_toString m) milestoneColors));
          style_weight := VNum (num_of_Z 2);
          style_fillOpacity := VNum num_0_7 |}.
Proof. intros Hm. unfold geojsonColors. rewrite Hm. simpl. by rewrite milestone_fill. Qed.

Lemma milestoneLabel_of_milestone feature m :
  getMilestone feature = Ok m ->
  milestoneLabel feature
  = Ok (VStr (from_option label "Unknown"
                (assoc (Number_toString m) milestoneColors))).
Proof. intros Hm. unfold milestoneLabel. rewrite Hm. simpl. by rewrite milestone_label. Qed.

Lemma geologicalLayerColors_of_key feature code key :
  getLithCode feature = Ok code -> ToPropertyKey code = Ok key ->
  geologicalLayerColors feature
  = Ok {| style_color := VStr "#000";
          style_fillColor :=
            VStr (from_option color "#118AB2" (assoc key geologicalColors));
          style_weight := VNum (num_of_Z 2);
          style_fillOpacity := VNum num_0_7 |}.
Proof.
  intros Hc Hk. unfold geologicalLayerColors. rewrite Hc. simpl. rewrite Hk. simpl.
  by rewrite geological_fill.
Qed.

Lemma getMilestone_error feature e : getMilestone feature = Throw e -> e = TypeError.
Proof.
  unfold getMilestone.
  destruct (getProps_bag feature "Milestone") as (p & x & Hp & Hx & _).
  rewrite Hp. simpl. rewrite Hx. simpl. apply ToNumber_error.
Qed.

Lemma getMilestone_primitive feature :
  (forall props,
      get_opt feature "properties" = Ok (VObj props) ->
      primitive (default VUndef (assoc "Milestone" props)) = true) ->
  returns (getMilestone feature).
Proof.
  intros Hprim. unfold getMilestone.
  destruct (getProps_bag feature "Milestone") as (p & x & Hp & Hx & Hfrom).
  rewrite Hp. simpl. rewrite Hx. simpl. apply ToNumber_primitive.
  destruct Hfrom as [-> | (props & Hp0 & Hx0)]; [done|].
  specialize (Hprim props Hp0). rewrite Hx0 in Hprim. simpl in Hprim.
  by destruct x.
Qed.

(** X3.  A style function returns on every feature whose "Milestone"
    (for [geojsonColors]) or "LITHCODE" (for [geologicalLayerColors]) is
    absent or is not an array or object, in particular on a feature
    without a property bag; and when a style function raises, what it
    raises is a [TypeError]. *)
Theorem X3_style_errors (feature : value) :
  ((forall props,
       get_opt feature "properties" = Ok (VObj props) ->
       primitive (default VUndef (assoc "Milestone" props)) = true) ->
   returns (geojsonColors feature))
  /\ ((forall props,
         get_opt feature "properties" = Ok (VObj props) ->
         primitive (default VUndef (assoc "LITHCODE" props)) = true) ->
      returns (geologicalLayerColors feature))
  /\ (forall e, geojsonColors feature = Throw e -> e = TypeError)
  /\ (forall e, geologicalLayerColors feature = Throw e -> e = TypeError).
Proof.
  repeat apply conj.
  - intros Hprim. destruct (getMilestone_primitive feature Hprim) as [m Hm].
    rewrite (geojsonColors_of_milestone _ _ Hm). by eexists.
  - intros Hprim.
    destruct (one_key_classifier feature "LITHCODE" (VStr "default") eq_refl)
      as (c & Hc & _ & Hfrom).
    assert (Hpc : primitive c = true).
    { destruct Hfrom as [-> | (props & Hp & Hk)]; [done|].
      specialize (Hprim props Hp). by rewrite Hk in Hprim. }
    destruct (ToString_primitive c Hpc) as [key Hkey].
    rewrite (geologicalLayerColors_of_key _ _ _ Hc Hkey). by eexists.
  - intros e. destruct (getMilestone feature) as [m|e'] eqn:Hm.
    + by rewrite (geojsonColors_of_milestone _ _ Hm).
    + unfold geojsonColors. rewrite Hm. simpl. intros [= <-].
      by eapply getMilestone_error.
  - intros e.
    destruct (one_key_classifier feature "LITHCODE" (VStr "default") eq_refl)
      as (c & Hc & _ & _).
    destruct (ToPropertyKey c) as [key|e'] eqn:Hk.
    + by rewrite (geologicalLayerColors_of_key _ _ _ Hc Hk).
    + unfold geologicalLayerColors.
      change (getLithCode feature = Ok c) in Hc. rewrite Hc. simpl.
      rewrite Hk. simpl. intros [= <-]. by eapply ToString_error.
Qed.

(** X4.  The label of a cluster's tooltip and its fill colour come from
    the same row of [milestoneColors], or are both the defaults: a
    feature is labelled "Unknown" exactly when it is filled with the
    default gray. *)
Theorem X4_label_matches_fill (feature : value) (s : Style) (l : value) :
  geojsonColors feature = Ok s ->
  milestoneLabel feature = Ok l ->
  (exists key r,
      (key, r) ∈ milestoneColors
      /\ style_fillColor s = VStr (color r) /\ l = VStr (label r))
  \/ (style_fillColor s = VStr "#374151" /\ l = VStr "Unknown").
Proof.
  intros Hs Hl. destruct (getMilestone feature) as [m|e] eqn:Hm.
  - rewrite (geojsonColors_of_milestone _ _ Hm) in Hs.
    rewrite (milestoneLabel_of_milestone _ _ Hm) in Hl.
    apply Ok_inj in Hs, Hl. subst s l. cbn [style_fillColor].
    destruct (assoc (Number_toString m) milestoneColors) as [r|] eqn:Hr.
    + left. exists (Number_toString m), r. split; [|done].
      by apply assoc_elem_of_pair.
    + by right.
  - unfold geojsonColors in Hs. by rewrite Hm in Hs.
Qed.

(** X5.  A feature whose bag has no "Milestone", or has it bound to null,
    is classified 0, and 0 is a row of the table: the feature is styled
    and labelled as "Unopened", not as unknown.  So is a feature without
    a property bag. *)
Theorem X5_missing_milestone_is_unopened (feature : value) :
  (forall props,
      get_opt feature "properties" = Ok (VObj props) ->
      assoc "Milestone" props = None \/ assoc "Milestone" props = Some VNull) ->
  getMilestone feature = Ok (num_of_Z 0)
  /\ style_fillColor <$> geojsonColors feature = Ok (VStr "#BCCFB4")
  /\ milestoneLabel feature = Ok (VStr "Unopened").
Proof.
  intros Hmissing.
  assert (Hm : getMilestone feature = Ok (num_of_Z 0)).
  { unfold getMilestone.
    destruct (getProps_bag feature "Milestone") as (p & x & Hp & Hx & Hfrom).
    rewrite Hp. simpl. rewrite Hx. simpl.
    destruct Hfrom as [-> | (props & Hp0 & Hx0)]; [done|].
    destruct (Hmissing props Hp0) as [Hn | Hn]; rewrite Hn in Hx0; [done|].
    by injection Hx0 as <-. }
  split; [done|].
  by rewrite (geojsonColors_of_milestone _ _ Hm), (milestoneLabel_of_milestone _ _ Hm).
Qed.
End StyleProperties.

Lemma X3_style_errors_witness :
  returns (@geojsonColors integer_conversions
             (feature_of [("Milestone", VStr "two")]))
  /\ returns (@geologicalLayerColors integer_conversions (VStr "not a feature")).
Proof.
  split.
  - apply (@X3_style_errors integer_conversions). intros props [= <-]. done.
  - apply (@X3_style_errors integer_conversions). intros props. done.
Defined.

Lemma X4_label_matches_fill_witness :
  (exists key r,
      (key, r) ∈ milestoneColors
      /\ VStr "#09622A" = VStr (color r) /\ VStr "Milestone 3" = VStr (label r))
  \/ (VStr "#09622A" = VStr "#374151" /\ VStr "Milestone 3" = VStr "Unknown").
Proof.
  exact (@X4_label_matches_fill integer_conversions
           (feature_of [("Milestone", VStr "3")]) _ _ eq_refl eq_refl).
Defined.

Lemma X5_missing_milestone_is_unopened_witness :
  @milestoneLabel integer_conversions
    (VObj [("properties", VObj [("Cluster", VStr "West"); ("Milestone", VNull)])])
  = Ok (VStr "Unopened").
Proof.
  apply (@X5_missing_milestone_is_unopened integer_conversions).
  intros props [= <-]. by right.
Defined.

(** ** Legend and style resolver together *)

Lemma elem_of_Object_values key r (table : list (string * StyleRule)) :
  (key, r) ∈ table -> r ∈ Object_values table.
Proof. intros Hin. unfold Object_values. apply list_elem_of_fmap. by exists (key, r). Qed.

Section LegendStyleProperties.
Context `{NumberConversions}.

(** X6.  The legends show the colours in use.  The fill colour of a
    geological feature is the colour of a row of the Geology legend; the
    fill colour of a cluster is the colour of a row of the Milestones
    legend or the default gray, which no legend shows; and every row of
    either legend is the fill colour of some feature. *)
Theorem X6_fill_in_legend :
  (forall feature s,
      geologicalLayerColors feature = Ok s ->
      exists row,
        row ∈ rows (onAdd geological) /\ style_fillColor s = VStr (color row))
  /\ (forall feature s,
        geojsonColors feature = Ok s ->
        (exists row,
            row ∈ rows (onAdd clusters) /\ style_fillColor s = VStr (color row))
        \/ style_fillColor s = VStr "#374151")
  /\ (forall layer row, row ∈ rows (onAdd layer) -> color row <> "#374151")
  /\ (forall row,
        row ∈ rows (onAdd geological) ->
        exists feature s,
          geologicalLayerColors feature = Ok s
          /\ style_fillColor s = VStr (color row))
  /\ (forall row,
        row ∈ rows (onAdd clusters) ->
        exists feature s,
          geojsonColors feature = Ok s /\ style_fillColor s = VStr (color row)).
Proof.
  repeat apply conj.
  - intros feature s Hs.
    destruct (getLithCode feature) as [c|e] eqn:Hc;
      [|by unfold geologicalLayerColors in Hs; rewrite Hc in Hs].
    destruct (ToPropertyKey c) as [key|e] eqn:Hk;
      [|by unfold geologicalLayerColors in Hs; rewrite Hc in Hs; simpl in Hs;
           rewrite Hk in Hs].
    rewrite (geologicalLayerColors_of_key _ _ _ Hc Hk) in Hs.
    apply Ok_inj in Hs. subst s. cbn [style_fillColor].
    destruct (assoc key geologicalColors) as [r|] eqn:Hr.
    + exists r. split; [|done].
      eapply elem_of_Object_values, assoc_elem_of_pair, Hr.
    + exists {| label := "Other"; color := "#118AB2" |}. split; [|done].
      simpl. repeat constructor.
  - intros feature s Hs.
    destruct (getMilestone feature) as [m|e] eqn:Hm;
      [|by unfold geojsonColors in Hs; rewrite Hm in Hs].
    rewrite (geojsonColors_of_milestone _ _ Hm) in Hs.
    apply Ok_inj in Hs. subst s. cbn [style_fillColor].
    destruct (assoc (Number_toString m) milestoneColors) as [r|] eqn:Hr.
    + left. exists r. split; [|done].
      eapply elem_of_Object_values, assoc_elem_of_pair, Hr.
    + by right.
  - intros layer row Hrow. destruct layer; simpl in Hrow;
      repeat (apply elem_of_cons in Hrow as [-> | Hrow]; [done|]);
      by apply elem_of_nil in Hrow.
  - intros row Hrow. simpl in Hrow.
    apply elem_of_cons in Hrow as [-> | Hrow];
      [exists (feature_of [("LITHCODE", VStr "MC")]); by eexists|].
    apply elem_of_cons in Hrow as [-> | Hrow];
      [exists (feature_of [("LITHCODE", VStr "GR")]); by eexists|].
    apply elem_of_cons in Hrow as [-> | Hrow];
      [exists (feature_of [("LITHCODE", VStr "SED")]); by eexists|].
    apply elem_of_cons in Hrow as [-> | Hrow];
      [exists (feature_of [("LITHCODE", VStr "VOL")]); by eexists|].
    apply elem_of_cons in Hrow as [-> | Hrow];
      [exists (feature_of []); by eexists|].
    by apply elem_of_nil in Hrow.
  - intros row Hrow. simpl in Hrow.
    apply elem_of_cons in Hrow as [-> | Hrow];
      [exists (feature_of [("Milestone", VNum (num_of_Z 0))]); by eexists|].
    apply elem_of_cons in Hrow as [-> | Hrow];
      [exists (feature_of [("Milestone", VNum (num_of_Z 1))]); by eexists|].
    apply elem_of_cons in Hrow as [-> | Hrow];
      [exists (feature_of [("Milestone", VNum (num_of_Z 2))]); by eexists|].
    apply elem_of_cons in Hrow as [-> | Hrow];
      [exists (feature_of [("Milestone", VNum (num_of_Z 3))]); by eexists|].
    by apply elem_of_nil in Hrow.
Qed.

(** X7.  The two versions of [geojsonColors] return on the same features,
    with the same stroke colour and weight, and with the same fill colour
    whenever the milestone is a row of the table.  They differ in the fill
    opacity, 1 against 0.7, and in the default fill: the earlier version's
    is "374151", without the leading "#". *)
Theorem X7_versions_compared (feature : value) :
  (returns (Legacy.geojsonColors feature) <-> returns (geojsonColors feature))
  /\ (forall old new,
        Legacy.geojsonColors feature = Ok old ->
        geojsonColors feature = Ok new ->
        style_color old = style_color new
        /\ style_weight old = style_weight new
        /\ style_fillOpacity old = VNum (num_of_Z 1)
        /\ style_fillOpacity new = VNum num_0_7
        /\ style_fillOpacity old <> style_fillOpacity new
        /\ (style_fillColor old = style_fillColor new
            \/ (style_fillColor old = VStr "374151"
                /\ style_fillColor new = VStr "#374151"))).
Proof.
  unfold Legacy.geojsonColors.
  destruct (getMilestone feature) as [m|e] eqn:Hm.
  - rewrite (geojsonColors_of_milestone _ _ Hm). cbn [mbind result_bind].
    rewrite milestone_fill. cbn [mbind result_bind].
    split; [split; intros _; by eexists|].
    intros old new Hold Hnew. apply Ok_inj in Hold, Hnew. subst old new.
    cbn [style_color style_weight style_fillOpacity style_fillColor].
    repeat apply conj; try done.
    destruct (assoc (Number_toString m) milestoneColors); [by left | by right].
  - unfold geojsonColors. rewrite Hm. simpl.
    split; [split; intros [? ?]; done | done].
Qed.
End LegendStyleProperties.

Lemma X7_versions_compared_witness :
  exists old new,
    @Legacy.geojsonColors integer_conversions (feature_of [("Milestone", VStr "9")])
    = Ok old
    /\ @geojsonColors integer_conversions (feature_of [("Milestone", VStr "9")])
       = Ok new
    /\ style_fillOpacity old <> style_fillOpacity new
    /\ style_fillColor old = VStr "374151"
    /\ style_fillColor new = VStr "#374151".
Proof.
  eexists _, _. split; [reflexivity|]. split; [reflexivity|].
  destruct (proj2 (@X7_versions_compared integer_conversions
                     (feature_of [("Milestone", VStr "9")])) _ _ eq_refl eq_refl)
    as (_ & _ & _ & _ & Hopacity & _).
  by split.
Defined.

Lemma X6_fill_in_legend_witness :
  exists row,
    row ∈ rows (onAdd geological) /\ VStr "#FCBF49" = VStr (color row).
Proof.
  exact (proj1 (@X6_fill_in_legend integer_conversions)
           (feature_of [("LITHCODE", VStr "SED")]) _ eq_refl).
Defined.

(** ** Milestones that are integers *)

Lemma decimal_digits_inj z z' :
  (0 < z)%Z -> (0 < z')%Z -> decimal_digits z = decimal_digits z' -> z = z'.
Proof.
  intros Hz Hz' Heq. unfold decimal_digits in Heq.
  apply (f_equal NilEmpty.uint_of_string) in Heq.
  rewrite !NilEmpty.usu in Heq. injection Heq as Heq.
  apply (f_equal Pos.of_uint) in Heq.
  rewrite !DecimalPos.Unsigned.of_to in Heq. injection Heq as Heq.
  by apply Z2Pos.inj.
Qed.

Lemma decimal_digits_not_zero z : decimal_digits z <> "0".
Proof.
  intros Heq. unfold decimal_digits in Heq.
  apply (f_equal NilEmpty.uint_of_string) in Heq.
  rewrite NilEmpty.usu in Heq. simpl in Heq. injection Heq as Heq.
  apply (f_equal Pos.of_uint) in Heq.
  by rewrite DecimalPos.Unsigned.of_to in Heq.
Qed.

Lemma safe_integer_positive m e z : safe_integer m e = Some z -> (0 < z)%Z.
Proof.
  unfold safe_integer. destruct (0 <=? e)%Z eqn:He.
  - destruct (_ <=? 2 ^ 53)%Z; [|done]. intros [= <-].
    apply Z.leb_le in He. apply Z.mul_pos_pos; [done|]. by apply Z.pow_pos_nonneg.
  - destruct (_ =? 0)%Z eqn:Hmod; [|done].
    destruct (_ <=? 2 ^ 53)%Z; [|done]. intros [= <-].
    apply Z.leb_gt in He. apply Z.eqb_eq in Hmod.
    assert (Hd : (0 < 2 ^ (- e))%Z) by (apply Z.pow_pos_nonneg; lia).
    pose proof (Z.div_mod (Z.pos m) (2 ^ (- e)) ltac:(lia)) as Hdiv.
    rewrite Hmod in Hdiv. nia.
Qed.

Section IntegerMilestones.
Context `{NumberConversions}.

Lemma integer_key_fill sign m e z :
  safe_integer m e = Some z ->
  from_option color "#374151"
    (assoc (Number_toString (S754_finite sign m e)) milestoneColors)
  = integer_fill sign z.
Proof.
  intros Hz. pose proof (safe_integer_positive _ _ _ Hz) as Hpos.
  unfold Number_toString. rewrite Hz. destruct sign; [done|].
  change ("" +:+ decimal_digits z) with (decimal_digits z).
  unfold integer_fill.
  destruct (Z.eqb_spec z 1) as [->|H1]; [done|].
  destruct (Z.eqb_spec z 2) as [->|H2]; [done|].
  destruct (Z.eqb_spec z 3) as [->|H3]; [done|].
  rewrite milestone_key_absent; [done|].
  rewrite !not_elem_of_cons. repeat apply conj.
  - apply decimal_digits_not_zero.
  - intros Heq. apply (decimal_digits_inj z 1) in Heq; lia.
  - intros Heq. apply (decimal_digits_inj z 2) in Heq; lia.
  - intros Heq. apply (decimal_digits_inj z 3) in Heq; lia.
  - apply not_elem_of_nil.
Qed.

(** X8.  By the number that the milestone is: zero of either sign is
    filled as "Unopened"; an integer of magnitude up to [2^53] is filled
    with the colour of its row when it is 1, 2 or 3 and with the default
    gray otherwise, whatever its size or sign; NaN and the infinities are
    filled with the default gray. *)
Theorem X8_integer_milestones (feature : value) (x : number) (s : Style) :
  getMilestone feature = Ok x ->
  geojsonColors feature = Ok s ->
  match x with
  | S754_zero _ => style_fillColor s = VStr "#BCCFB4"
  | S754_nan | S754_infinity _ => style_fillColor s = VStr "#374151"
  | S754_finite sign m e =>
      forall z, safe_integer m e = Some z ->
                style_fillColor s = VStr (integer_fill sign z)
  end.
Proof.
  intros Hx Hs. rewrite (geojsonColors_of_milestone _ _ Hx) in Hs.
  apply Ok_inj in Hs. subst s. cbn [style_fillColor].
  destruct x as [sign | [|] | | sign m e]; try done.
  intros z Hz. by rewrite (integer_key_fill _ _ _ _ Hz).
Qed.
End IntegerMilestones.

Lemma X8_integer_milestones_witness :
  style_fillColor <$> @geojsonColors integer_conversions
                        (feature_of [("Milestone", VNum (num_of_Z (-2)))])
  = Ok (VStr "#374151").
Proof.
  pose proof (@X8_integer_milestones integer_conversions
                (feature_of [("Milestone", VNum (num_of_Z (-2)))])
                (num_of_Z (-2)) _ eq_refl eq_refl 2%Z eq_refl) as Hfill.
  exact (f_equal Ok Hfill).
Defined.

(** ** Interaction *)

Lemma setStyle_all (s current : Style) : setStyle (style_options s) current = s.
Proof. by destruct s. Qed.

Lemma setStyle_weight_twice w (s : Style) :
  setStyle [("weight", w)] (setStyle [("weight", w)] s) = setStyle [("weight", w)] s.
Proof. done. Qed.

(** The styles a layer goes through: the one of its style function and
    the same with weight 3. *)
Lemma hover_handlers_styles over style feature base names current :
  style feature = Ok base ->
  current = base \/ current = setStyle [("weight", VNum (num_of_Z 3))] base ->
  exists final,
    fire_all (hover_handlers over style feature) names current = Ok final
    /\ (final = base \/ final = setStyle [("weight", VNum (num_of_Z 3))] base).
Proof.
  intros Hbase. revert current.
  induction names as [|name rest IH]; intros current Hcur; [by exists current|].
  cbn [fire_all].
  assert (Hfire : exists next,
             fire (hover_handlers over style feature) name current = Ok next
             /\ (next = base
                 \/ next = setStyle [("weight", VNum (num_of_Z 3))] base)).
  { unfold fire, hover_handlers. cbn [assoc].
    destruct (String.eqb name over).
    { eexists. split; [done|]. right.
      destruct Hcur as [-> | ->]; [done | apply setStyle_weight_twice]. }
    destruct (String.eqb name "mouseout").
    { rewrite Hbase. cbn [mbind result_bind]. rewrite setStyle_all.
      eexists. split; [done | by left]. }
    destruct (String.eqb name "click"); by exists current. }
  destruct Hfire as (next & -> & Hnext). cbn [mbind result_bind]. by apply IH.
Qed.

Lemma fire_all_app handlers names names' current :
  fire_all handlers (names ++ names') current
  = (middle ← fire_all handlers names current; fire_all handlers names' middle).
Proof.
  revert current. induction names as [|name rest IH]; intros current; [done|].
  cbn [app fire_all]. destruct (fire handlers name current); [apply IH | done].
Qed.

Section InteractionProperties.
Context `{NumberConversions}.

(** X9.  Hovering is undone by leaving.  Whatever events a layer of the
    reference version has seen, its style is the one of its style function
    or that one with weight 3; after a [mouseout] it is the style of the
    style function, and after a [mouseover] that style with weight 3; a
    [click] leaves whatever style the layer has.  All of it holds for the
    handlers of a cluster and for those of a geological feature. *)
Theorem X9_hover_round_trip (cluster geo : value) (base base' : Style)
    (names : list string) :
  geojsonColors cluster = Ok base ->
  geologicalLayerColors geo = Ok base' ->
  (exists final,
      fire_all (cluster_handlers cluster) names base = Ok final
      /\ (final = base \/ final = setStyle [("weight", VNum (num_of_Z 3))] base))
  /\ fire_all (cluster_handlers cluster) (names ++ ["mouseout"]) base = Ok base
  /\ fire_all (cluster_handlers cluster) (names ++ ["mouseover"]) base
     = Ok (setStyle [("weight", VNum (num_of_Z 3))] base)
  /\ fire_all (geological_handlers geo) (names ++ ["mouseout"]) base' = Ok base'
  /\ fire_all (geological_handlers geo) (names ++ ["mouseover"]) base'
     = Ok (setStyle [("weight", VNum (num_of_Z 3))] base')
  /\ (exists final',
      fire_all (geological_handlers geo) names base' = Ok final'
      /\ (final' = base'
          \/ final' = setStyle [("weight", VNum (num_of_Z 3))] base'))
  /\ (forall current, fire (cluster_handlers cluster) "click" current = Ok current)
  /\ (forall current, fire (geological_handlers geo) "click" current = Ok current)
  /\ fire_all (cluster_handlers cluster) (names ++ ["click"]) base
     = fire_all (cluster_handlers cluster) names base
  /\ fire_all (geological_handlers geo) (names ++ ["click"]) base'
     = fire_all (geological_handlers geo) names base'.
Proof.
  intros Hbase Hbase'. unfold cluster_handlers, geological_handlers.
  destruct (hover_handlers_styles "mouseover" geojsonColors cluster base names base
              Hbase (or_introl eq_refl)) as (final & Hfinal & Hcases).
  destruct (hover_handlers_styles "mouseover" geologicalLayerColors geo base' names
              base' Hbase' (or_introl eq_refl)) as (final' & Hfinal' & Hcases').
  repeat apply conj.
  - by exists final.
  - rewrite fire_all_app, Hfinal. cbn. rewrite Hbase. cbn. by rewrite setStyle_all.
  - rewrite fire_all_app, Hfinal. cbn.
    destruct Hcases as [-> | ->]; [done | by rewrite setStyle_weight_twice].
  - rewrite fire_all_app, Hfinal'. cbn. rewrite Hbase'. cbn. by rewrite setStyle_all.
  - rewrite fire_all_app, Hfinal'. cbn.
    destruct Hcases' as [-> | ->]; [done | by rewrite setStyle_weight_twice].
  - by exists final'.
  - done.
  - done.
  - by rewrite fire_all_app, Hfinal.
  - by rewrite fire_all_app, Hfinal'.
Qed.

(** X10.  In the earlier version the first handler is registered under
    [mouserover], a name under which Leaflet sends no event: whatever
    other events a layer sees, [mouseover] among them, its style stays the
    one of its style function. *)
Theorem X10_legacy_hover_has_no_effect (feature : value) (base : Style)
    (names : list string) :
  Legacy.geojsonColors feature = Ok base ->
  "mouserover" ∉ names ->
  fire_all (Legacy.cluster_handlers feature) names base = Ok base.
Proof.
  intros Hbase. unfold Legacy.cluster_handlers.
  induction names as [|name rest IH]; intros Hnames; [done|].
  apply not_elem_of_cons in Hnames as [Hname Hrest].
  cbn [fire_all].
  assert (Hfire : fire (hover_handlers "mouserover" Legacy.geojsonColors feature)
                       name base = Ok base).
  { unfold fire, hover_handlers. cbn [assoc].
    destruct (String.eqb_spec name "mouserover"); [done|].
    destruct (String.eqb name "mouseout").
    { rewrite Hbase. cbn [mbind result_bind]. by rewrite setStyle_all. }
    by destruct (String.eqb name "click"). }
  rewrite Hfire. cbn [mbind result_bind]. by apply IH.
Qed.
End InteractionProperties.

Lemma X9_hover_round_trip_witness :
  let cluster := feature_of [("Milestone", VNum (num_of_Z 1))] in
  let geo := feature_of [("LITHCODE", VStr "VOL")] in
  exists base base',
    @geojsonColors integer_conversions cluster = Ok base
    /\ @geologicalLayerColors integer_conversions geo = Ok base'
    /\ fire_all (@cluster_handlers integer_conversions cluster)
         (["mouseover"; "click"; "mousemove"] ++ ["mouseout"]) base
       = Ok base
    /\ fire_all (@geological_handlers integer_conversions geo)
         (["mouseover"; "click"; "mousemove"] ++ ["click"]) base'
       = Ok (setStyle [("weight", VNum (num_of_Z 3))] base')
    /\ fire (@cluster_handlers integer_conversions cluster) "click"
         (setStyle [("weight", VNum (num_of_Z 3))] base)
       = Ok (setStyle [("weight", VNum (num_of_Z 3))] base).
Proof.
  intros cluster geo. eexists _, _.
  split; [reflexivity|]. split; [reflexivity|].
  destruct (@X9_hover_round_trip integer_conversions cluster geo _ _
              ["mouseover"; "click"; "mousemove"] eq_refl eq_refl)
    as (_ & Hout & _ & _ & _ & _ & Hclick & _ & _ & Hgeo).
  split; [exact Hout|]. split; [by rewrite Hgeo | apply Hclick].
Defined.

Lemma X10_legacy_hover_has_no_effect_witness :
  let feature := feature_of [("Milestone", VNum (num_of_Z 1))] in
  exists base,
    @Legacy.geojsonColors integer_conversions feature = Ok base
    /\ fire_all (@Legacy.cluster_handlers integer_conversions feature)
         ["mouseover"; "click"; "mouseout"; "mouseover"] base
       = Ok base.
Proof.
  intros feature. eexists. split; [reflexivity|].
  apply (@X10_legacy_hover_has_no_effect integer_conversions feature _ _ eq_refl).
  rewrite !not_elem_of_cons. repeat apply conj; try discriminate.
  apply not_elem_of_nil.
Defined.

(** ** Coordinate reprojector *)

Section ReprojectorFurther.
Context `{Projection}.

Lemma array_map_Forall2 (f : value -> result value) elts values :
  array_map f elts = Ok values -> Forall2 (fun x y => f x = Ok y) elts values.
Proof.
  revert values. induction elts as [|x rest IH]; intros values; cbn [array_map].
  - intros [= <-]. constructor.
  - destruct (f x) as [y|e] eqn:Hx; cbn [mbind result_bind]; [|done].
    fold (array_map f).
    destruct (array_map f rest) as [ys|e] eqn:Hrest; cbn [mbind result_bind]; [|done].
    intros [= <-]. constructor; [done | by apply IH].
Qed.

Lemma transformCoordinates_array elts :
  (forall n rest, elts <> VNum n :: rest) ->
  transformCoordinates (VArr elts) = VArr <$> array_map transformCoordinates elts.
Proof.
  intros Hhead. destruct elts as [|x rest]; [done|].
  destruct x; try done. by destruct (Hhead n rest).
Qed.

Lemma Forall2_from_Forall {A B} (P Q : A -> B -> Prop) l k :
  Forall (fun x => forall y, P x y -> Q x y) l -> Forall2 P l k -> Forall2 Q l k.
Proof.
  intros Hl Hlk. induction Hlk as [|x y l k Hxy _ IH]; [constructor|].
  apply Forall_cons in Hl as [Hx Hl]. constructor; auto.
Qed.

(** X11.  Whatever it is given, [transformCoordinates] returns only a
    value with the nesting of its argument: it raises unless the argument
    is made of arrays all the way down to arrays headed by a number; an
    array headed by a number comes back as a pair, whatever its length,
    and any other array with as many elements as it had, in their order. *)
Theorem X11_returns_same_nesting (v r : value) :
  transformCoordinates v = Ok r -> same_nesting v r.
Proof.
  revert r.
  induction v as [| | b | n | s | elts IH | props _] using value_nested_ind;
    intros r; try done.
  assert (Hcases : (exists n rest, elts = VNum n :: rest)
                   \/ (forall n rest, elts <> VNum n :: rest)).
  { destruct elts as [|[] rest]; try (by right); left; by eexists _, _. }
  destruct Hcases as [(n & rest & ->) | Hhead].
  - simpl. destruct (proj4 _) as [res|e]; [|done]. intros [= <-]. constructor.
  - rewrite (transformCoordinates_array _ Hhead).
    destruct (array_map transformCoordinates elts) as [values|e] eqn:Hmap; [|done].
    intros [= <-]. constructor; [done|].
    apply array_map_Forall2 in Hmap.
    exact (Forall2_from_Forall (fun x y => transformCoordinates x = Ok y)
             same_nesting _ _ IH Hmap).
Qed.

Lemma first_failure_app ps qs :
  first_failure (ps ++ qs)
  = match first_failure ps with
    | Some e => Some e
    | None => first_failure qs
    end.
Proof.
  induction ps as [|[x y] ps IH]; [done|]. simpl.
  by destruct (proj4 [VNum x; VNum y]).
Qed.

Lemma transformCoordinates_first_failure (c : geometry_coords) :
  match first_failure (positions c) with
  | Some e => transformCoordinates (coords_value c) = Throw e
  | None => returns (transformCoordinates (coords_value c))
  end.
Proof.
  induction c as [x y | children IH] using geometry_coords_nested_ind.
  - simpl. destruct (proj4 [VNum x; VNum y]) as [r|e]; [by eexists | done].
  - rewrite transformCoordinates_nested. cbn [positions].
    assert (Hmap : match first_failure (concat (map positions children)) with
                   | Some e =>
                       array_map transformCoordinates (map coords_value children)
                       = Throw e
                   | None =>
                       returns (array_map transformCoordinates
                                  (map coords_value children))
                   end).
    { induction IH as [|c rest Hc _ IHrest]; [by eexists|].
      cbn [map concat array_map]. rewrite first_failure_app.
      destruct (first_failure (positions c)) as [e|].
      - by rewrite Hc.
      - destruct Hc as [v ->]. cbn [mbind result_bind].
        fold (array_map transformCoordinates).
        destruct (first_failure (concat (map positions rest))) as [e|].
        + by rewrite IHrest.
        + destruct IHrest as [vs ->]. by eexists. }
    destruct (first_failure (concat (map positions children))) as [e|].
    + by rewrite Hmap.
    + destruct Hmap as [vs ->]. by eexists.
Qed.

(** X12.  On a valid coordinate structure [transformCoordinates] fails
    loudly: when the projection raises on one of the positions, the call
    raises the error of the first such position, left to right, and it
    returns when the projection raises on none. *)
Theorem X12_first_failure_raised (c : geometry_coords) :
  (forall e,
      first_failure (positions c) = Some e ->
      transformCoordinates (coords_value c) = Throw e)
  /\ (first_failure (positions c) = None ->
      returns (transformCoordinates (coords_value c))).
Proof.
  pose proof (transformCoordinates_first_failure c) as Hc.
  split.
  - intros e He. by rewrite He in Hc.
  - intros Hnone. by rewrite Hnone in Hc.
Qed.
End ReprojectorFurther.

Lemma X11_returns_same_nesting_witness :
  same_nesting
    (VArr [VArr [VNum (num_of_Z 500000); VNum (num_of_Z 7000000); VNum (num_of_Z 1200)];
           VArr []])
    (VArr [VArr [VNum (num_of_Z 5); VNum (num_of_Z 70)]; VArr []]).
Proof.
  by apply (@X11_returns_same_nesting scaling_projection).
Defined.

Lemma X12_first_failure_raised_witness :
  let c := Nested [Nested [Position (num_of_Z 1) (num_of_Z 2)];
                   Nested [Position NaN (num_of_Z 2);
                           Position (num_of_Z 3) (num_of_Z 4)]] in
  @transformCoordinates checked_projection (coords_value c) = Throw TypeError.
Proof.
  intros c. by apply (@X12_first_failure_raised checked_projection c).
Defined.

(** ** Legend, from the first render *)

Lemma render_with_map (l : Layer) (s : Component) :
  legend_invariant s -> mapRef s <> None ->
  legend_attached (render (with_layer l s)).
Proof.
  intros [[Hmap _] | [[Hmap Hclean] | (id & Hmap & Hclean)]] Hsome; [done| |].
  - unfold render, run_cleanup. simpl. rewrite Hclean.
    unfold legend_effect. simpl. rewrite Hmap. by eexists.
  - by eapply render_attached.
Qed.

Lemma no_map_no_legend (es : list event) (s : Component) :
  MapCreated ∉ es -> mapRef s = None -> cleanup s = None ->
  mapRef (run_events es s) = None /\ cleanup (run_events es s) = None.
Proof.
  revert s. induction es as [|e es IH]; intros s Hes Hmap Hclean; [done|].
  apply not_elem_of_cons in Hes as [He Hes]. simpl.
  assert (Hrender : forall l,
             mapRef (render (with_layer l s)) = None
             /\ cleanup (render (with_layer l s)) = None).
  { intros l. unfold render, run_cleanup. simpl. rewrite Hclean.
    unfold legend_effect. simpl. by rewrite Hmap. }
  destruct e as [l| |]; [| |done].
  - simpl. unfold setActiveLayer. destruct (decide _); [by apply IH|].
    destruct (Hrender l). by apply IH.
  - simpl. rewrite <- (with_layer_same s).
    destruct (Hrender (activeLayer s)). by apply IH.
Qed.

(** X13.  From the first render of the component on, whatever clicks and
    renders follow: the map never carries two legends; it carries none as
    long as the map has not been created; and once the map exists, a
    render, or a click that changes the layer, leaves exactly one legend,
    the one of the active layer. *)
Theorem X13_legend_from_mount (es : list event) :
  let s := run_events es mounted in
  legend_invariant s
  /\ (MapCreated ∉ es -> mapRef s = None /\ cleanup s = None)
  /\ (mapRef s <> None ->
      legend_attached (step Rerender s)
      /\ legend_attached (step (Click (other_layer (activeLayer s))) s)).
Proof.
  intros s. pose proof (mounted_invariant es) as Hinv. fold s in Hinv.
  repeat apply conj; [done | |].
  - intros Hes. by apply no_map_no_legend.
  - intros Hmap. split.
    + simpl. rewrite <- (with_layer_same s). by apply render_with_map.
    + simpl. unfold setActiveLayer.
      destruct (decide _) as [Heq|_]; [by destruct (activeLayer s)|].
      by apply render_with_map.
Qed.

Lemma X13_legend_from_mount_witness :
  let s := run_events [Click geological; MapCreated; Click geological] mounted in
  mapRef s = Some []
  /\ legend_attached (step (Click (other_layer (activeLayer s))) s).
Proof.
  intros s. split; [done|].
  by apply (X13_legend_from_mount [Click geological; MapCreated; Click geological]).
Defined.

(** ** Trees in the store *)

Lemma read_primitive fuel σ v :
  match v with RRef _ => False | _ => True end ->
  read fuel σ v
  = Some match v with
         | RUndef => VUndef
         | RNull => VNull
         | RBool b => VBool b
         | RNum n => VNum n
         | RStr s => VStr s
         | RRef _ => VUndef
         end.
Proof. destruct v; try done; by destruct fuel. Qed.

Lemma denotes_agree σ σ' v t :
  (forall l c, σ !! l = Some c -> σ' !! l = Some c) ->
  denotes σ v t -> denotes σ' v t.
Proof. intros Hagree [n Hn]. exists n. by eapply read_stable. Qed.

Lemma denotes_functional σ v t t' : denotes σ v t -> denotes σ v t' -> t = t'.
Proof.
  intros [n Hn] [m Hm].
  pose proof (read_stable n (n `max` m) σ σ v t ltac:(lia) ltac:(done) Hn) as H1.
  pose proof (read_stable m (n `max` m) σ σ v t' ltac:(lia) ltac:(done) Hm) as H2.
  congruence.
Qed.

Lemma read_tree_denotes σ v t : read_tree σ v = Some t -> denotes σ v t.
Proof. intros Ht. by exists (length σ). Qed.

(** Children that are denoted are denoted with one and the same fuel. *)
Lemma denotes_elts σ vs ts :
  Forall2 (denotes σ) vs ts ->
  exists n, forall m, n <= m -> mapM (read m σ) vs = Some ts.
Proof.
  intros Hvs.
  assert (Hn : exists n, forall m, n <= m ->
                 Forall2 (fun v t => read m σ v = Some t) vs ts).
  { induction Hvs as [|v t vs ts [n Hn] _ (n' & IH)].
    - exists 0. constructor.
    - exists (n `max` n'). intros m Hm. constructor; [|apply IH; lia].
      by apply (read_stable n m σ σ v t ltac:(lia)). }
  destruct Hn as [n Hn]. exists n. intros m Hm. by apply mapM_Some, Hn.
Qed.

Lemma denotes_props σ (vs : list (string * ref_value)) (ts : list (string * value)) :
  Forall2 (fun kv kt => kv.1 = kt.1 /\ denotes σ kv.2 kt.2) vs ts ->
  exists n, forall m, n <= m -> mapM (read_prop m σ) vs = Some ts.
Proof.
  intros Hvs.
  assert (Hn : exists n, forall m, n <= m ->
                 Forall2 (fun kv kt => read_prop m σ kv = Some kt) vs ts).
  { induction Hvs as [|[k v] [k' t] vs ts [Hk [n Hn]] _ (n' & IH)].
    - exists 0. constructor.
    - simpl in Hk, Hn. subst k'. exists (n `max` n'). intros m Hm.
      constructor; [|apply IH; lia]. unfold read_prop. simpl.
      by rewrite (read_stable n m σ σ v t ltac:(lia) ltac:(done) Hn). }
  destruct Hn as [n Hn]. exists n. intros m Hm. by apply mapM_Some, Hn.
Qed.

Lemma denotes_array σ l vs ts :
  σ !! l = Some (CArr vs) -> Forall2 (denotes σ) vs ts ->
  denotes σ (RRef l) (VArr ts).
Proof.
  intros Hl Hvs. destruct (denotes_elts _ _ _ Hvs) as [n Hn].
  exists (S n). simpl. rewrite Hl. by rewrite (Hn n).
Qed.

Lemma denotes_object σ l vs ts :
  σ !! l = Some (CObj vs) ->
  Forall2 (fun kv kt => kv.1 = kt.1 /\ denotes σ kv.2 kt.2) vs ts ->
  denotes σ (RRef l) (VObj ts).
Proof.
  intros Hl Hvs. destruct (denotes_props _ _ _ Hvs) as [n Hn].
  exists (S n). simpl. rewrite Hl.
  change (fun kv : string * ref_value => pair kv.1 <$> read n σ kv.2)
    with (read_prop n σ).
  by rewrite (Hn n).
Qed.

Lemma in_range_weaken a b a' b' v :
  a' <= a -> b <= b' -> in_range a b v -> in_range a' b' v.
Proof. destruct v; simpl; lia. Qed.

Lemma laid_le σ t : forall v a b, laid σ t v a b -> a <= b.
Proof.
  induction t as [| | x | x | x | ts IH | ts IH] using value_nested_ind;
    intros v a b; simpl; try (intros [_ ->]; lia).
  - intros (l & vs & _ & -> & _ & Hts).
    enough (a <= l) by lia. revert vs a Hts.
    induction IH as [|t ts Ht _ IHts]; intros [|w ws] a; simpl; try done; [lia|].
    intros (b & Hb & Hrest). apply Ht in Hb. apply IHts in Hrest. lia.
  - intros (l & vs & _ & -> & _ & Hts).
    enough (a <= l) by lia. revert vs a Hts.
    induction IH as [|[k t] ts Ht _ IHts]; intros [|[k' w] ws] a; simpl; try done;
      [lia|].
    intros (_ & b & Hb & Hrest). apply Ht in Hb. apply IHts in Hrest. lia.
Qed.

Lemma laid_elts_le σ ts vs a c : laid_elts (laid σ) ts vs a c -> a <= c.
Proof.
  revert vs a. induction ts as [|t ts IH]; intros [|v vs] a; simpl; try done; [lia|].
  intros (b & Hb & Hrest). apply laid_le in Hb. apply IH in Hrest. lia.
Qed.

Lemma laid_props_le σ ts vs a c : laid_props (laid σ) ts vs a c -> a <= c.
Proof.
  revert vs a. induction ts as [|[k t] ts IH]; intros [|[k' v] vs] a; simpl;
    try done; [lia|].
  intros (_ & b & Hb & Hrest). apply laid_le in Hb. apply IH in Hrest. lia.
Qed.

(** A laid tree depends only on its own cells. *)
Lemma laid_local σ σ' t :
  forall v a b,
    laid σ t v a b -> (forall l, a <= l < b -> σ' !! l = σ !! l) -> laid σ' t v a b.
Proof.
  induction t as [| | x | x | x | ts IH | ts IH] using value_nested_ind;
    intros v a b; simpl; try done.
  - intros (l & vs & -> & -> & Hl & Hts) Hagree.
    pose proof (laid_elts_le _ _ _ _ _ Hts) as Hal.
    exists l, vs. repeat split; [rewrite Hagree; [done|lia]|].
    assert (Hsub : forall l', a <= l' < l -> σ' !! l' = σ !! l')
      by (intros l' Hl'; apply Hagree; lia).
    clear Hagree Hl. revert vs a Hts Hal Hsub.
    induction IH as [|t ts Ht _ IHts]; intros [|v vs] a; simpl; try done.
    intros (b & Hb & Hrest) Hal Hsub.
    pose proof (laid_le _ _ _ _ _ Hb) as Hab.
    pose proof (laid_elts_le _ _ _ _ _ Hrest) as Hbl.
    exists b. split.
    + apply Ht; [done|]. intros l' Hl'. apply Hsub. lia.
    + apply IHts; [done | done |]. intros l' Hl'. apply Hsub. lia.
  - intros (l & vs & -> & -> & Hl & Hts) Hagree.
    pose proof (laid_props_le _ _ _ _ _ Hts) as Hal.
    exists l, vs. repeat split; [rewrite Hagree; [done|lia]|].
    assert (Hsub : forall l', a <= l' < l -> σ' !! l' = σ !! l')
      by (intros l' Hl'; apply Hagree; lia).
    clear Hagree Hl. revert vs a Hts Hal Hsub.
    induction IH as [|[k t] ts Ht _ IHts]; intros [|[k' v] vs] a; simpl; try done.
    intros (Hk & b & Hb & Hrest) Hal Hsub.
    pose proof (laid_le _ _ _ _ _ Hb) as Hab.
    pose proof (laid_props_le _ _ _ _ _ Hrest) as Hbl.
    split; [done|]. exists b. split.
    + apply Ht; [done|]. intros l' Hl'. apply Hsub. lia.
    + apply IHts; [done | done |]. intros l' Hl'. apply Hsub. lia.
Qed.

Lemma laid_elts_local σ σ' ts vs a c :
  laid_elts (laid σ) ts vs a c ->
  (forall l, a <= l < c -> σ' !! l = σ !! l) ->
  laid_elts (laid σ') ts vs a c.
Proof.
  revert vs a. induction ts as [|t ts IH]; intros [|v vs] a; simpl; try done.
  intros (b & Hb & Hrest) Hagree.
  pose proof (laid_le _ _ _ _ _ Hb) as Hab.
  pose proof (laid_elts_le _ _ _ _ _ Hrest) as Hbc.
  exists b. split.
  - eapply laid_local; [done|]. intros l Hl. apply Hagree. lia.
  - apply IH; [done|]. intros l Hl. apply Hagree. lia.
Qed.

Lemma laid_props_local σ σ' ts vs a c :
  laid_props (laid σ) ts vs a c ->
  (forall l, a <= l < c -> σ' !! l = σ !! l) ->
  laid_props (laid σ') ts vs a c.
Proof.
  revert vs a. induction ts as [|[k t] ts IH]; intros [|[k' v] vs] a; simpl; try done.
  intros (Hk & b & Hb & Hrest) Hagree.
  pose proof (laid_le _ _ _ _ _ Hb) as Hab.
  pose proof (laid_props_le _ _ _ _ _ Hrest) as Hbc.
  split; [done|]. exists b. split.
  - eapply laid_local; [done|]. intros l Hl. apply Hagree. lia.
  - apply IH; [done|]. intros l Hl. apply Hagree. lia.
Qed.

Lemma laid_truthy σ t v a b : laid σ t v a b -> ref_truthy v = truthy t.
Proof.
  destruct t; simpl; try (by intros [-> _]);
    by intros (l & vs & -> & _).
Qed.

(** The value of a laid tree, and the cells it lies in, refer to its own
    cells only. *)
Lemma laid_in_range σ t v a b : laid σ t v a b -> in_range a b v.
Proof.
  intros Ht. pose proof (laid_le _ _ _ _ _ Ht) as Hab.
  destruct t; simpl in Ht; try (by destruct Ht as [-> _]);
    destruct Ht as (l & vs & -> & -> & _ & Hts); simpl.
  - apply laid_elts_le in Hts. lia.
  - apply laid_props_le in Hts. lia.
Qed.

Lemma laid_closed σ t :
  forall v a b,
    laid σ t v a b ->
    forall l c, a <= l < b -> σ !! l = Some c -> Forall (in_range a b) (cell_refs c).
Proof.
  induction t as [| | x | x | x | ts IH | ts IH] using value_nested_ind;
    intros v a b; simpl; try (intros [_ ->]; lia).
  - intros (l0 & vs & -> & -> & Hl0 & Hts).
    assert (Hgen : forall ws a',
               laid_elts (laid σ) ts ws a' l0 ->
               Forall (in_range a' l0) ws
               /\ forall l c, a' <= l < l0 -> σ !! l = Some c ->
                              Forall (in_range a' l0) (cell_refs c)).
    { clear vs Hl0 Hts. induction IH as [|t ts Ht _ IHts];
        intros [|w ws] a'; simpl; try done.
      - intros ->. split; [constructor | lia].
      - intros (b' & Hb' & Hrest).
        pose proof (laid_le _ _ _ _ _ Hb') as Hab'.
        pose proof (laid_elts_le _ _ _ _ _ Hrest) as Hbl.
        destruct (IHts _ _ Hrest) as [Hws Hcells]. split.
        + constructor.
          * eapply in_range_weaken; [| |by eapply laid_in_range]; lia.
          * eapply Forall_impl; [exact Hws|]. intros r.
            apply in_range_weaken; lia.
        + intros l c Hl Hc. destruct (decide (l < b')) as [Hlt|Hge].
          * eapply Forall_impl; [exact (Ht _ _ _ Hb' l c ltac:(lia) Hc)|].
            intros r. apply in_range_weaken; lia.
          * eapply Forall_impl; [exact (Hcells l c ltac:(lia) Hc)|].
            intros r. apply in_range_weaken; lia. }
    destruct (Hgen vs a Hts) as [Hvs Hcells].
    pose proof (laid_elts_le _ _ _ _ _ Hts) as Hal.
    intros l c Hl Hc. destruct (decide (l = l0)) as [->|Hne].
    + rewrite Hl0 in Hc. injection Hc as <-. simpl.
      eapply Forall_impl; [exact Hvs|]. intros r. apply in_range_weaken; lia.
    + eapply Forall_impl; [exact (Hcells l c ltac:(lia) Hc)|].
      intros r. apply in_range_weaken; lia.
  - intros (l0 & vs & -> & -> & Hl0 & Hts).
    assert (Hgen : forall ws a',
               laid_props (laid σ) ts ws a' l0 ->
               Forall (in_range a' l0) (map snd ws)
               /\ forall l c, a' <= l < l0 -> σ !! l = Some c ->
                              Forall (in_range a' l0) (cell_refs c)).
    { clear vs Hl0 Hts. induction IH as [|[k t] ts Ht _ IHts];
        intros [|[k' w] ws] a'; simpl; try done.
      - intros ->. split; [constructor | lia].
      - intros (_ & b' & Hb' & Hrest).
        pose proof (laid_le _ _ _ _ _ Hb') as Hab'.
        pose proof (laid_props_le _ _ _ _ _ Hrest) as Hbl.
        destruct (IHts _ _ Hrest) as [Hws Hcells]. split.
        + constructor.
          * eapply in_range_weaken; [| |by eapply laid_in_range]; lia.
          * eapply Forall_impl; [exact Hws|]. intros r.
            apply in_range_weaken; lia.
        + intros l c Hl Hc. destruct (decide (l < b')) as [Hlt|Hge].
          * eapply Forall_impl; [exact (Ht _ _ _ Hb' l c ltac:(lia) Hc)|].
            intros r. apply in_range_weaken; lia.
          * eapply Forall_impl; [exact (Hcells l c ltac:(lia) Hc)|].
            intros r. apply in_range_weaken; lia. }
    destruct (Hgen vs a Hts) as [Hvs Hcells].
    pose proof (laid_props_le _ _ _ _ _ Hts) as Hal.
    intros l c Hl Hc. destruct (decide (l = l0)) as [->|Hne].
    + rewrite Hl0 in Hc. injection Hc as <-. simpl.
      eapply Forall_impl; [exact Hvs|]. intros r. apply in_range_weaken; lia.
    + eapply Forall_impl; [exact (Hcells l c ltac:(lia) Hc)|].
      intros r. apply in_range_weaken; lia.
Qed.

(** A laid tree reads as itself, with as much fuel as it has cells. *)
Lemma laid_read σ t :
  forall v a b, laid σ t v a b -> read (b - a) σ v = Some t.
Proof.
  induction t as [| | x | x | x | ts IH | ts IH] using value_nested_ind;
    intros v a b; simpl; try (by intros [-> ->]; rewrite Nat.sub_diag).
  - intros (l & vs & -> & -> & Hl & Hts).
    pose proof (laid_elts_le _ _ _ _ _ Hts) as Hal.
    replace (S l - a) with (S (l - a)) by lia. simpl. rewrite Hl.
    enough (Forall2 (fun v t => read (l - a) σ v = Some t) vs ts) as Hall
        by (by rewrite (proj2 (mapM_Some _ _ _) Hall)).
    assert (Hgen : forall ws a', a <= a' ->
               laid_elts (laid σ) ts ws a' l ->
               Forall2 (fun v t => read (l - a) σ v = Some t) ws ts).
    { clear vs Hl Hts. induction IH as [|t ts Ht _ IHts];
        intros [|w ws] a' Ha'; simpl; try done; try (intros; by constructor).
      intros (b' & Hb' & Hrest).
      pose proof (laid_le _ _ _ _ _ Hb') as Hab'.
      pose proof (laid_elts_le _ _ _ _ _ Hrest) as Hbl.
      constructor; [|apply (IHts ws b'); [lia | done]].
      eapply (read_stable (b' - a')); [lia | done | by apply Ht]. }
    by apply (Hgen vs a).
  - intros (l & vs & -> & -> & Hl & Hts).
    pose proof (laid_props_le _ _ _ _ _ Hts) as Hal.
    replace (S l - a) with (S (l - a)) by lia. simpl. rewrite Hl.
    enough (Forall2 (fun kv kt => pair kv.1 <$> read (l - a) σ kv.2 = Some kt) vs ts)
      as Hall by (by rewrite (proj2 (mapM_Some _ _ _) Hall)).
    assert (Hgen : forall ws a', a <= a' ->
               laid_props (laid σ) ts ws a' l ->
               Forall2 (fun kv kt => pair kv.1 <$> read (l - a) σ kv.2 = Some kt)
                       ws ts).
    { clear vs Hl Hts. induction IH as [|[k t] ts Ht _ IHts];
        intros [|[k' w] ws] a' Ha'; simpl; try done; try (intros; by constructor).
      intros (-> & b' & Hb' & Hrest).
      pose proof (laid_le _ _ _ _ _ Hb') as Hab'.
      pose proof (laid_props_le _ _ _ _ _ Hrest) as Hbl.
      constructor; [|apply (IHts ws b'); [lia | done]]. simpl.
      erewrite (read_stable (b' - a')); [done | lia | done | by apply Ht]. }
    by apply (Hgen vs a).
Qed.

Lemma laid_length σ t v a b : laid σ t v a b -> a < b -> b <= length σ.
Proof.
  destruct t; simpl; try (intros [_ ->]; lia);
    intros (l & vs & _ & -> & Hl & _) _; apply lookup_lt_Some in Hl; lia.
Qed.

Lemma laid_read_tree σ t v a b : laid σ t v a b -> read_tree σ v = Some t.
Proof.
  intros Ht. pose proof (laid_le _ _ _ _ _ Ht) as Hab.
  unfold read_tree. eapply (read_stable (b - a)); [|done|by apply laid_read].
  destruct (decide (a < b)) as [Hlt|Hge]; [|lia].
  pose proof (laid_length _ _ _ _ _ Ht Hlt). lia.
Qed.

Lemma laid_denotes σ t v a b : laid σ t v a b -> denotes σ v t.
Proof. intros Ht. exists (b - a). by apply laid_read. Qed.

Lemma build_prefix t σ : exists ext, (build t σ).1 = (σ ++ ext)%list.
Proof.
  destruct (build_appends t 0 σ ltac:(lia)) as [(ext & Hext & _) _]. by exists ext.
Qed.

Lemma lookup_app_agree (σ ext : list cell) a b l :
  b <= length σ -> a <= l < b -> (σ ++ ext)%list !! l = σ !! l.
Proof. intros Hb Hl. apply lookup_app_l. lia. Qed.

(** [build] lays the tree out. *)
Lemma build_laid t :
  forall σ, laid (build t σ).1 t (build t σ).2 (length σ) (length (build t σ).1).
Proof.
  induction t as [| | x | x | x | ts IH | ts IH] using value_nested_ind;
    intros σ; try done.
  - assert (Helts : forall σ,
               laid_elts (laid (build_elts build ts σ).1) ts
                         (build_elts build ts σ).2
                         (length σ) (length (build_elts build ts σ).1)
               /\ exists ext, (build_elts build ts σ).1 = (σ ++ ext)%list).
    { clear σ. induction IH as [|t ts Ht _ IHts]; intros σ; simpl.
      - split; [done | exists []; by rewrite app_nil_r].
      - specialize (Ht σ). destruct (build_prefix t σ) as [ext1 Hext1].
        destruct (build t σ) as [σ1 v]. simpl in *.
        destruct (IHts σ1) as [Hrest [ext2 Hext2]].
        destruct (build_elts build ts σ1) as [σ2 vs]. simpl in *. subst σ1 σ2.
        split; [|exists (ext1 ++ ext2)%list; by rewrite app_assoc].
        exists (length (σ ++ ext1)%list). split; [|done].
        eapply laid_local; [exact Ht|].
        intros l Hl. by eapply lookup_app_agree. }
    simpl. destruct (Helts σ) as [Hts [ext Hext]].
    destruct (build_elts build ts σ) as [σ' vs]. simpl in *.
    exists (length σ'), vs. rewrite length_app. simpl.
    repeat split; [lia | by apply list_lookup_middle |].
    eapply laid_elts_local; [exact Hts|].
    intros l Hl. by eapply lookup_app_agree.
  - assert (Hprops : forall σ,
               laid_props (laid (build_props build ts σ).1) ts
                          (build_props build ts σ).2
                          (length σ) (length (build_props build ts σ).1)
               /\ exists ext, (build_props build ts σ).1 = (σ ++ ext)%list).
    { clear σ. induction IH as [|[k t] ts Ht _ IHts]; intros σ; simpl.
      - split; [done | exists []; by rewrite app_nil_r].
      - simpl in Ht. specialize (Ht σ). destruct (build_prefix t σ) as [ext1 Hext1].
        destruct (build t σ) as [σ1 v]. simpl in *.
        destruct (IHts σ1) as [Hrest [ext2 Hext2]].
        destruct (build_props build ts σ1) as [σ2 vs]. simpl in *. subst σ1 σ2.
        split; [|exists (ext1 ++ ext2)%list; by rewrite app_assoc].
        split; [done|]. exists (length (σ ++ ext1)%list). split; [|done].
        eapply laid_local; [exact Ht|].
        intros l Hl. by eapply lookup_app_agree. }
    simpl. destruct (Hprops σ) as [Hts [ext Hext]].
    destruct (build_props build ts σ) as [σ' vs]. simpl in *.
    exists (length σ'), vs. rewrite length_app. simpl.
    repeat split; [lia | by apply list_lookup_middle |].
    eapply laid_props_local; [exact Hts|].
    intros l Hl. by eapply lookup_app_agree.
Qed.

Lemma read_local σ σ' (S : nat -> Prop) n :
  closed_set σ S ->
  (forall l c, S l -> σ !! l = Some c -> σ' !! l = Some c) ->
  forall v t, in_set S v -> read n σ v = Some t -> read n σ' v = Some t.
Proof.
  intros Hclosed Hkeep. induction n as [|n IH]; intros v t Hv;
    destruct v; try done. simpl in *.
  destruct (σ !! l) as [c|] eqn:Hl; [|done].
  rewrite (Hkeep _ _ Hv Hl).
  pose proof (Hclosed _ _ Hv Hl) as Hrefs. rewrite Forall_forall in Hrefs.
  destruct c as [elts|props]; intros Ht.
  - apply fmap_Some in Ht as (ts & Hts & ->).
    apply mapM_Some in Hts.
    erewrite (proj2 (mapM_Some _ _ _)); [done|].
    apply Forall2_same_length_lookup. split; [by eapply Forall2_length|].
    intros i x y Hx Hy.
    pose proof (Forall2_lookup_lr _ _ _ _ _ _ Hts Hx Hy) as Hxy.
    apply IH; [|done]. apply Hrefs. by eapply list_elem_of_lookup_2.
  - apply fmap_Some in Ht as (ts & Hts & ->).
    apply mapM_Some in Hts.
    erewrite (proj2 (mapM_Some _ _ _)); [done|].
    apply Forall2_same_length_lookup. split; [by eapply Forall2_length|].
    intros i x y Hx Hy.
    pose proof (Forall2_lookup_lr _ _ _ _ _ _ Hts Hx Hy) as Hxy. simpl in *.
    apply fmap_Some in Hxy as (z & Hz & ->).
    rewrite (IH _ _ ltac:(apply Hrefs; simpl; apply list_elem_of_fmap;
                          exists x; split; [done | by eapply list_elem_of_lookup_2]) Hz).
    done.
Qed.

Lemma denotes_local σ σ' (S : nat -> Prop) v t :
  closed_set σ S -> in_set S v ->
  (forall l c, S l -> σ !! l = Some c -> σ' !! l = Some c) ->
  denotes σ v t -> denotes σ' v t.
Proof. intros Hc Hv Hkeep [n Hn]. exists n. by eapply read_local. Qed.

(** *** Properties of an object, at the first one of a given name *)

Lemma assoc_app_None {V} k (pre l : list (string * V)) :
  assoc k pre = None -> assoc k (pre ++ l) = assoc k l.
Proof.
  induction pre as [|[k' v] pre IH]; simpl; [done|].
  destruct (String.eqb k k'); [done | apply IH].
Qed.

Lemma set_prop_app_None {V} k (x y : V) (pre post : list (string * V)) :
  assoc k pre = None ->
  set_prop k x (pre ++ (k, y) :: post) = (pre ++ (k, x) :: post)%list.
Proof.
  induction pre as [|[k' v] pre IH]; simpl.
  - intros _. by rewrite String.eqb_refl.
  - destruct (String.eqb k k'); [done|]. intros Hpre. by rewrite IH.
Qed.

Lemma laid_props_None σ props ps a c k :
  laid_props (laid σ) props ps a c -> assoc k props = None -> assoc k ps = None.
Proof.
  revert ps a. induction props as [|[k0 t0] props IH]; intros [|[k1 v1] ps] a;
    simpl; try done.
  intros (<- & b & _ & Hrest). destruct (String.eqb k k0); [done|]. by eapply IH.
Qed.

Lemma laid_props_split σ props ps a c k t :
  laid_props (laid σ) props ps a c -> assoc k props = Some t ->
  exists pre post pspre pspost v a' b',
    props = (pre ++ (k, t) :: post)%list
    /\ ps = (pspre ++ (k, v) :: pspost)%list
    /\ assoc k pre = None /\ assoc k pspre = None
    /\ laid_props (laid σ) pre pspre a a'
    /\ laid σ t v a' b'
    /\ laid_props (laid σ) post pspost b' c.
Proof.
  revert ps a. induction props as [|[k0 t0] props IH]; intros [|[k1 v1] ps] a;
    simpl; try done.
  intros (<- & b & Hhead & Hrest).
  destruct (String.eqb_spec k k0) as [->|Hne].
  - intros [= ->]. exists [], props, [], ps, v1, a, b. by repeat split.
  - intros Hk.
    destruct (IH _ _ Hrest Hk)
      as (pre & post & pspre & pspost & v & a' & b' & -> & -> & Hpre & Hpspre
          & Hlpre & Hlt & Hlpost).
    exists ((k0, t0) :: pre), post, ((k0, v1) :: pspre), pspost, v, a', b'.
    apply String.eqb_neq in Hne.
    split; [done|]. split; [done|].
    split; [simpl; by rewrite Hne|]. split; [simpl; by rewrite Hne|].
    split; [|by split]. simpl. split; [done|]. by exists b.
Qed.

Lemma laid_props_denotes σ props ps a c :
  laid_props (laid σ) props ps a c ->
  Forall2 (fun kv kt => kv.1 = kt.1 /\ denotes σ kv.2 kt.2) ps props.
Proof.
  revert ps a. induction props as [|[k0 t0] props IH]; intros [|[k1 v1] ps] a;
    simpl; try done; try (intros; by constructor).
  intros (<- & b & Hhead & Hrest). constructor; [|by eapply IH].
  split; [done|]. by eapply laid_denotes.
Qed.

Lemma laid_elts_denotes σ ts vs a c :
  laid_elts (laid σ) ts vs a c -> Forall2 (denotes σ) vs ts.
Proof.
  revert vs a. induction ts as [|t ts IH]; intros [|v vs] a; simpl; try done;
    try (intros; by constructor).
  intros (b & Hhead & Hrest). constructor; [by eapply laid_denotes | by eapply IH].
Qed.

(** *** Reading properties of laid trees *)

Lemma ref_get_object σ l ps k :
  σ !! l = Some (CObj ps) ->
  ref_get (RRef l) k σ = (σ, Ok (default RUndef (assoc k ps))).
Proof. intros Hl. unfold ref_get, run_bind, load. by rewrite Hl. Qed.

Lemma ref_get_array σ l vs k :
  σ !! l = Some (CArr vs) -> ref_get (RRef l) k σ = (σ, Ok RUndef).
Proof. intros Hl. unfold ref_get, run_bind, load. by rewrite Hl. Qed.

(** [ref_get] on a laid tree is [get] on the tree. *)
Lemma laid_get σ t v a b k :
  laid σ t v a b ->
  match get t k with
  | Throw e => ref_get v k σ = (σ, Throw e)
  | Ok t' =>
      exists v' a' b',
        ref_get v k σ = (σ, Ok v') /\ laid σ t' v' a' b' /\ a <= a' /\ b' <= b
  end.
Proof.
  intros Ht. pose proof (laid_le _ _ _ _ _ Ht) as Hab.
  destruct t as [| | x | x | x | ts | props]; simpl in Ht |- *;
    try (by destruct Ht as [-> ->]);
    try (destruct Ht as [-> ->]; by exists RUndef, b, b).
  - destruct Ht as (l & vs & -> & -> & Hl & Hts).
    exists RUndef, a, a. rewrite (ref_get_array _ _ _ _ Hl). by repeat split; try lia.
  - destruct Ht as (l & ps & -> & -> & Hl & Hps).
    rewrite (ref_get_object _ _ _ _ Hl).
    destruct (assoc k props) as [t'|] eqn:Hk.
    + destruct (laid_props_split _ _ _ _ _ _ _ Hps Hk)
        as (pre & post & pspre & pspost & v' & a' & b' & -> & -> & _ & Hpspre
            & Hlpre & Hlt & Hlpost).
      rewrite (assoc_app_None _ _ _ Hpspre). simpl. rewrite String.eqb_refl.
      exists v', a', b'. apply laid_props_le in Hlpre, Hlpost.
      repeat split; try done; lia.
    + rewrite (laid_props_None _ _ _ _ _ _ Hps Hk).
      exists RUndef, a, a. repeat split; try done; lia.
Qed.

Lemma closed_set_laid N σ t v a b :
  laid σ t v a b -> closed_above N σ ->
  in_set (fun l => a <= l < b \/ N <= l) v
  /\ closed_set σ (fun l => a <= l < b \/ N <= l).
Proof.
  intros Ht Hclosed. split.
  - pose proof (laid_in_range _ _ _ _ _ Ht) as Hv. destruct v; try done. by left.
  - intros l c [Hl | Hl] Hc.
    + eapply Forall_impl; [exact (laid_closed _ _ _ _ _ Ht l c Hl Hc)|].
      intros r Hr. destruct r; try done. by left.
    + eapply Forall_impl; [exact (Hclosed l c Hl Hc)|].
      intros r Hr. destruct r; try done. by right.
Qed.

(** *** The callback of [forEach] on a laid feature *)

Lemma feature_post_unchanged n σ f v a b :
  laid σ f v a b -> closed_above n σ -> feature_post n σ a b v f σ.
Proof.
  intros Hf Hclosed. split; [by eapply laid_denotes|].
  split; [done|]. split; [done|]. split; [done|].
  exact (proj2 (closed_set_laid n _ _ _ _ _ Hf Hclosed)).
Qed.

Lemma props_denote_replaced σ k (pre post : list (string * value))
    (pspre pspost : list (string * ref_value)) v t a a' b' c :
  laid_props (laid σ) pre pspre a a' ->
  laid_props (laid σ) post pspost b' c ->
  denotes σ v t ->
  Forall2 (fun kv kt => kv.1 = kt.1 /\ denotes σ kv.2 kt.2)
          (pspre ++ (k, v) :: pspost) (pre ++ (k, t) :: post).
Proof.
  intros Hpre Hpost Hv. apply Forall2_app; [by eapply laid_props_denotes|].
  constructor; [done | by eapply laid_props_denotes].
Qed.

Section TransformedTreeProperties.
Context `{Projection}.

(** The callback on a feature with a geometry that has coordinates. *)
Lemma transformFeature_transforms n σ fprops v a b gprops ct :
  laid σ (VObj fprops) v a b -> b <= n -> n <= length σ -> closed_above n σ ->
  assoc "geometry" fprops = Some (VObj gprops) ->
  assoc "coordinates" gprops = Some ct ->
  truthy ct = true ->
  match transformCoordinates ct with
  | Throw e => (transformFeature v σ).2 = Throw e
  | Ok ct' =>
      exists σ',
        transformFeature v σ = (σ', Ok tt)
        /\ feature_post n σ a b v
             (set_key "geometry"
                (set_key "coordinates" ct' (VObj gprops)) (VObj fprops)) σ'
  end.
Proof.
  intros Hf Hbn Hn Hclosed Hg Hc Htc.
  pose proof (closed_set_laid n _ _ _ _ _ Hf Hclosed) as [_ Hset].
  pose proof Hf as Hf0.
  simpl in Hf. destruct Hf as (lf & fps & -> & -> & Hlf & Hfps).
  destruct (laid_props_split _ _ _ _ _ _ _ Hfps Hg)
    as (fpre & fpost & fpspre & fpspost & vg & ag & bg & -> & -> & Hfpre & Hfpspre
        & Hlfpre & Hlg & Hlfpost).
  pose proof (laid_props_le _ _ _ _ _ Hlfpre) as Hle1.
  pose proof (laid_props_le _ _ _ _ _ Hlfpost) as Hle2.
  simpl in Hlg. destruct Hlg as (g & gps & -> & -> & Hlgc & Hgps).
  destruct (laid_props_split _ _ _ _ _ _ _ Hgps Hc)
    as (gpre & gpost & gpspre & gpspost & vc & ac & bc & -> & -> & Hgpre & Hgpspre
        & Hlgpre & Hlc & Hlgpost).
  pose proof (laid_props_le _ _ _ _ _ Hlgpre) as Hle3.
  pose proof (laid_props_le _ _ _ _ _ Hlgpost) as Hle4.
  pose proof (laid_le _ _ _ _ _ Hlc) as Hle5.
  assert (Hlfn : lf < length σ) by (by eapply lookup_lt_Some).
  (* the reads of the callback *)
  assert (Hget_g : ref_get (RRef lf) "geometry" σ = (σ, Ok (RRef g))).
  { rewrite (ref_get_object _ _ _ _ Hlf), (assoc_app_None _ _ _ Hfpspre).
    simpl. done. }
  assert (Hget_c : ref_get (RRef g) "coordinates" σ = (σ, Ok vc)).
  { rewrite (ref_get_object _ _ _ _ Hlgc), (assoc_app_None _ _ _ Hgpspre).
    simpl. done. }
  assert (Hvc : ref_truthy vc = true)
    by (by rewrite (laid_truthy _ _ _ _ _ Hlc)).
  assert (Hrun : transformFeature (RRef lf) σ
                 = run_bind (transformCoordinates_call vc)
                     (fun r => ref_set (RRef g) "coordinates" r) σ).
  { unfold transformFeature, run_bind at 1. rewrite Hget_g. simpl ref_truthy. cbv iota.
    unfold run_bind at 1. unfold run_bind at 1. rewrite Hget_g.
    rewrite Hget_c, Hvc.
    unfold run_bind at 1. rewrite Hget_g.
    unfold run_bind at 1. rewrite Hget_g.
    unfold run_bind at 1. rewrite Hget_c. done. }
  rewrite Hrun. unfold run_bind, transformCoordinates_call.
  rewrite (laid_read_tree _ _ _ _ _ Hlc).
  destruct (transformCoordinates ct) as [ct'|e]; [|done].
  pose proof (build_laid ct' σ) as Hnew.
  destruct (build_appends ct' n σ Hn) as [(ext & Hext & Hfresh) Hr].
  destruct (build ct' σ) as [σ1 r] eqn:Hbuild. simpl in Hnew, Hext, Hr. subst σ1.
  assert (Hg1 : (σ ++ ext)%list !! g = Some (CObj (gpspre ++ ("coordinates", vc) :: gpspost)%list)).
  { rewrite lookup_app_l by lia. done. }
  unfold ref_set, run_bind, load. rewrite Hg1.
  rewrite (set_prop_app_None _ _ _ _ _ Hgpspre).
  eexists. split; [done|].
  set (σ' := <[g := CObj (gpspre ++ ("coordinates", r) :: gpspost)%list]> (σ ++ ext)%list).
  assert (Hother : forall l, l < length σ -> l <> g -> σ' !! l = σ !! l).
  { intros l Hl Hne. unfold σ'. rewrite list_lookup_insert_ne by done.
    by rewrite lookup_app_l. }
  assert (Hat : σ' !! g = Some (CObj (gpspre ++ ("coordinates", r) :: gpspost)%list)).
  { unfold σ'. apply list_lookup_insert_eq. rewrite length_app. lia. }
  assert (Habove : closed_above n σ').
  { intros l c Hl Hc'. unfold σ' in Hc'.
    rewrite list_lookup_insert_ne in Hc' by lia.
    exact (closed_above_app n σ ext Hn Hclosed Hfresh l c Hl Hc'). }
  simpl set_key. rewrite (set_prop_app_None _ _ _ _ _ Hgpre).
  rewrite (set_prop_app_None _ _ _ _ _ Hfpre).
  split.
  { (* the feature denotes the new tree *)
    apply (denotes_object σ' lf (fpspre ++ ("geometry", RRef g) :: fpspost)%list).
    { rewrite Hother by lia. done. }
    eapply props_denote_replaced.
    - eapply laid_props_local; [exact Hlfpre|]. intros l Hl. apply Hother; lia.
    - eapply laid_props_local; [exact Hlfpost|]. intros l Hl. apply Hother; lia.
    - apply (denotes_object σ' g _ _ Hat).
      eapply props_denote_replaced.
      + eapply laid_props_local; [exact Hlgpre|]. intros l Hl. apply Hother; lia.
      + eapply laid_props_local; [exact Hlgpost|]. intros l Hl. apply Hother; lia.
      + eapply laid_denotes. eapply laid_local; [exact Hnew|].
        intros l Hl. unfold σ'. rewrite list_lookup_insert_ne by lia. done. }
  split; [unfold σ'; rewrite length_insert, length_app; lia|].
  split; [intros l Hl Hout; apply Hother; lia|].
  split; [done|].
  intros l c Hl Hc'.
  destruct (decide (l = g)) as [->|Hne].
  - rewrite Hat in Hc'. injection Hc' as <-. simpl.
    rewrite <- (set_prop_app_None _ _ vc _ _ Hgpspre).
    apply set_prop_refs.
    + destruct r; try done. simpl in Hr |- *. by right.
    + apply (Hset g (CObj (gpspre ++ ("coordinates", vc) :: gpspost)%list));
        [left; lia | done].
  - destruct Hl as [Hl|Hl].
    + rewrite Hother in Hc' by lia. apply (Hset l c); [by left | done].
    + eapply Forall_impl; [exact (Habove l c Hl Hc')|].
      intros x Hx. destruct x; try done. by right.
Qed.

Lemma get_truthy_object f k t :
  get f k = Ok t -> truthy t = true ->
  exists props, f = VObj props /\ assoc k props = Some t.
Proof.
  destruct f as [| | x | x | x | ts | props]; simpl; try done;
    try (intros [= <-]; done).
  destruct (assoc k props) as [t'|] eqn:Hk; simpl; intros [= <-]; [|done].
  intros _. by exists props.
Qed.

(** The callback on any laid feature is [transformFeature_tree] on its
    tree. *)
Lemma transformFeature_correct n σ f v a b :
  laid σ f v a b -> b <= n -> n <= length σ -> closed_above n σ ->
  match transformFeature_tree f with
  | Throw e => (transformFeature v σ).2 = Throw e
  | Ok f' =>
      exists σ', transformFeature v σ = (σ', Ok tt) /\ feature_post n σ a b v f' σ'
  end.
Proof.
  intros Hf Hbn Hn Hclosed.
  pose proof (laid_get _ _ _ _ _ "geometry" Hf) as Hg.
  unfold transformFeature_tree.
  destruct (get f "geometry") as [gt|e] eqn:Hgt; cbn [mbind result_bind].
  2: { unfold transformFeature, run_bind. by rewrite Hg. }
  destruct Hg as (vg & ag & bg & Hvg & Hlg & Hag & Hbg).
  pose proof (laid_truthy _ _ _ _ _ Hlg) as Htg.
  destruct (truthy gt) eqn:Hgtruthy.
  - pose proof (laid_get _ _ _ _ _ "coordinates" Hlg) as Hc.
    destruct (get gt "coordinates") as [ct|e] eqn:Hct; cbn [mbind result_bind].
    2: { by destruct gt. }
    destruct Hc as (vc & ac & bc & Hvc & Hlc & Hac & Hbc).
    pose proof (laid_truthy _ _ _ _ _ Hlc) as Htc.
    destruct (truthy ct) eqn:Hctruthy.
    + destruct (get_truthy_object _ _ _ Hgt Hgtruthy) as (fprops & -> & Hfg).
      destruct (get_truthy_object _ _ _ Hct Hctruthy) as (gprops & -> & Hgc).
      pose proof (transformFeature_transforms n σ fprops v a b gprops ct
                    Hf Hbn Hn Hclosed Hfg Hgc Hctruthy) as Hmain.
      by destruct (transformCoordinates ct).
    + exists σ. split; [|by apply feature_post_unchanged].
      unfold transformFeature, run_bind at 1. rewrite Hvg, Htg.
      unfold run_bind at 1. unfold run_bind at 1. rewrite Hvg, Hvc, Htc. done.
  - cbn [mbind result_bind]. rewrite Hgtruthy.
    exists σ. split; [|by apply feature_post_unchanged].
    unfold transformFeature, run_bind at 1. rewrite Hvg, Htg.
    unfold run_bind at 1. unfold run_ret at 1. rewrite Htg. done.
Qed.

(** The iteration over laid features is [array_map] over their trees. *)
Lemma for_each_correct n fs :
  forall vs a c σ,
    laid_elts (laid σ) fs vs a c -> c <= n -> n <= length σ -> closed_above n σ ->
    match array_map transformFeature_tree fs with
    | Throw e => (for_each transformFeature vs σ).2 = Throw e
    | Ok fs' =>
        exists σ',
          for_each transformFeature vs σ = (σ', Ok tt)
          /\ Forall2 (denotes σ') vs fs'
          /\ length σ <= length σ'
          /\ (forall l, l < length σ -> ~ (a <= l < c) -> σ' !! l = σ !! l)
          /\ closed_above n σ'
    end.
Proof.
  induction fs as [|f fs IH]; intros [|v vs] a c σ; simpl; try done.
  { intros _ _ _ Hclosed. exists σ. by repeat split. }
  intros (b & Hf & Hrest) Hcn Hn Hclosed.
  pose proof (laid_le _ _ _ _ _ Hf) as Hab.
  pose proof (laid_elts_le _ _ _ _ _ Hrest) as Hbc.
  pose proof (laid_in_range _ _ _ _ _ Hf) as Hv.
  pose proof (transformFeature_correct n σ f v a b Hf ltac:(lia) Hn Hclosed) as Hstep.
  destruct (transformFeature_tree f) as [f'|e]; cbn [mbind result_bind].
  2: { unfold run_bind. destruct (transformFeature v σ) as [σ1 [u|e']]; simpl in *;
       congruence. }
  destruct Hstep as (σ1 & Hrun & Hden & Hlen & Hsame & Habove & Hset).
  assert (Hrest1 : laid_elts (laid σ1) fs vs b c).
  { eapply laid_elts_local; [exact Hrest|]. intros l Hl. apply Hsame; lia. }
  specialize (IH vs b c σ1 Hrest1 Hcn ltac:(lia) Habove).
  fold (array_map transformFeature_tree) in *.
  unfold run_bind. rewrite Hrun.
  destruct (array_map transformFeature_tree fs) as [fs'|e]; cbn [mbind result_bind].
  2: { exact IH. }
  destruct IH as (σ2 & Hrun2 & Hden2 & Hlen2 & Hsame2 & Habove2).
  exists σ2. split; [exact Hrun2|]. split.
  { constructor; [|done].
    apply (denotes_local σ1 σ2 (fun l => a <= l < b \/ n <= l)); try done.
    - destruct v; try done. by left.
    - intros l c0 Hl Hc0. rewrite Hsame2; [done | by eapply lookup_lt_Some | lia]. }
  split; [lia|]. split; [|done].
  intros l Hl Hout. rewrite Hsame2 by lia. apply Hsame; lia.
Qed.

(** What [transformGeoJSON] does after the clone, on the clone as
    [JSON.parse] has just allocated it. *)
Lemma transformGeoJSON_after_clone σ t r a :
  laid σ t r a (length σ) ->
  match (features ← get t "features";
         if truthy features then
           match features with
           | VArr fs =>
               fs' ← array_map transformFeature_tree fs;
               Ok (set_key "features" (VArr fs') t)
           | _ => Throw TypeError
           end
         else Ok t) with
  | Throw e =>
      ((do features <- ref_get r "features";
        do _ <- (if ref_truthy features then
                   do features' <- ref_get r "features";
                   forEach features' transformFeature
                 else run_ret tt);
        run_ret r) σ).2 = Throw e
  | Ok t' =>
      exists σ',
        (do features <- ref_get r "features";
         do _ <- (if ref_truthy features then
                    do features' <- ref_get r "features";
                    forEach features' transformFeature
                  else run_ret tt);
         run_ret r) σ = (σ', Ok r)
        /\ denotes σ' r t'
  end.
Proof.
  intros Ht. pose proof (laid_get _ _ _ _ _ "features" Ht) as Hg.
  destruct (get t "features") as [ft|e] eqn:Hft; cbn [mbind result_bind].
  2: { unfold run_bind. by rewrite Hg. }
  destruct Hg as (vf & af & bf & Hvf & Hlf & Haf & Hbf).
  pose proof (laid_truthy _ _ _ _ _ Hlf) as Htf.
  destruct (truthy ft) eqn:Hftruthy.
  2: { exists σ. split; [|by eapply laid_denotes].
       unfold run_bind at 1. rewrite Hvf, Htf. done. }
  destruct (get_truthy_object _ _ _ Hft Hftruthy) as (props & -> & Hk).
  destruct ft as [| | x | x | x | fs | fprops]; try done;
    try (simpl in Hlf; destruct Hlf as [-> _];
         unfold run_bind at 1; rewrite Hvf, Htf;
         unfold run_bind; by rewrite Hvf).
  2: { simpl in Hlf. destruct Hlf as (l & ps & -> & _ & Hl & _).
       unfold run_bind at 1. rewrite Hvf. simpl ref_truthy.
       unfold run_bind. rewrite Hvf.
       unfold forEach, run_bind, load. by rewrite Hl. }
  clear vf af bf Hvf Hlf Haf Hbf Htf.
  simpl in Ht. destruct Ht as (ld & ps & -> & Hb & Hld & Hps).
  destruct (laid_props_split _ _ _ _ _ _ _ Hps Hk)
    as (pre & post & pspre & pspost & vf & af & bf & -> & -> & Hpre & Hpspre
        & Hlpre & Hlf & Hlpost).
  simpl in Hlf. destruct Hlf as (lf & vs & -> & -> & Hlfc & Hfs).
  pose proof (laid_props_le _ _ _ _ _ Hlpre) as Hle1.
  pose proof (laid_props_le _ _ _ _ _ Hlpost) as Hle2.
  pose proof (laid_elts_le _ _ _ _ _ Hfs) as Hle3.
  assert (Hget : ref_get (RRef ld) "features" σ = (σ, Ok (RRef lf))).
  { rewrite (ref_get_object _ _ _ _ Hld), (assoc_app_None _ _ _ Hpspre).
    simpl. done. }
  assert (Hclosed : closed_above (length σ) σ).
  { intros l c Hl Hc. apply lookup_lt_Some in Hc. lia. }
  pose proof (for_each_correct (length σ) fs vs af lf σ Hfs ltac:(lia) ltac:(lia)
                Hclosed) as Hloop.
  assert (Hrun : (do features <- ref_get (RRef ld) "features";
                  do _ <- (if ref_truthy features then
                             do features' <- ref_get (RRef ld) "features";
                             forEach features' transformFeature
                           else run_ret tt);
                  run_ret (RRef ld)) σ
                 = match for_each transformFeature vs σ with
                   | (σ', Ok _) => (σ', Ok (RRef ld))
                   | (σ', Throw e) => (σ', Throw e)
                   end).
  { unfold run_bind at 1. rewrite Hget. simpl ref_truthy. cbv iota.
    unfold run_bind at 1. unfold run_bind at 1. rewrite Hget.
    unfold forEach, run_bind at 1, load. rewrite Hlfc. done. }
  rewrite Hrun.
  destruct (array_map transformFeature_tree fs) as [fs'|e]; cbn [mbind result_bind].
  2: { destruct (for_each transformFeature vs σ) as [σ' [u|e']]; simpl in *;
       congruence. }
  destruct Hloop as (σ' & -> & Hden & Hlen & Hsame & _).
  exists σ'. split; [done|].
  simpl set_key. rewrite (set_prop_app_None _ _ _ _ _ Hpre).
  apply (denotes_object σ' ld (pspre ++ ("features", RRef lf) :: pspost)%list).
  { rewrite Hsame; [done | by eapply lookup_lt_Some | lia]. }
  assert (Hlfn : lf < length σ) by (by eapply lookup_lt_Some).
  assert (Hldn : ld < length σ) by (by eapply lookup_lt_Some).
  eapply props_denote_replaced.
  - eapply laid_props_local; [exact Hlpre|]. intros l Hl. apply Hsame; lia.
  - eapply laid_props_local; [exact Hlpost|]. intros l Hl. apply Hsame; lia.
  - apply (denotes_array σ' lf vs); [|done]. rewrite Hsame; [done | lia | lia].
Qed.

Lemma transformGeoJSON_correct geojson doc σ :
  read_tree σ geojson = Some doc ->
  match transformGeoJSON_tree doc with
  | Throw e => (transformGeoJSON geojson σ).2 = Throw e
  | Ok t =>
      exists r,
        (transformGeoJSON geojson σ).2 = Ok r
        /\ denotes (transformGeoJSON geojson σ).1 r t
  end.
Proof.
  intros Hdoc.
  assert (Hclone : doc <> VUndef ->
            JSON_clone geojson σ
            = ((build (json_value doc) σ).1, Ok (build (json_value doc) σ).2)).
  { intros Hne. unfold JSON_clone. rewrite Hdoc.
    destruct (build (json_value doc) σ) as [σ1 r]. by destruct doc. }
  assert (Hcase : doc = VUndef \/ doc <> VUndef)
    by (destruct doc; first [by left | by right]).
  destruct Hcase as [->|Hne].
  { simpl. unfold transformGeoJSON, run_bind, JSON_clone. by rewrite Hdoc. }
  pose proof (build_laid (json_value doc) σ) as Hlaid.
  pose proof (transformGeoJSON_after_clone _ _ _ _ Hlaid) as Hrest.
  match type of Hrest with
  | match ?x with _ => _ end =>
      assert (Htree : transformGeoJSON_tree doc = x) by (by destruct doc);
      rewrite Htree; destruct x as [t'|e]
  end.
  - destruct Hrest as (σ' & Hrun & Hden).
    assert (Hfull : transformGeoJSON geojson σ
                    = (σ', Ok (build (json_value doc) σ).2)).
    { rewrite <- Hrun. unfold transformGeoJSON, run_bind at 1.
      by rewrite (Hclone Hne). }
    rewrite Hfull. by exists (build (json_value doc) σ).2.
  - rewrite <- Hrest. unfold transformGeoJSON, run_bind at 1.
    by rewrite (Hclone Hne).
Qed.

(** X14. [transformGeoJSON] computes [transformGeoJSON_tree]: called on a
    value that denotes the document [doc], it returns a value that denotes
    the JSON round trip of [doc] with every feature that has a geometry
    with coordinates given the transformed coordinates, and it raises
    exactly when the tree function does, with the same error: a
    [SyntaxError] on [undefined], a [TypeError] on [null], on [features]
    that are truthy and not an array and on a feature that is [null], and
    otherwise the error of the first feature whose coordinates
    [transformCoordinates] rejects. *)
Theorem X14_transformGeoJSON_result (σ σ' : store) (geojson : ref_value)
    (doc : value) (outcome : result ref_value) :
  read_tree σ geojson = Some doc ->
  transformGeoJSON geojson σ = (σ', outcome) ->
  match transformGeoJSON_tree doc with
  | Ok t => exists r, outcome = Ok r /\ denotes σ' r t
  | Throw e => outcome = Throw e
  end.
Proof.
  intros Hdoc Hrun. pose proof (transformGeoJSON_correct _ _ _ Hdoc) as Hres.
  rewrite Hrun in Hres. exact Hres.
Qed.

(** *** What the callback leaves as it is *)

Lemma transformFeature_tree_cases f f' :
  transformFeature_tree f = Ok f' ->
  f' = f
  \/ exists fprops gprops ct ct',
       f = VObj fprops
       /\ assoc "geometry" fprops = Some (VObj gprops)
       /\ assoc "coordinates" gprops = Some ct
       /\ transformCoordinates ct = Ok ct'
       /\ f' = VObj (set_prop "geometry"
                       (VObj (set_prop "coordinates" ct' gprops)) fprops).
Proof.
  unfold transformFeature_tree.
  destruct (get f "geometry") as [gt|e] eqn:Hgt; cbn [mbind result_bind]; [|done].
  destruct (truthy gt) eqn:Hgtruthy; cbn [mbind result_bind].
  2: { rewrite Hgtruthy. intros [= <-]. by left. }
  destruct (get gt "coordinates") as [ct|e] eqn:Hct; cbn [mbind result_bind]; [|done].
  destruct (truthy ct) eqn:Hctruthy.
  2: { intros [= <-]. by left. }
  destruct (get_truthy_object _ _ _ Hgt Hgtruthy) as (fprops & -> & Hfg).
  destruct (get_truthy_object _ _ _ Hct Hctruthy) as (gprops & -> & Hgc).
  destruct (transformCoordinates ct) as [ct'|e] eqn:Htr; cbn [mbind result_bind];
    [|done].
  intros [= <-]. right. by exists fprops, gprops, ct, ct'.
Qed.

Lemma assoc_set_prop_ne {V} k k' (x : V) (ps : list (string * V)) :
  k' <> k -> assoc k' (set_prop k x ps) = assoc k' ps.
Proof.
  intros Hne. induction ps as [|[k0 v] ps IH]; simpl.
  - by rewrite (proj2 (String.eqb_neq k' k) Hne).
  - destruct (String.eqb_spec k k0) as [->|Hk0]; simpl.
    + by rewrite (proj2 (String.eqb_neq k' k0) Hne).
    + by rewrite IH.
Qed.

Lemma assoc_set_prop_eq {V} k (x : V) (ps : list (string * V)) :
  assoc k (set_prop k x ps) = Some x.
Proof.
  induction ps as [|[k0 v] ps IH]; simpl.
  - by rewrite String.eqb_refl.
  - destruct (String.eqb_spec k k0) as [->|Hk0]; simpl.
    + by rewrite String.eqb_refl.
    + by rewrite (proj2 (String.eqb_neq k k0) Hk0).
Qed.

Lemma transformFeature_tree_keeps f f' k :
  transformFeature_tree f = Ok f' -> k <> "geometry" -> get f' k = get f k.
Proof.
  intros Hf Hk. destruct (transformFeature_tree_cases _ _ Hf)
    as [->|(fprops & gprops & ct & ct' & -> & _ & _ & _ & ->)]; [done|].
  simpl. by rewrite assoc_set_prop_ne.
Qed.

Lemma transformFeature_tree_geometry f f' k :
  transformFeature_tree f = Ok f' -> k <> "coordinates" ->
  (g ← get f' "geometry"; get g k) = (g ← get f "geometry"; get g k).
Proof.
  intros Hf Hk. destruct (transformFeature_tree_cases _ _ Hf)
    as [->|(fprops & gprops & ct & ct' & -> & Hg & _ & _ & ->)]; [done|].
  simpl. rewrite assoc_set_prop_eq, Hg. simpl. by rewrite assoc_set_prop_ne.
Qed.

Lemma transformFeature_tree_props f f' :
  transformFeature_tree f = Ok f' -> getProps f' = getProps f.
Proof.
  intros Hf. destruct (transformFeature_tree_cases _ _ Hf)
    as [->|(fprops & gprops & ct & ct' & -> & _ & _ & _ & ->)]; [done|].
  unfold getProps. simpl. by rewrite assoc_set_prop_ne.
Qed.
End TransformedTreeProperties.

Lemma X14_transformGeoJSON_result_witness :
  let σ := (build sample_document []).1 in
  let geojson := (build sample_document []).2 in
  let after := @transformGeoJSON scaling_projection geojson σ in
  read_tree σ geojson = Some sample_document
  /\ exists t r,
       @transformGeoJSON_tree scaling_projection sample_document = Ok t
       /\ after.2 = Ok r /\ denotes after.1 r t.
Proof.
  intros σ geojson after.
  assert (Hdoc : read_tree σ geojson = Some sample_document) by reflexivity.
  pose proof (@X14_transformGeoJSON_result scaling_projection σ after.1 geojson
                sample_document after.2 Hdoc (surjective_pairing after)) as Hres.
  split; [done|].
  destruct (@transformGeoJSON_tree scaling_projection sample_document)
    as [t|e] eqn:Ht; [|vm_compute in Ht; discriminate].
  destruct Hres as (r & Hr & Hden). by exists t, r.
Defined.

Section ReprojectionKeepsProperties.
Context `{NumberConversions} `{Projection}.

(** X15. Reprojection changes nothing that the map reads of a feature but
    its coordinates: in the document [transformGeoJSON] returns, every key
    of the document other than [features] and every key of a feature other
    than [geometry] is as in the JSON round trip of the input, so is every
    key of a geometry other than [coordinates], and the feature is styled
    and named as the input feature would be. *)
Theorem X15_reprojection_keeps_properties (σ σ' : store) (geojson : ref_value)
    (doc : value) (r : ref_value) (fs : list value) :
  read_tree σ geojson = Some doc ->
  get (json_value doc) "features" = Ok (VArr fs) ->
  transformGeoJSON geojson σ = (σ', Ok r) ->
  exists t fs',
    denotes σ' r t
    /\ get t "features" = Ok (VArr fs')
    /\ (forall k, k <> "features" -> get t k = get (json_value doc) k)
    /\ Forall2 (fun f f' =>
                  (forall k, k <> "geometry" -> get f' k = get f k)
                  /\ (forall k, k <> "coordinates" ->
                        (g ← get f' "geometry"; get g k)
                        = (g ← get f "geometry"; get g k))
                  /\ geologicalLayerColors f' = geologicalLayerColors f
                  /\ getGeologicalUnit f' = getGeologicalUnit f) fs fs'.
Proof.
  intros Hdoc Hfs Hrun.
  pose proof (transformGeoJSON_correct _ _ _ Hdoc) as Hres.
  rewrite Hrun in Hres. simpl in Hres.
  assert (Htree : transformGeoJSON_tree doc
                  = (fs' ← array_map transformFeature_tree fs;
                     Ok (set_key "features" (VArr fs') (json_value doc)))).
  { unfold transformGeoJSON_tree. destruct doc; try done; by rewrite Hfs. }
  rewrite Htree in Hres.
  destruct (array_map transformFeature_tree fs) as [fs'|e] eqn:Hmap;
    cbn [mbind result_bind] in Hres; [|done].
  destruct Hres as (r' & [= <-] & Hden).
  destruct (get_truthy_object _ _ _ Hfs eq_refl) as (props & Hprops & Hk).
  rewrite Hprops in *.
  exists (set_key "features" (VArr fs') (VObj props)), fs'.
  split; [done|]. simpl.
  split; [by rewrite assoc_set_prop_eq|].
  split; [intros k Hne; by rewrite assoc_set_prop_ne|].
  eapply Forall2_impl; [exact (array_map_Forall2 _ _ _ Hmap)|].
  intros f f' Hf. simpl in Hf.
  split; [intros k Hne; by apply transformFeature_tree_keeps|].
  split; [intros k Hne; by apply transformFeature_tree_geometry|].
  unfold geologicalLayerColors, getLithCode, getGeologicalUnit.
  by rewrite (transformFeature_tree_props _ _ Hf).
Qed.
End ReprojectionKeepsProperties.

Lemma X15_reprojection_keeps_properties_witness :
  let σ := (build sample_document []).1 in
  let geojson := (build sample_document []).2 in
  let after := @transformGeoJSON scaling_projection geojson σ in
  exists fs t fs',
    get (json_value sample_document) "features" = Ok (VArr fs)
    /\ denotes after.1 (RRef 19) t
    /\ get t "features" = Ok (VArr fs')
    /\ Forall2 (fun f f' =>
                  @geologicalLayerColors integer_conversions f'
                  = @geologicalLayerColors integer_conversions f) fs fs'.
Proof.
  intros σ geojson after.
  assert (Hdoc : read_tree σ geojson = Some sample_document) by reflexivity.
  assert (Hrun : @transformGeoJSON scaling_projection geojson σ
                 = (after.1, Ok (RRef 19))) by reflexivity.
  eexists.
  destruct (@X15_reprojection_keeps_properties integer_conversions
              scaling_projection σ after.1 geojson sample_document (RRef 19) _
              Hdoc eq_refl Hrun)
    as (t & fs' & Hden & Hget & _ & Hall).
  exists t, fs'. repeat split; try done.
  eapply Forall2_impl; [exact Hall|]. by intros f f' (_ & _ & Hstyle & _).
Defined.

(** ** Loading the geological data *)

Lemma denotes_primitive σ v t :
  match v with RRef _ => False | _ => True end ->
  denotes σ v t ->
  t = match v with
      | RUndef => VUndef
      | RNull => VNull
      | RBool b => VBool b
      | RNum n => VNum n
      | RStr s => VStr s
      | RRef _ => VUndef
      end.
Proof.
  intros Hv [n Hn]. rewrite (read_primitive n σ v Hv) in Hn. congruence.
Qed.

Ltac primitive_tree H :=
  match type of H with
  | denotes ?σ ?v ?t => rewrite (denotes_primitive σ v t I H)
  end.

Lemma denotes_ref_inv σ l t :
  denotes σ (RRef l) t ->
  (exists vs ts,
      σ !! l = Some (CArr vs) /\ t = VArr ts /\ Forall2 (denotes σ) vs ts)
  \/ (exists ps tps,
        σ !! l = Some (CObj ps) /\ t = VObj tps
        /\ Forall2 (fun kv kt => kv.1 = kt.1 /\ denotes σ kv.2 kt.2) ps tps).
Proof.
  intros [[|n] Hn]; [done|]. simpl in Hn.
  destruct (σ !! l) as [[vs|ps]|] eqn:Hl; [| |done].
  - apply fmap_Some in Hn as (ts & Hts & ->). left. exists vs, ts.
    repeat split; try done. apply mapM_Some in Hts.
    eapply Forall2_impl; [exact Hts|]. intros v t Hv. by exists n.
  - apply fmap_Some in Hn as (tps & Htps & ->). right. exists ps, tps.
    repeat split; try done. apply mapM_Some in Htps.
    eapply Forall2_impl; [exact Htps|]. intros [k v] [k' t] Hv. simpl in *.
    apply fmap_Some in Hv as (t' & Ht' & [= -> ->]). split; [done | by exists n].
Qed.

Lemma denotes_assoc σ k (ps : list (string * ref_value)) (tps : list (string * value)) :
  Forall2 (fun kv kt => kv.1 = kt.1 /\ denotes σ kv.2 kt.2) ps tps ->
  denotes σ (default RUndef (assoc k ps)) (default VUndef (assoc k tps)).
Proof.
  induction 1 as [|[k1 v] [k2 t] ps tps [Hk Hv] _ IH]; simpl in *.
  - by exists 0.
  - subst k2. by destruct (String.eqb k k1).
Qed.

(** [ref_get] on a value that denotes a tree is [get] on the tree. *)
Lemma denotes_get σ v t k :
  denotes σ v t ->
  match get t k with
  | Throw e => ref_get v k σ = (σ, Throw e)
  | Ok t' => exists v', ref_get v k σ = (σ, Ok v') /\ denotes σ v' t'
  end.
Proof.
  intros Hv. destruct v as [| | b | n | s | l];
    try (primitive_tree Hv; simpl;
         first [done | exists RUndef; split; [done | by exists 0]]).
  destruct (denotes_ref_inv _ _ _ Hv)
    as [(vs & ts & Hl & -> & Hvs)|(ps & tps & Hl & -> & Hps)].
  - rewrite (ref_get_array _ _ _ k Hl). exists RUndef. split; [done | by exists 0].
  - rewrite (ref_get_object _ _ _ k Hl). eexists. split; [done|].
    by apply denotes_assoc.
Qed.

Lemma denotes_elem0 σ v t :
  denotes σ v t ->
  match elem0 t with
  | Throw e => ref_elem0 v σ = (σ, Throw e)
  | Ok t' => exists v', ref_elem0 v σ = (σ, Ok v') /\ denotes σ v' t'
  end.
Proof.
  intros Hv. destruct v as [| | b | n | s | l];
    try (primitive_tree Hv; simpl;
         first [done | exists RUndef; split; [done | by exists 0]]).
  - primitive_tree Hv. simpl.
    destruct s as [|c s]; eexists; (split; [done | by exists 0]).
  - destruct (denotes_ref_inv _ _ _ Hv)
      as [(vs & ts & Hl & -> & Hvs)|(ps & tps & Hl & -> & Hps)]; simpl;
      unfold run_bind, load; rewrite Hl; eexists; (split; [done|]).
    + destruct Hvs as [|v0 t0 vs ts Hv0 _]; simpl; [by exists 0 | done].
    + by apply denotes_assoc.
Qed.

Lemma denotes_slice2 σ v t :
  denotes σ v t ->
  match slice2 t with
  | Throw e => ref_slice2 v σ = (σ, Throw e)
  | Ok t' =>
      exists ext v',
        ref_slice2 v σ = ((σ ++ ext)%list, Ok v') /\ denotes (σ ++ ext)%list v' t'
  end.
Proof.
  intros Hv. destruct v as [| | b | n | s | l];
    try (primitive_tree Hv; simpl; done).
  - primitive_tree Hv. simpl.
    exists [], (RStr (substring 0 2 s)). rewrite app_nil_r. split; [done | by exists 0].
  - destruct (denotes_ref_inv _ _ _ Hv)
      as [(vs & ts & Hl & -> & Hvs)|(ps & tps & Hl & -> & Hps)]; simpl;
      unfold run_bind, load; rewrite Hl; [|done].
    exists [CArr (take 2 vs)], (RRef (length σ)). split; [done|].
    apply (denotes_array _ _ (take 2 vs)).
    + by rewrite lookup_app_r, Nat.sub_diag.
    + apply Forall2_take. eapply Forall2_impl; [exact Hvs|].
      intros v t. apply denotes_agree. intros l' c Hc. by apply lookup_app_l_Some.
Qed.

(** The sample of a value that denotes a document is the sample of the
    document; it adds at most the sliced array to the store. *)
Lemma sample_position_correct σ v doc :
  denotes σ v doc ->
  match sample_position_tree doc with
  | Throw e => sample_position v σ = (σ, Throw e)
  | Ok t =>
      exists ext v',
        sample_position v σ = ((σ ++ ext)%list, Ok v')
        /\ denotes (σ ++ ext)%list v' t
  end.
Proof.
  intros Hv. unfold sample_position_tree, sample_position, run_bind.
  pose proof (denotes_get _ _ _ "features" Hv) as H1.
  destruct (get doc "features") as [t1|e]; cbn [mbind result_bind];
    [destruct H1 as (v1 & E1 & H1) | by rewrite H1].
  rewrite E1. cbv beta iota.
  pose proof (denotes_elem0 _ _ _ H1) as H2.
  destruct (elem0 t1) as [t2|e]; cbn [mbind result_bind];
    [destruct H2 as (v2 & E2 & H2) | by rewrite H2].
  rewrite E2. cbv beta iota.
  pose proof (denotes_get _ _ _ "geometry" H2) as H3.
  destruct (get t2 "geometry") as [t3|e]; cbn [mbind result_bind];
    [destruct H3 as (v3 & E3 & H3) | by rewrite H3].
  rewrite E3. cbv beta iota.
  pose proof (denotes_get _ _ _ "coordinates" H3) as H4.
  destruct (get t3 "coordinates") as [t4|e]; cbn [mbind result_bind];
    [destruct H4 as (v4 & E4 & H4) | by rewrite H4].
  rewrite E4. cbv beta iota.
  pose proof (denotes_elem0 _ _ _ H4) as H5.
  destruct (elem0 t4) as [t5|e]; cbn [mbind result_bind];
    [destruct H5 as (v5 & E5 & H5) | by rewrite H5].
  rewrite E5. cbv beta iota.
  pose proof (denotes_elem0 _ _ _ H5) as H6.
  destruct (elem0 t5) as [t6|e]; cbn [mbind result_bind];
    [destruct H6 as (v6 & E6 & H6) | by rewrite H6].
  rewrite E6. cbv beta iota.
  pose proof (denotes_elem0 _ _ _ H6) as H7.
  destruct (elem0 t6) as [t7|e]; cbn [mbind result_bind];
    [destruct H7 as (v7 & E7 & H7) | by rewrite H7].
  rewrite E7. cbv beta iota.
  exact (denotes_slice2 _ _ _ H7).
Qed.

Section GeologicalLoaderProperties.
Context `{Projection}.

Lemma load_geological_correct σ data doc :
  read_tree σ data = Some doc ->
  match load_geological_tree doc with
  | Throw e => (load_geological data σ).2 = Throw e
  | Ok t =>
      exists r,
        (load_geological data σ).2 = Ok r
        /\ denotes (load_geological data σ).1 r t
  end.
Proof.
  intros Hdoc. unfold load_geological_tree.
  pose proof (sample_position_correct σ data doc (read_tree_denotes _ _ _ Hdoc)) as H1.
  destruct (sample_position_tree doc) as [s1|e]; cbn [mbind result_bind].
  2: { unfold load_geological, run_bind. by rewrite H1. }
  destruct H1 as (ext & v1 & E1 & _).
  assert (Hdoc1 : read_tree (σ ++ ext)%list data = Some doc).
  { unfold read_tree in *. eapply read_stable; [| |exact Hdoc].
    - rewrite length_app. lia.
    - intros l c Hc. by apply lookup_app_l_Some. }
  pose proof (transformGeoJSON_correct data doc _ Hdoc1) as H2.
  destruct (transformGeoJSON data (σ ++ ext)%list) as [σ2 out] eqn:E2. simpl in H2.
  destruct (transformGeoJSON_tree doc) as [t|e]; cbn [mbind result_bind].
  2: { subst out. unfold load_geological, run_bind. rewrite E1. cbv beta iota.
       by rewrite E2. }
  destruct H2 as (r & -> & Hr).
  pose proof (sample_position_correct σ2 r t Hr) as H3.
  destruct (sample_position_tree t) as [s2|e]; cbn [mbind result_bind].
  2: { unfold load_geological, run_bind. rewrite E1. cbv beta iota.
       rewrite E2. cbv beta iota. by rewrite H3. }
  destruct H3 as (ext2 & v3 & E3 & _).
  assert (Hrun : load_geological data σ = ((σ2 ++ ext2)%list, Ok r)).
  { unfold load_geological, run_bind. rewrite E1. cbv beta iota.
    rewrite E2. cbv beta iota. by rewrite E3. }
  rewrite Hrun. exists r. split; [done|]. simpl.
  eapply denotes_agree; [|exact Hr]. intros l c Hc. by apply lookup_app_l_Some.
Qed.

(** X16. The state [geologicalData] after the handler of the fetch, for a
    response that denotes the document [doc]: it holds a value that
    denotes the transformed document when both logged samples can be
    taken and the transformation returns, and it is still [null] when
    the sample of the response, the transformation or the sample of its
    result raises. *)
Theorem X16_geological_data_loaded (σ σ' : store) (data : ref_value)
    (doc : value) (state : option ref_value) :
  read_tree σ data = Some doc ->
  geologicalData_after data σ = (σ', state) ->
  match load_geological_tree doc with
  | Ok t =>
      transformGeoJSON_tree doc = Ok t
      /\ exists r, state = Some r /\ denotes σ' r t
  | Throw _ => state = None
  end.
Proof.
  intros Hdoc. unfold geologicalData_after.
  pose proof (load_geological_correct σ data doc Hdoc) as Hload.
  destruct (load_geological data σ) as [σ1 out]. simpl in Hload.
  destruct (load_geological_tree doc) as [t|e] eqn:Htree.
  - destruct Hload as (r & -> & Hr). intros [= <- <-]. split; [|by exists r].
    unfold load_geological_tree in Htree.
    destruct (sample_position_tree doc); cbn [mbind result_bind] in Htree; [|done].
    destruct (transformGeoJSON_tree doc) as [t'|]; cbn [mbind result_bind] in Htree;
      [|done].
    destruct (sample_position_tree t'); cbn [mbind result_bind] in Htree; [|done].
    congruence.
  - subst out. by intros [= <- <-].
Qed.
End GeologicalLoaderProperties.

Lemma first_depth_pos gc : 1 <= first_depth gc.
Proof. destruct gc as [x y|[|g r]]; simpl; lia. Qed.

Lemma shallow_sample_raises doc f rest g gc :
  get doc "features" = Ok (VArr (f :: rest)) ->
  get f "geometry" = Ok g ->
  get g "coordinates" = Ok (coords_value gc) ->
  first_depth gc <= 3 ->
  sample_position_tree doc = Throw TypeError.
Proof.
  intros Hfs Hg Hc Hdepth. unfold sample_position_tree.
  rewrite Hfs. cbn [mbind result_bind].
  change (elem0 (VArr (f :: rest))) with (Ok f). cbn [mbind result_bind].
  rewrite Hg. cbn [mbind result_bind]. rewrite Hc. cbn [mbind result_bind].
  destruct gc as [x y|[|[x1 y1|[|[x2 y2|[|g3 r3]] r2]] r1]]; simpl in *;
    try done.
  pose proof (first_depth_pos g3). exfalso. lia.
Qed.

Lemma deep_coords gc :
  4 <= first_depth gc ->
  exists p r3 r2 r1,
    coords_value gc = VArr (VArr (VArr (VArr p :: r3) :: r2) :: r1).
Proof.
  destruct gc as [x y|[|[x1 y1|[|[x2 y2|[|g3 r3]] r2]] r1]]; simpl;
    try lia. intros _.
  destruct g3 as [x y|children]; simpl; by eexists _, _, _, _.
Qed.

Lemma deep_sample doc f rest g p r3 r2 r1 :
  get doc "features" = Ok (VArr (f :: rest)) ->
  get f "geometry" = Ok g ->
  get g "coordinates" = Ok (VArr (VArr (VArr (VArr p :: r3) :: r2) :: r1)) ->
  sample_position_tree doc = Ok (VArr (take 2 p)).
Proof.
  intros Hfs Hg Hc. unfold sample_position_tree.
  rewrite Hfs. cbn [mbind result_bind].
  change (elem0 (VArr (f :: rest))) with (Ok f). cbn [mbind result_bind].
  rewrite Hg. cbn [mbind result_bind]. rewrite Hc. done.
Qed.

Section DeepFirstFeature.
Context `{Projection}.

Lemma transformCoordinates_returns_array v r :
  transformCoordinates v = Ok r -> exists elts, r = VArr elts.
Proof.
  destruct v as [| | b | n | s | elts | props]; try done.
  assert (Hcases : (exists n rest, elts = VNum n :: rest)
                   \/ (forall n rest, elts <> VNum n :: rest)).
  { destruct elts as [|[] rest]; try (by right); left; by eexists _, _. }
  destruct Hcases as [(n & rest & ->) | Hhead].
  - simpl. destruct (proj4 _) as [res|e]; [|done]. intros [= <-]. by eexists.
  - rewrite (transformCoordinates_array _ Hhead).
    destruct (array_map transformCoordinates elts) as [values|e]; [|done].
    intros [= <-]. by eexists.
Qed.

Lemma transformCoordinates_head elts rest r :
  transformCoordinates (VArr (VArr elts :: rest)) = Ok r ->
  exists e' rest', r = VArr (e' :: rest') /\ transformCoordinates (VArr elts) = Ok e'.
Proof.
  rewrite (transformCoordinates_array (VArr elts :: rest)) by done.
  cbn [array_map]. fold (array_map transformCoordinates).
  destruct (transformCoordinates (VArr elts)) as [e'|e]; cbn [mbind result_bind];
    [|done].
  destruct (array_map transformCoordinates rest) as [rest'|e];
    cbn [mbind result_bind]; [|done].
  intros [= <-]. by exists e', rest'.
Qed.

Lemma deep_transformed p r3 r2 r1 r :
  transformCoordinates (VArr (VArr (VArr (VArr p :: r3) :: r2) :: r1)) = Ok r ->
  exists p' r3' r2' r1', r = VArr (VArr (VArr (VArr p' :: r3') :: r2') :: r1').
Proof.
  intros H1.
  apply transformCoordinates_head in H1 as (e1 & r1' & -> & H2).
  apply transformCoordinates_head in H2 as (e2 & r2' & -> & H3).
  apply transformCoordinates_head in H3 as (e3 & r3' & -> & H4).
  apply transformCoordinates_returns_array in H4 as (p' & ->).
  by exists p', r3', r2', r1'.
Qed.
End DeepFirstFeature.

Lemma X16_geological_data_loaded_witness :
  let σ := (build sample_multipolygon []).1 in
  let data := (build sample_multipolygon []).2 in
  let after := @geologicalData_after scaling_projection data σ in
  read_tree σ data = Some sample_multipolygon
  /\ exists t r,
       @transformGeoJSON_tree scaling_projection sample_multipolygon = Ok t
       /\ after.2 = Some r /\ denotes after.1 r t.
Proof.
  intros σ data after.
  assert (Hdoc : read_tree σ data = Some sample_multipolygon) by reflexivity.
  pose proof (@X16_geological_data_loaded scaling_projection σ after.1 data
                sample_multipolygon after.2 Hdoc (surjective_pairing after))
    as Hres.
  split; [done|].
  destruct (@load_geological_tree scaling_projection sample_multipolygon)
    as [t|e] eqn:Ht; [|vm_compute in Ht; discriminate].
  destruct Hres as (Htree & r & Hr & Hden). by exists t, r.
Defined.

Section FirstFeatureDepth.
Context `{Projection}.

(** X17. The geological layer never loads from a document whose first
    feature is a point, a line or a polygon: the expression logged before
    the transformation indexes the coordinates three times and then calls
    [slice], which raises a [TypeError] unless the coordinates are nested
    four deep, as those of a multi-polygon are.  The handler stops there,
    before the transformation, and [geologicalData] stays [null]. *)
Theorem X17_shallow_first_feature_never_loads (σ σ' : store) (data : ref_value)
    (doc f g : value) (rest : list value) (gc : geometry_coords)
    (state : option ref_value) :
  read_tree σ data = Some doc ->
  get doc "features" = Ok (VArr (f :: rest)) ->
  get f "geometry" = Ok g ->
  get g "coordinates" = Ok (coords_value gc) ->
  first_depth gc <= 3 ->
  geologicalData_after data σ = (σ', state) ->
  state = None /\ σ' = σ.
Proof.
  intros Hdoc Hfs Hg Hc Hdepth.
  pose proof (sample_position_correct σ data doc (read_tree_denotes _ _ _ Hdoc))
    as Hsample.
  rewrite (shallow_sample_raises _ _ _ _ _ Hfs Hg Hc Hdepth) in Hsample.
  unfold geologicalData_after, load_geological, run_bind. rewrite Hsample.
  by intros [= <- <-].
Qed.

Lemma deep_load_geological_tree doc f rest g gc :
  json_value doc = doc ->
  get doc "features" = Ok (VArr (f :: rest)) ->
  get f "geometry" = Ok g ->
  get g "coordinates" = Ok (coords_value gc) ->
  4 <= first_depth gc ->
  load_geological_tree doc = transformGeoJSON_tree doc.
Proof.
  intros Hjson Hfs Hg Hc Hdepth.
  destruct (deep_coords gc Hdepth) as (p & r3 & r2 & r1 & Hgc). rewrite Hgc in Hc.
  unfold load_geological_tree.
  rewrite (deep_sample _ _ _ _ _ _ _ _ Hfs Hg Hc). cbn [mbind result_bind].
  destruct (transformGeoJSON_tree doc) as [t|e] eqn:Ht; cbn [mbind result_bind];
    [|done].
  enough (exists s, sample_position_tree t = Ok s) as [s ->] by done.
  assert (Htree : transformGeoJSON_tree doc
                  = (fs' ← array_map transformFeature_tree (f :: rest);
                     Ok (set_key "features" (VArr fs') doc))).
  { unfold transformGeoJSON_tree. destruct doc; try done; by rewrite Hjson, Hfs. }
  rewrite Htree in Ht. cbn [array_map] in Ht.
  fold (array_map transformFeature_tree) in Ht.
  destruct (transformFeature_tree f) as [f'|] eqn:Hf';
    cbn [mbind result_bind] in Ht; [|done].
  destruct (array_map transformFeature_tree rest) as [rest'|];
    cbn [mbind result_bind] in Ht; [|done].
  injection Ht as <-.
  destruct (get_truthy_object _ _ _ Hfs eq_refl) as (props & -> & _).
  assert (Hfs' : get (set_key "features" (VArr (f' :: rest')) (VObj props)) "features"
                 = Ok (VArr (f' :: rest'))).
  { simpl. by rewrite assoc_set_prop_eq. }
  destruct (transformFeature_tree_cases _ _ Hf')
    as [->|(fprops & gprops & ct & ct' & -> & Hfg & Hgc' & Htr & ->)].
  { eexists. exact (deep_sample _ _ _ _ _ _ _ _ Hfs' Hg Hc). }
  simpl in Hg. rewrite Hfg in Hg. injection Hg as <-.
  simpl in Hc. rewrite Hgc' in Hc. injection Hc as ->.
  destruct (deep_transformed _ _ _ _ _ Htr) as (p' & r3' & r2' & r1' & ->).
  eexists. eapply (deep_sample _ _ _ _ _ _ _ _ Hfs').
  - simpl. by rewrite assoc_set_prop_eq.
  - simpl. by rewrite assoc_set_prop_eq.
Qed.

(** X18. From a JSON document whose first feature is a multi-polygon, or
    nested deeper still, the geological layer loads exactly when the
    transformation returns: both logged samples can then be taken, of the
    response and of the transformed document, and [geologicalData] holds
    a value that denotes the transformed document; when the
    transformation raises, [geologicalData] stays [null]. *)
Theorem X18_deep_first_feature_loads (σ σ' : store) (data : ref_value)
    (doc f g : value) (rest : list value) (gc : geometry_coords)
    (state : option ref_value) :
  read_tree σ data = Some doc ->
  json_value doc = doc ->
  get doc "features" = Ok (VArr (f :: rest)) ->
  get f "geometry" = Ok g ->
  get g "coordinates" = Ok (coords_value gc) ->
  4 <= first_depth gc ->
  geologicalData_after data σ = (σ', state) ->
  match transformGeoJSON_tree doc with
  | Ok t => exists r, state = Some r /\ denotes σ' r t
  | Throw _ => state = None
  end.
Proof.
  intros Hdoc Hjson Hfs Hg Hc Hdepth. unfold geologicalData_after.
  pose proof (load_geological_correct σ data doc Hdoc) as Hload.
  rewrite (deep_load_geological_tree _ _ _ _ _ Hjson Hfs Hg Hc Hdepth) in Hload.
  destruct (load_geological data σ) as [σ1 out]. simpl in Hload.
  destruct (transformGeoJSON_tree doc) as [t|e].
  - destruct Hload as (r & -> & Hr). intros [= <- <-]. by exists r.
  - subst out. by intros [= <- <-].
Qed.
End FirstFeatureDepth.

Lemma X17_shallow_first_feature_never_loads_witness :
  let σ := (build sample_document []).1 in
  let data := (build sample_document []).2 in
  (@geologicalData_after scaling_projection data σ).2 = None
  /\ returns (@transformGeoJSON scaling_projection data σ).2.
Proof.
  intros σ data.
  assert (Hdoc : read_tree σ data = Some sample_document) by reflexivity.
  split; [|by eexists].
  refine (proj1 (@X17_shallow_first_feature_never_loads scaling_projection σ _ data
                   sample_document _ _ _
                   (Nested [Nested [Position (num_of_Z 500000) (num_of_Z 7000000);
                                    Position (num_of_Z 600000) (num_of_Z 7100000)]])
                   _ Hdoc eq_refl eq_refl eq_refl _ (surjective_pairing _))).
  simpl. lia.
Defined.

Lemma X18_deep_first_feature_loads_witness :
  let σ := (build sample_multipolygon []).1 in
  let data := (build sample_multipolygon []).2 in
  let after := @geologicalData_after scaling_projection data σ in
  exists t r,
    @transformGeoJSON_tree scaling_projection sample_multipolygon = Ok t
    /\ after.2 = Some r /\ denotes after.1 r t.
Proof.
  intros σ data after.
  assert (Hdoc : read_tree σ data = Some sample_multipolygon) by reflexivity.
  pose proof (@X18_deep_first_feature_loads scaling_projection σ after.1 data
                sample_multipolygon _ _ _
                (Nested [Nested [Nested [Position (num_of_Z 500000) (num_of_Z 7000000);
                                         Position (num_of_Z 600000) (num_of_Z 7100000)]]])
                after.2 Hdoc eq_refl eq_refl eq_refl eq_refl
                ltac:(simpl; lia) (surjective_pairing after)) as Hres.
  destruct (@transformGeoJSON_tree scaling_projection sample_multipolygon)
    as [t|e] eqn:Ht; [|vm_compute in Ht; discriminate].
  destruct Hres as (r & Hr & Hden). by exists t, r.
Defined.
